(** * A shallow embedding of the osmem allocator (src/src/osmem.c)

    The allocator keeps one process-wide registry of blocks: a linked list
    of [block_meta] headers threaded through the memory it manages.  The
    embedding keeps that shape: memory is a finite map from header addresses
    to header records, pointers are integers ([0] is [NULL]), and every
    function of osmem.c is a function of the same name that reads and writes
    this map in the order of the C statements.

    - [size_t] is the 64-bit unsigned type of the LP64 targets the library is
      built for; arithmetic on it wraps modulo [2 ^ 64] ([wrap]).
    - Reading a header at an address that holds none (a null or dangling
      pointer, an unmapped page) is a fault: the function returns [None].
    - The loops of osmem.c walk the registry; they are structural recursions
      on a fuel counter and return [None] when it runs out.
    - The kernel is part of the state: the program break, the address the
      next mapping gets, the page size, and the trace of the calls made.
      Only runs in which [sbrk], [mmap] and [munmap] succeed are described:
      a failing call ends the process in [DIE].
    - Payload bytes are not modelled; the [memset] and [memcpy] calls on
      them are recorded in the trace with their arguments.
    - A header is one entry of the map, so two headers never share bytes
      here as they could in C.  Where a property lets the allocator lay a
      new header (at the break, or where a block is split), its hypotheses
      keep the 32 bytes of that header clear of the headers of the
      registry. *)

From Stdlib Require Import ZArith Lia List.
From stdpp Require Import base option gmap list.

Open Scope Z_scope.

(** ** Machine arithmetic and the macros of osmem.c *)

Definition wrap (z : Z) : Z := z mod 2 ^ 64.

(** [sbrk] takes an [intptr_t]: the unsigned value read as a signed one. *)
Definition to_signed (z : Z) : Z := if decide (z < 2 ^ 63) then z else z - 2 ^ 64.

Definition MMAP_THRESHOLD : Z := 128 * 1024.
Definition ALIGNMENT : Z := 8.

(** [#define ALIGN(size) (((size) + (ALIGNMENT - 1)) & ~(ALIGNMENT - 1))] *)
Definition ALIGN (sz : Z) : Z :=
  Z.land (wrap (sz + (ALIGNMENT - 1))) (wrap (Z.lnot (ALIGNMENT - 1))).

(** ** Block headers *)

(** Modelled from the spec: utils/block_meta.h is not part of the sources at
    hand.  Its header has the four fields [size], [status], [prev], [next]
    and the three statuses below; with a 64-bit [size_t], an [int] and two
    pointers the structure occupies 32 bytes. *)
Inductive block_status : Set := STATUS_FREE | STATUS_ALLOC | STATUS_MAPPED.

#[global] Instance block_status_eq_dec : EqDecision block_status.
Proof. solve_decision. Defined.

(** Modelled from the spec: [struct block_meta] of utils/block_meta.h. *)
Record block_meta : Set := BlockMeta {
  size : Z;
  status : block_status;
  prev : Z;
  next : Z
}.

(** Modelled from the spec: [sizeof(struct block_meta)] on an LP64 target. *)
Definition sizeof_block_meta : Z := 32.

(** [ALIGN(sizeof(struct block_meta))], the [H] of the specification. *)
Definition META : Z := ALIGN sizeof_block_meta.

Definition set_size (v : Z) (b : block_meta) : block_meta :=
  BlockMeta v (status b) (prev b) (next b).
Definition set_status (v : block_status) (b : block_meta) : block_meta :=
  BlockMeta (size b) v (prev b) (next b).
Definition set_prev (v : Z) (b : block_meta) : block_meta :=
  BlockMeta (size b) (status b) v (next b).
Definition set_next (v : Z) (b : block_meta) : block_meta :=
  BlockMeta (size b) (status b) (prev b) v.

(** ** Memory *)

Abbreviation memory := (gmap Z block_meta).

(** What a header-sized piece of memory holds before the allocator writes
    it; no function reads a field of a new header before writing it. *)
Definition fresh_meta : block_meta := BlockMeta 0 STATUS_FREE 0 0.

(** [p->field = v] on a header the registry already knows. *)
Definition store (f : block_meta → block_meta) (p : Z) (m : memory) : option memory :=
  b ← m !! p; Some (<[p := f b]> m).

(** [p->field = v] on a header being laid out over allocated memory. *)
Definition init (f : block_meta → block_meta) (p : Z) (m : memory) : memory :=
  <[p := f (default fresh_meta (m !! p))]> m.

(** ** Process state: the globals of osmem.c and the kernel *)

Inductive event : Set :=
| SBRK (increment : Z)
| MMAP (length : Z)
| MUNMAP (addr length : Z)
| MEMSET (addr length : Z)
| MEMCPY (dst src length : Z).

#[global] Instance event_eq_dec : EqDecision event.
Proof. solve_decision. Defined.

Record state : Type := State {
  mem : memory;
  head : Z;
  preallocHeap : Z;
  callocType : Z;
  reallocType : Z;
  brk : Z;
  mmap_next : Z;
  pagesize : Z;
  trace : list event
}.

Definition with_mem (m : memory) (s : state) : state :=
  State m (head s) (preallocHeap s) (callocType s) (reallocType s)
        (brk s) (mmap_next s) (pagesize s) (trace s).
Definition with_head (h : Z) (s : state) : state :=
  State (mem s) h (preallocHeap s) (callocType s) (reallocType s)
        (brk s) (mmap_next s) (pagesize s) (trace s).
Definition with_preallocHeap (v : Z) (s : state) : state :=
  State (mem s) (head s) v (callocType s) (reallocType s)
        (brk s) (mmap_next s) (pagesize s) (trace s).
Definition with_callocType (v : Z) (s : state) : state :=
  State (mem s) (head s) (preallocHeap s) v (reallocType s)
        (brk s) (mmap_next s) (pagesize s) (trace s).
Definition with_reallocType (v : Z) (s : state) : state :=
  State (mem s) (head s) (preallocHeap s) (callocType s) v
        (brk s) (mmap_next s) (pagesize s) (trace s).
Definition log (e : event) (s : state) : state :=
  State (mem s) (head s) (preallocHeap s) (callocType s) (reallocType s)
        (brk s) (mmap_next s) (pagesize s) (trace s ++ [e]).

(** The state of a process that has not called the allocator yet. *)
Definition fresh (base mbase page : Z) : state :=
  State ∅ 0 0 0 0 base mbase page [].

(** [sbrk(n)] moves the break and returns the old one. *)
Definition sbrk (n : Z) (s : state) : Z * state :=
  (brk s,
   State (mem s) (head s) (preallocHeap s) (callocType s) (reallocType s)
         (brk s + to_signed n) (mmap_next s) (pagesize s) (trace s ++ [SBRK n])).

(** [mmap(NULL, n, ...)] returns a region of whole pages that no live
    mapping and no part of the arena overlaps. *)
Definition page_round (page n : Z) : Z := (n + page - 1) / page * page.

Definition mmap (n : Z) (s : state) : Z * state :=
  (mmap_next s,
   State (mem s) (head s) (preallocHeap s) (callocType s) (reallocType s)
         (brk s) (mmap_next s + page_round (pagesize s) n) (pagesize s)
         (trace s ++ [MMAP n])).

(** [munmap(p, n)]: the header at [p] is gone with its pages. *)
Definition munmap (p n : Z) (s : state) : state :=
  State (delete p (mem s)) (head s) (preallocHeap s) (callocType s) (reallocType s)
        (brk s) (mmap_next s) (pagesize s) (trace s ++ [MUNMAP p n]).

(** ** The registry *)

(** [while (temp->next != NULL) temp = temp->next;], the loop of
    [insertInList] and of [extendHeap]. *)
Fixpoint lastBlock (fuel : nat) (m : memory) (temp : Z) : option Z :=
  match fuel with
  | O => None
  | S fuel' =>
      t ← m !! temp;
      if decide (next t = 0) then Some temp else lastBlock fuel' m (next t)
  end.

(** Returns the new value of [*head] and the memory. *)
Definition insertInList (fuel : nat) (hd memBlock : Z) (m : memory)
  : option (Z * memory) :=
  if decide (hd = 0) then
    m1 ← store (set_prev 0) memBlock m;
    m2 ← store (set_next 0) memBlock m1;
    Some (memBlock, m2)
  else
    temp ← lastBlock fuel m hd;
    m1 ← store (set_next memBlock) temp m;
    m2 ← store (set_prev temp) memBlock m1;
    Some (hd, m2).

(** Returns the new value of [*head] and the memory. *)
Definition deleteBlock (hd delBlock : Z) (m : memory) : option (Z * memory) :=
  if decide (hd = 0 ∨ delBlock = 0) then Some (hd, m)
  else
    d ← m !! delBlock;
    let hd' := if decide (hd = delBlock) then next d else hd in
    m1 ← (if decide (next d ≠ 0) then store (set_prev (prev d)) (next d) m
          else Some m);
    d1 ← m1 !! delBlock;
    m2 ← (if decide (prev d1 ≠ 0) then store (set_next (next d1)) (prev d1) m1
          else Some m1);
    Some (hd', m2).

(** ** The arena manager *)

(** [tmp->size += tmp->next->size + META; tmp->next = tmp->next->next;] *)
Definition absorbNext (tmp : Z) (m : memory) : option memory :=
  t ← m !! tmp;
  n ← m !! next t;
  m1 ← store (set_size (wrap (size t + wrap (size n + META)))) tmp m;
  t1 ← m1 !! tmp;
  n1 ← m1 !! next t1;
  store (set_next (next n1)) tmp m1.

(** The sweep of [mergeFreeBlocks] when [reallocType == 0]. *)
Fixpoint mergeFreeBlocks_loop (fuel : nat) (tmp : Z) (m : memory) : option memory :=
  match fuel with
  | O => None
  | S fuel' =>
      t ← m !! tmp;
      if decide (next t ≠ 0 ∧ tmp ≠ 0) then
        if decide (status t = STATUS_FREE) then
          n ← m !! next t;
          if decide (status n = STATUS_FREE) then
            m' ← absorbNext tmp m;
            mergeFreeBlocks_loop fuel' tmp m'
          else mergeFreeBlocks_loop fuel' (next t) m
        else mergeFreeBlocks_loop fuel' (next t) m
      else Some m
  end.

Definition mergeFreeBlocks (fuel : nat) (hd : Z) (reallocSet : Z) (m : memory)
  : option memory :=
  if decide (hd = 0) then Some m
  else
    m1 ← (if decide (reallocSet = 1) then
            t ← m !! hd;
            if decide (next t ≠ 0) then
              n ← m !! next t;
              if decide (status n = STATUS_FREE) then absorbNext hd m
              else Some m
            else Some m
          else Some m);
    if decide (reallocSet = 0) then mergeFreeBlocks_loop fuel hd m1
    else Some m1.

(** The search loop of [searchAndSplit]; returns [bestFit]. *)
Fixpoint searchAndSplit_loop (fuel : nat) (m : memory) (requiredSize : Z)
    (tmp bestFit : Z) : option Z :=
  match fuel with
  | O => None
  | S fuel' =>
      if decide (tmp = 0) then Some bestFit
      else
        t ← m !! tmp;
        bestFit' ←
          (if decide (requiredSize ≤ size t ∧ status t = STATUS_FREE) then
             if decide (bestFit = 0) then Some tmp
             else
               bf ← m !! bestFit;
               Some (if decide (size t < size bf) then tmp else bestFit)
           else Some bestFit);
        searchAndSplit_loop fuel' m requiredSize (next t) bestFit'
  end.

Definition searchAndSplit (fuel : nat) (hd : Z) (sz : Z) (m : memory)
  : option (Z * memory) :=
  let requiredSize := wrap (sz - META) in
  bestFit ← searchAndSplit_loop fuel m requiredSize hd 0;
  if decide (bestFit ≠ 0) then
    m1 ← store (set_status STATUS_ALLOC) bestFit m;
    bf ← m1 !! bestFit;
    if decide (wrap (ALIGN 1 + sz) ≤ size bf) then
      let newBlock := bestFit + sz in
      let m2 := init (set_size (wrap (size bf - sz))) newBlock m1 in
      let m3 := init (set_status STATUS_FREE) newBlock m2 in
      m4 ← store (set_size requiredSize) bestFit m3;
      bf4 ← m4 !! bestFit;
      let m5 := init (set_next (next bf4)) newBlock m4 in
      m6 ← store (set_next newBlock) bestFit m5;
      let m7 := init (set_prev bestFit) newBlock m6 in
      Some (bestFit, m7)
    else Some (bestFit, m1)
  else Some (bestFit, m).

Definition extendHeap (fuel : nat) (hd : Z) (sz : Z) (reallocSet : Z) (s : state)
  : option (Z * state) :=
  t ← mem s !! hd;
  if decide (reallocSet = 1 ∧ next t = 0) then
    let '(_, s1) := sbrk (wrap (sz - size t)) s in
    m1 ← store (set_size sz) hd (mem s1);
    m2 ← store (set_status STATUS_ALLOC) hd m1;
    m3 ← store (set_next 0) hd m2;
    Some (hd, with_mem m3 s1)
  else
    tmp ← lastBlock fuel (mem s) hd;
    l ← mem s !! tmp;
    if decide (status l = STATUS_FREE) then
      let '(_, s1) := sbrk (wrap (wrap (sz - META) - size l)) s in
      m1 ← store (set_size (wrap (sz - META))) tmp (mem s1);
      m2 ← store (set_status STATUS_ALLOC) tmp m1;
      m3 ← store (set_next 0) tmp m2;
      Some (tmp, with_mem m3 s1)
    else Some (0, s).

Definition splitRealloc (memBlock : Z) (sz : Z) (m : memory) : option (Z * memory) :=
  b ← m !! memBlock;
  if decide (wrap (ALIGN 1 + wrap (sz + META)) ≤ size b) then
    let newBlock := memBlock + sz + META in
    let m1 := init (set_size (wrap (size b - wrap (sz + META)))) newBlock m in
    let m2 := init (set_status STATUS_FREE) newBlock m1 in
    b2 ← m2 !! memBlock;
    let m3 := init (set_next (next b2)) newBlock m2 in
    m4 ← store (set_next newBlock) memBlock m3;
    let m5 := init (set_prev memBlock) newBlock m4 in
    m6 ← store (set_size sz) memBlock m5;
    Some (memBlock, m6)
  else Some (memBlock, m).

(** [while (tmp != NULL && tmp != memBlock) tmp = tmp->next;] *)
Fixpoint extendRealloc_loop (fuel : nat) (m : memory) (tmp memBlock : Z) : option Z :=
  match fuel with
  | O => None
  | S fuel' =>
      if decide (tmp ≠ 0 ∧ tmp ≠ memBlock) then
        t ← m !! tmp; extendRealloc_loop fuel' m (next t) memBlock
      else Some tmp
  end.

Definition extendRealloc (fuel : nat) (hd memBlock : Z) (sz : Z) (s : state)
  : option (Z * state) :=
  tmp ← extendRealloc_loop fuel (mem s) hd memBlock;
  if decide (tmp ≠ 0) then
    let s1 := with_reallocType 1 s in
    m1 ← mergeFreeBlocks fuel tmp (reallocType s1) (mem s1);
    t ← m1 !! tmp;
    if decide (sz ≤ size t) then
      let s2 := with_reallocType 0 (with_mem m1 s1) in
      '(r, m2) ← splitRealloc tmp sz (mem s2);
      Some (r, with_mem m2 s2)
    else Some (0, with_reallocType 0 (with_mem m1 s1))
  else Some (0, s).

Definition tryAll (fuel : nat) (hd : Z) (sz : Z) (s : state) : option (Z * state) :=
  m1 ← mergeFreeBlocks fuel hd 0 (mem s);
  '(memBlock, m2) ← searchAndSplit fuel hd sz m1;
  if decide (memBlock ≠ 0) then Some (memBlock, with_mem m2 s)
  else extendHeap fuel hd sz 0 (with_mem m2 s).

(** ** The allocators *)

Definition allocateMmap (fuel : nat) (sz : Z) (s : state) : option (Z * state) :=
  let '(memBlock, s1) := mmap sz s in
  let m1 := init (set_next 0) memBlock (mem s1) in
  let m2 := init (set_prev 0) memBlock m1 in
  let m3 := init (set_size sz) memBlock m2 in
  let m4 := init (set_status STATUS_MAPPED) memBlock m3 in
  '(hd, m5) ← insertInList fuel (head s1) memBlock m4;
  Some (memBlock, with_head hd (with_mem m5 s1)).

Definition allocateSbrk (fuel : nat) (sz : Z) (s : state) : option (Z * state) :=
  let '(memBlock, s1) := sbrk sz s in
  let m1 := init (set_next 0) memBlock (mem s1) in
  let m2 := init (set_prev 0) memBlock m1 in
  let m3 := init (set_size (wrap (sz - META))) memBlock m2 in
  let m4 := init (set_status STATUS_ALLOC) memBlock m3 in
  '(hd, m5) ← insertInList fuel (head s1) memBlock m4;
  Some (memBlock, with_head hd (with_mem m5 s1)).

(** The arena branch shared by the two halves of [os_malloc]. *)
Definition arenaAlloc (fuel : nat) (payloadAndMeta : Z) (s : state)
  : option (Z * state) :=
  if decide (preallocHeap s = 0) then
    allocateSbrk fuel MMAP_THRESHOLD (with_preallocHeap 1 s)
  else
    '(memBlock, s1) ← tryAll fuel (head s) payloadAndMeta s;
    if decide (memBlock = 0) then allocateSbrk fuel payloadAndMeta s1
    else Some (memBlock, s1).

Definition os_malloc (fuel : nat) (sz : Z) (s : state) : option (Z * state) :=
  let payloadAndMeta := wrap (ALIGN sz + META) in
  if decide (sz ≤ 0) then Some (0, s)
  else
    let threshold :=
      if decide (callocType s = 1) then wrap (pagesize s) else MMAP_THRESHOLD in
    '(memBlock, s1) ←
      (if decide (threshold ≤ payloadAndMeta) then allocateMmap fuel payloadAndMeta s
       else arenaAlloc fuel payloadAndMeta s);
    Some (memBlock + sizeof_block_meta, s1).

Definition os_free (ptr : Z) (s : state) : option state :=
  let memBlock := ptr - sizeof_block_meta in
  if decide (ptr = 0) then Some s
  else
    b ← mem s !! memBlock;
    m1 ← (if decide (status b = STATUS_ALLOC)
          then store (set_status STATUS_FREE) memBlock (mem s)
          else Some (mem s));
    b1 ← m1 !! memBlock;
    if decide (status b1 = STATUS_MAPPED) then
      m2 ← store (set_status STATUS_FREE) memBlock m1;
      '(hd, m3) ← deleteBlock (head s) memBlock m2;
      b3 ← m3 !! memBlock;
      Some (munmap memBlock (size b3) (with_head hd (with_mem m3 s)))
    else Some (with_mem m1 s).

Definition os_calloc (fuel : nat) (nmemb sz : Z) (s : state) : option (Z * state) :=
  if decide (nmemb = 0 ∨ sz = 0) then Some (0, s)
  else
    let callocSize := ALIGN (wrap (nmemb * sz)) in
    '(memBlock, s1) ← os_malloc fuel callocSize (with_callocType 1 s);
    if decide (memBlock ≠ 0) then
      Some (memBlock, with_callocType 0 (log (MEMSET memBlock callocSize) s1))
    else Some (0, with_callocType 0 s1).

(** [newAddr = os_malloc(size); memcpy(newAddr, ptr, n); os_free(ptr);] *)
Definition moveBlock (fuel : nat) (ptr sz : Z) (n : block_meta → Z) (s : state)
  : option (Z * state) :=
  '(newAddr, s1) ← os_malloc fuel sz s;
  b ← mem s1 !! (ptr - sizeof_block_meta);
  s2 ← os_free ptr (log (MEMCPY newAddr ptr (n b)) s1);
  Some (newAddr, s2).

Definition os_realloc (fuel : nat) (ptr sz : Z) (s : state) : option (Z * state) :=
  let alignedNewPayload := ALIGN sz in
  let memBlock := ptr - sizeof_block_meta in
  if decide (sz = 0) then s1 ← os_free ptr s; Some (0, s1)
  else if decide (ptr = 0) then os_malloc fuel sz s
  else
    b ← mem s !! memBlock;
    if decide (status b = STATUS_FREE) then Some (0, s)
    else if decide (alignedNewPayload = size b) then Some (ptr, s)
    else if decide (status b = STATUS_MAPPED) then
      moveBlock fuel ptr sz
        (λ b', if decide (alignedNewPayload < size b') then alignedNewPayload
               else size b') s
    else
      (* status b = STATUS_ALLOC *)
      if decide (alignedNewPayload < size b) then
        '(bestFit, m1) ← splitRealloc memBlock alignedNewPayload (mem s);
        Some (bestFit + sizeof_block_meta, with_mem m1 s)
      else
        '(bestFit, s1) ←
          (if decide (next b ≠ 0) then
             extendRealloc fuel (head s) memBlock alignedNewPayload s
           else
             let s0 := with_reallocType 1 s in
             extendHeap fuel memBlock alignedNewPayload (reallocType s0) s0);
        if decide (bestFit ≠ 0) then Some (bestFit + sizeof_block_meta, s1)
        else moveBlock fuel ptr sz size (with_reallocType 0 s1).

(** ** Observations on states *)

(** The increments of the [sbrk] calls of a trace, in order. *)
Fixpoint sbrk_calls (t : list event) : list Z :=
  match t with
  | [] => []
  | SBRK n :: t' => n :: sbrk_calls t'
  | _ :: t' => sbrk_calls t'
  end.

(** The registry as the list of header addresses met from [p] along
    [next], when the walk reaches [NULL] within the fuel. *)
Fixpoint registry (fuel : nat) (m : memory) (p : Z) : option (list Z) :=
  match fuel with
  | O => None
  | S fuel' =>
      if decide (p = 0) then Some []
      else b ← m !! p; l ← registry fuel' m (next b); Some (p :: l)
  end.

(** [chain m p l]: following [next] from [p] visits exactly the headers
    [l] and then reaches [NULL]. *)
Fixpoint chain (m : memory) (p : Z) (l : list Z) : Prop :=
  match l with
  | [] => p = 0
  | a :: l' => p = a ∧ a ≠ 0 ∧ ∃ b, m !! a = Some b ∧ chain m (next b) l'
  end.

Definition has_status (m : memory) (st : block_status) (a : Z) : Prop :=
  ∃ b, m !! a = Some b ∧ status b = st.

(** No two neighbours of the list are both [STATUS_FREE]. *)
Fixpoint no_adjacent_free (m : memory) (l : list Z) : Prop :=
  match l with
  | a :: ((a' :: _) as l') =>
      ¬ (has_status m STATUS_FREE a ∧ has_status m STATUS_FREE a')
      ∧ no_adjacent_free m l'
  | _ => True
  end.

(** The registry is a well-formed doubly-linked list: the walk from [head]
    ends in [NULL], the head has no predecessor, and the successor of every
    node points back to it. *)
Definition well_formed_registry (s : state) : Prop :=
  ∃ l, chain (mem s) (head s) l
    ∧ (∀ b, mem s !! head s = Some b → prev b = 0)
    ∧ (∀ x bx, x ∈ l → mem s !! x = Some bx → next bx ≠ 0 →
         ∃ bn, mem s !! next bx = Some bn ∧ prev bn = x).

(** What [allocateSbrk] leaves in memory: the new header at the old break,
    linked behind the last block of the registry [l]. *)
Definition appended (m : memory) (l : list Z) (a : Z) (b : block_meta) : memory :=
  match last l with
  | None => <[a := b]> m
  | Some z => <[a := set_prev z b]> (alter (set_next a) z m)
  end.

(** ** Best fit, in the words of the specification *)

(** The header at [a] is a candidate for a payload of [req] bytes. *)
Definition fits (m : memory) (req : Z) (a : Z) : Prop :=
  ∃ b, m !! a = Some b ∧ status b = STATUS_FREE ∧ req ≤ size b.

(** [c] is the candidate of smallest size in [l], and the first of them in
    the order of the walk: every candidate before it is strictly larger, no
    candidate after it is smaller. *)
Definition is_best_fit (m : memory) (req : Z) (l : list Z) (c : Z) : Prop :=
  ∃ l1 l2 bc,
    l = l1 ++ c :: l2 ∧ m !! c = Some bc ∧
    status bc = STATUS_FREE ∧ req ≤ size bc ∧
    (∀ x bx, x ∈ l1 → m !! x = Some bx → status bx = STATUS_FREE →
             req ≤ size bx → size bc < size bx) ∧
    (∀ x bx, x ∈ l2 → m !! x = Some bx → status bx = STATUS_FREE →
             req ≤ size bx → size bc ≤ size bx).

(** The memory after [chosen] has been cut at [total] bytes: the chosen
    block keeps [total - META] bytes of payload and the rest is a new free
    block placed after it in the registry. *)
Definition split_at (m : memory) (chosen total : Z) (bc : block_meta) : memory :=
  <[chosen + total := BlockMeta (size bc - total) STATUS_FREE chosen (next bc)]>
    (<[chosen := BlockMeta (total - META) STATUS_ALLOC (prev bc) (chosen + total)]> m).

(** ** The layout of the registry *)

(** The 32 bytes of a header at [x] meet the bytes, header and payload, of
    the free block at [f]. *)
Definition covers (m : memory) (f x : Z) : Prop :=
  ∃ bf, m !! f = Some bf ∧ status bf = STATUS_FREE
      ∧ f - META < x < f + META + size bf.

(** Free blocks that are neighbours in the list stand in address order, the
    second at or after the end of the first, and no header of [X] lies
    between the two. *)
Fixpoint free_in_order (X : Z → Prop) (m : memory) (l : list Z) : Prop :=
  match l with
  | a :: ((a' :: _) as l') =>
      (∀ ba ba', m !! a = Some ba → m !! a' = Some ba' →
         status ba = STATUS_FREE → status ba' = STATUS_FREE →
         a + META + size ba ≤ a' ∧ ∀ x, X x → ¬ (a < x < a'))
      ∧ free_in_order X m l'
  | _ => True
  end.

(** Addresses are positive, size fields are [size_t] values, and a free
    block ends inside the 64-bit address space. *)
Definition sizes_ok (m : memory) (l : list Z) : Prop :=
  ∀ x bx, x ∈ l → m !! x = Some bx →
    0 < x ∧ 0 ≤ size bx < 2 ^ 64
    ∧ (status bx = STATUS_FREE → x + META + size bx < 2 ^ 64).

(** The registry of [s] is the chain [l] and its headers are clear of one
    another where the allocator writes: no other header of the registry
    meets a free block, free neighbours stand in address order with no
    header of the registry between them, and no header of the registry meets
    the 32 bytes at the break, where the next region will start. *)
Definition registry_ok (s : state) (l : list Z) : Prop :=
  chain (mem s) (head s) l
  ∧ sizes_ok (mem s) l
  ∧ free_in_order (λ x, x ∈ l) (mem s) l
  ∧ (∀ f x, f ∈ l → x ∈ l → x ≠ f → ¬ covers (mem s) f x)
  ∧ (∀ x, x ∈ l → x + META ≤ brk s ∨ brk s + META ≤ x)
  ∧ 0 < brk s.

(** The statuses of the blocks of a list, and the same property on them. *)
Definition statuses (m : memory) (l : list Z) : list (option block_status) :=
  (λ a, status <$> m !! a) <$> l.

Fixpoint no_two_free (sts : list (option block_status)) : Prop :=
  match sts with
  | a :: ((a' :: _) as sts') =>
      ¬ (a = Some STATUS_FREE ∧ a' = Some STATUS_FREE) ∧ no_two_free sts'
  | _ => True
  end.

(** ** Short runs of the public interface *)

(** A process whose break starts at [0x3E8000] and whose first mapping is
    placed at [0x7D0000], with 4 KiB pages. *)
Definition boot : state := fresh 4096000 8192000 4096.

(** [p = os_malloc(n); q = os_malloc(n);] *)
Definition malloc_twice (fuel : nat) (n : Z) (s : state) : option (Z * Z * state) :=
  '(p, s1) ← os_malloc fuel n s;
  '(q, s2) ← os_malloc fuel n s1;
  Some (p, q, s2).

(** [p = os_malloc(100); q = os_malloc(100); os_realloc(p, 100);] *)
Definition shrink_before_neighbour (fuel : nat) (s : state) : option state :=
  '(p, q, s2) ← malloc_twice fuel 100 s;
  '(_, s3) ← os_realloc fuel p 100 s2;
  Some s3.

(** [p = os_malloc(100); os_realloc(p, 100); os_free(p);], which leaves two
    free neighbours, followed by [os_malloc(200 * 1024)]. *)
Definition mmap_after_frees (fuel : nat) (s : state) : option state :=
  '(p, s1) ← os_malloc fuel 100 s;
  '(_, s2) ← os_realloc fuel p 100 s1;
  s3 ← os_free p s2;
  '(_, s4) ← os_malloc fuel (200 * 1024) s3;
  Some s4.

(** [p = os_malloc(100); m = os_malloc(200 * 1024); q = os_malloc(100);
    os_free(p); os_free(q); r = os_malloc(200);]: the mapped block sits in
    the registry between the first arena region and the block [q], which
    starts where that region ends. *)
Definition free_around_mapping (fuel : nat) (s : state) : option (Z * state) :=
  '(p, s1) ← os_malloc fuel 100 s;
  '(m, s2) ← os_malloc fuel (200 * 1024) s1;
  '(q, s3) ← os_malloc fuel 100 s2;
  s4 ← os_free p s3;
  s5 ← os_free q s4;
  '(r, s6) ← os_malloc fuel 200 s5;
  Some (r, s6).

(** [p = os_malloc(200 * 1024); q = os_realloc(p, 200 * 1024);] *)
Definition realloc_mapped_same_size (fuel : nat) (s : state) : option (Z * Z * state) :=
  '(p, s1) ← os_malloc fuel (200 * 1024) s;
  '(q, s2) ← os_realloc fuel p (200 * 1024) s1;
  Some (p, q, s2).

(** [p = os_malloc(100); os_realloc(p, 100); m = os_malloc(200 * 1024);
    os_free(p); q = os_malloc(50); os_free(m);] *)
Definition free_mapped_after_merge (fuel : nat) (s : state) : option (Z * state) :=
  '(p, s1) ← os_malloc fuel 100 s;
  '(_, s2) ← os_realloc fuel p 100 s1;
  '(m, s3) ← os_malloc fuel (200 * 1024) s2;
  s4 ← os_free p s3;
  '(_, s5) ← os_malloc fuel 50 s4;
  s6 ← os_free m s5;
  Some (m, s6).

(** [p = os_malloc(100); q = os_realloc(p, 128 * 1024);] *)
Definition grow_last_block (fuel : nat) (s : state) : option (Z * Z * state) :=
  '(p, s1) ← os_malloc fuel 100 s;
  '(q, s2) ← os_realloc fuel p (128 * 1024) s1;
  Some (p, q, s2).

(** [a] is met on the walk from [p] along [next]. *)
Fixpoint reaches (fuel : nat) (m : memory) (p a : Z) : bool :=
  match fuel with
  | O => false
  | S fuel' =>
      if decide (p = 0) then false
      else if decide (p = a) then true
      else match m !! p with
           | Some b => reaches fuel' m (next b) a
           | None => false
           end
  end.

(** The block at [b] starts where the block at [a] ends. *)
Definition adjacent_in_memory (m : memory) (a b : Z) : Prop :=
  ∃ ba, m !! a = Some ba ∧ b = a + META + size ba.

(** The state after [p = os_malloc(100); os_realloc(p, 100); os_free(p);]:
    the first region cut in two free blocks that touch. *)
Definition two_free_blocks : state :=
  State (<[4096136 := BlockMeta 130904 STATUS_FREE 4096000 0]>
           (<[4096000 := BlockMeta 104 STATUS_FREE 0 4096136]> ∅))
        4096000 1 0 0 4227072 8192000 4096 [SBRK 131072].

(** The state after [p = os_malloc(100); os_realloc(p, 100);
    m = os_malloc(200 * 1024); q = os_malloc(1000); b = os_malloc(130000);
    os_free(m); os_free(q); os_free(b);] on [boot].  Unlinking the mapped
    block through its stale [prev] dropped the free block at [4097168] from
    the registry: the blocks of [q] and [b] are free neighbours in the
    registry that do not touch in memory. *)
Definition free_apart : state :=
  State (<[4227072 := BlockMeta 130000 STATUS_FREE 4096136 0]>
           (<[4097168 := BlockMeta 129872 STATUS_FREE 4096136 8192000]>
              (<[4096136 := BlockMeta 1000 STATUS_FREE 4096000 4227072]>
                 (<[4096000 := BlockMeta 104 STATUS_ALLOC 0 4096136]> ∅))))
        4096000 1 0 0 4357104 8400896 4096
        [SBRK 131072; MMAP 204832; SBRK 130032; MUNMAP 8192000 204832].

(** A registry of three free blocks of sizes 200, 120 and 120. *)
Definition three_free_blocks : memory :=
  <[3000 := BlockMeta 120 STATUS_FREE 2000 0]>
    (<[2000 := BlockMeta 120 STATUS_FREE 1000 3000]>
       (<[1000 := BlockMeta 200 STATUS_FREE 0 2000]> ∅)).

(** The state after [os_malloc(100)] on [boot]: the whole first region is
    one block in use. *)
Definition slab_in_use : state :=
  State (<[4096000 := BlockMeta 131040 STATUS_ALLOC 0 0]> ∅)
        4096000 1 0 0 4227072 8192000 4096 [SBRK 131072].

(** The header of that block. *)
Definition slab_header : block_meta := BlockMeta 131040 STATUS_ALLOC 0 0.

(** The state after [p = os_malloc(100); os_realloc(p, 100);] on [boot]:
    a block of 104 bytes in use and the free rest of the region. *)
Definition shrunk_slab : state :=
  State (<[4096136 := BlockMeta 130904 STATUS_FREE 4096000 0]>
           (<[4096000 := BlockMeta 104 STATUS_ALLOC 0 4096136]> ∅))
        4096000 1 0 0 4227072 8192000 4096 [SBRK 131072].

(** The state after [os_malloc(100); m = os_malloc(200 * 1024);
    os_malloc(100);] on [boot]: the mapped block stands between two arena
    blocks in the registry. *)
Definition mapped_between : state :=
  State (<[4227072 := BlockMeta 104 STATUS_ALLOC 8192000 0]>
           (<[8192000 := BlockMeta 204832 STATUS_MAPPED 4096000 4227072]>
              (<[4096000 := BlockMeta 131040 STATUS_ALLOC 0 8192000]> ∅)))
        4096000 1 0 0 4227208 8400896 4096
        [SBRK 131072; MMAP 204832; SBRK 136].

(** The state after [p = os_malloc(100); os_realloc(p, 100);
    os_malloc(130904);] on [boot]: the two blocks of the first region, both
    in use. *)
Definition packed_slab : state :=
  State (<[4096136 := BlockMeta 130904 STATUS_ALLOC 4096000 0]>
           (<[4096000 := BlockMeta 104 STATUS_ALLOC 0 4096136]> ∅))
        4096000 1 0 0 4227072 8192000 4096 [SBRK 131072].

(** ** Runs without a free in between *)




(** ** The bytes of the registry *)

(** The bytes that the blocks of a list stand for, headers included. *)
Fixpoint registry_bytes (m : memory) (l : list Z) : Z :=
  match l with
  | [] => 0
  | a :: l' =>
      match m !! a with
      | Some b => META + size b
      | None => 0
      end + registry_bytes m l'
  end.

(** * Properties *)

(** ** Arithmetic *)

Lemma META_eq : META = 32.
Proof. reflexivity. Qed.

Lemma ALIGN_nonneg (sz : Z) : 0 ≤ ALIGN sz.
Proof.
  unfold ALIGN. apply Z.land_nonneg. left. unfold wrap.
  apply Z.mod_pos_bound. lia.
Qed.

Lemma wrap_small (z : Z) : 0 ≤ z < 2 ^ 64 → wrap z = z.
Proof. intros. unfold wrap. by apply Z.mod_small. Qed.

(** ** Headers and memory *)

Lemma store_Some (f : block_meta → block_meta) (p : Z) (m : memory) (b : block_meta) :
  m !! p = Some b → store f p m = Some (<[p := f b]> m).
Proof. intros H. unfold store. by rewrite H. Qed.

Lemma store_inv (f : block_meta → block_meta) (p : Z) (m m' : memory) :
  store f p m = Some m' → ∃ b, m !! p = Some b ∧ m' = <[p := f b]> m.
Proof.
  unfold store. destruct (m !! p) as [b|]; simpl; [|done].
  intros [= <-]. eauto.
Qed.

(** Reading through a stack of writes. *)
Ltac map_lookup :=
  repeat first
    [ rewrite lookup_insert_eq
    | rewrite lookup_insert_ne by first [done | congruence | lia]
    | rewrite lookup_delete_eq
    | rewrite lookup_delete_ne by first [done | congruence | lia] ].

(** Laying out the four fields of a new header writes one whole record. *)
Lemma init_header (p n : Z) (st : block_status) (m : memory) :
  init (set_status st) p (init (set_size n) p
    (init (set_prev 0) p (init (set_next 0) p m)))
  = <[p := BlockMeta n st 0 0]> m.
Proof.
  unfold init. rewrite !lookup_insert_eq, !insert_insert_eq. done.
Qed.

(** ** Chains *)

Lemma chain_det (m : memory) (l1 : list Z) :
  ∀ p l2, chain m p l1 → chain m p l2 → l1 = l2.
Proof.
  induction l1 as [|a l1 IH]; intros p [|a2 l2]; simpl; try done.
  - intros -> (-> & Hn & _). done.
  - intros (-> & Hn & _) ->. done.
  - intros (-> & _ & b & Hb & Hc) (<- & _ & b2 & Hb2 & Hc2).
    rewrite Hb in Hb2. injection Hb2 as <-. f_equal. eauto.
Qed.

Lemma chain_suffix (m : memory) (l1 : list Z) :
  ∀ p a l2, chain m p (l1 ++ a :: l2) → chain m a (a :: l2).
Proof.
  induction l1 as [|x l1 IH]; intros p a l2 Hc.
  - destruct Hc as (-> & H). by split.
  - destruct Hc as (-> & _ & b & _ & Hc). exact (IH _ _ _ Hc).
Qed.

Lemma chain_NoDup (m : memory) (l : list Z) :
  ∀ p, chain m p l → NoDup l.
Proof.
  induction l as [|a l IH]; intros p Hc; [constructor|].
  pose proof Hc as (-> & Hn & b & Hb & Hc').
  constructor; [|eauto].
  intros Hin. apply list_elem_of_split in Hin as (l1 & l2 & ->).
  pose proof (chain_suffix _ _ _ _ _ Hc') as Hs.
  pose proof (chain_det _ _ _ _ Hs Hc) as Heq.
  apply (f_equal length) in Heq. simpl in Heq. rewrite length_app in Heq.
  simpl in Heq. lia.
Qed.

Lemma chain_lookup (m : memory) (l : list Z) :
  ∀ p a, chain m p l → a ∈ l → a ≠ 0 ∧ is_Some (m !! a).
Proof.
  induction l as [|x l IH]; simpl; intros p a Hc Hin.
  - by apply elem_of_nil in Hin.
  - destruct Hc as (-> & Hn & b & Hb & Hc).
    apply elem_of_cons in Hin as [->|Hin]; eauto.
Qed.

(** A chain only depends on the [next] fields of its own headers. *)
Lemma chain_ext (m m' : memory) (l : list Z) :
  ∀ p, (∀ a, a ∈ l → next <$> m' !! a = next <$> m !! a) →
       chain m p l → chain m' p l.
Proof.
  induction l as [|x l IH]; simpl; intros p Hext Hc; [done|].
  destruct Hc as (-> & Hn & b & Hb & Hc).
  split; [done|]. split; [done|].
  pose proof (Hext x ltac:(left)) as Hx. rewrite Hb in Hx. simpl in Hx.
  destruct (m' !! x) as [b'|] eqn:Hb'; simpl in Hx; [|done].
  injection Hx as Hx. exists b'. split; [done|]. rewrite Hx.
  apply IH; [|done]. intros a Ha. apply Hext. by right.
Qed.

Lemma chain_insert_ne (m : memory) (l : list Z) (p a : Z) (x : block_meta) :
  a ∉ l → chain m p l → chain (<[a := x]> m) p l.
Proof.
  intros Hnotin. apply chain_ext. intros c Hc.
  rewrite lookup_insert_ne; [done|]. intros ->. done.
Qed.

Lemma chain_insert_next (m : memory) (l : list Z) (p a : Z) (b x : block_meta) :
  m !! a = Some b → next x = next b →
  chain m p l → chain (<[a := x]> m) p l.
Proof.
  intros Hb Hx. apply chain_ext. intros c Hc.
  destruct (decide (a = c)) as [->|Hne].
  - rewrite lookup_insert_eq, Hb. simpl. by rewrite Hx.
  - by rewrite lookup_insert_ne.
Qed.

Lemma registry_chain (fuel : nat) (m : memory) :
  ∀ p l, registry fuel m p = Some l → chain m p l.
Proof.
  induction fuel as [|fuel IH]; simpl; intros p l; [done|].
  destruct (decide (p = 0)) as [->|Hn].
  - by intros [= <-].
  - destruct (m !! p) as [b|] eqn:Hb; simpl; [|done].
    destruct (registry fuel m (next b)) as [l'|] eqn:Hr; simpl; [|done].
    intros [= <-]. simpl. eauto 10.
Qed.

Lemma chain_registry (m : memory) (l : list Z) :
  ∀ fuel p, chain m p l → (length l < fuel)%nat → registry fuel m p = Some l.
Proof.
  induction l as [|x l IH]; simpl; intros [|fuel] p Hc Hf; try lia.
  - subst. simpl. done.
  - destruct Hc as (-> & Hn & b & Hb & Hc). simpl.
    rewrite decide_False by done. rewrite Hb. simpl.
    rewrite (IH fuel _ Hc) by lia. done.
Qed.

(** ** The walk to the last block *)

Lemma lastBlock_chain (m : memory) (l : list Z) :
  ∀ fuel p z, chain m p l → last l = Some z → (length l ≤ fuel)%nat →
    lastBlock fuel m p = Some z.
Proof.
  induction l as [|x l IH]; simpl; intros fuel p z Hc Hz Hf; [done|].
  destruct Hc as (-> & Hn & b & Hb & Hc).
  destruct fuel as [|fuel]; [lia|]. simpl. rewrite Hb. simpl.
  destruct l as [|y l].
  - simpl in Hc. rewrite decide_True by done. by injection Hz as <-.
  - pose proof Hc as (Hy & Hyn & _). rewrite decide_False by lia.
    apply IH; [done| |simpl in *; lia]. done.
Qed.

(** ** Appending to the registry *)

Lemma chain_snoc (m : memory) (l : list Z) (a : Z) (ba : block_meta) :
  ∀ p z bz, chain m p l → last l = Some z → m !! z = Some bz →
    a ∉ l → a ≠ 0 → next ba = 0 →
    chain (<[a := ba]> (<[z := set_next a bz]> m)) p (l ++ [a]).
Proof.
  induction l as [|x l IH]; intros p z bz Hc Hz Hbz Ha Ha0 Hba; [done|].
  pose proof (chain_NoDup _ _ _ Hc) as Hnd.
  destruct Hc as (-> & Hn & b & Hb & Hc).
  apply not_elem_of_cons in Ha as [Hax Hal].
  apply NoDup_cons in Hnd as [Hxl _].
  destruct l as [|y l].
  - injection Hz as <-. rewrite Hb in Hbz. injection Hbz as <-.
    simpl. split; [done|]. split; [done|].
    exists (set_next a b). rewrite lookup_insert_ne, lookup_insert_eq by done.
    split; [done|]. simpl. split; [done|]. split; [done|].
    exists ba. by rewrite lookup_insert_eq.
  - assert (z ∈ y :: l) as Hzin.
    { apply list_elem_of_lookup. exists (length l).
      rewrite last_lookup in Hz. done. }
    assert (x ≠ z) by (intros ->; done).
    change ((x :: y :: l) ++ [a]) with (x :: ((y :: l) ++ [a])).
    split; [done|]. split; [done|]. exists b.
    rewrite !lookup_insert_ne by done. split; [done|].
    apply IH; done.
Qed.

Lemma insertInList_empty (fuel : nat) (memBlock : Z) (m : memory) (b : block_meta) :
  m !! memBlock = Some b →
  insertInList fuel 0 memBlock m
  = Some (memBlock, <[memBlock := set_next 0 (set_prev 0 b)]> m).
Proof.
  intros Hb. unfold insertInList. rewrite decide_True by done.
  rewrite (store_Some _ _ _ _ Hb). simpl.
  erewrite store_Some by apply lookup_insert_eq. simpl.
  by rewrite insert_insert_eq.
Qed.

Lemma insertInList_tail (fuel : nat) (hd memBlock : Z) (m : memory) (l : list Z)
    (z : Z) (bz b : block_meta) :
  chain m hd l → last l = Some z → m !! z = Some bz →
  m !! memBlock = Some b → memBlock ≠ z → (length l ≤ fuel)%nat →
  insertInList fuel hd memBlock m
  = Some (hd, <[memBlock := set_prev z b]> (<[z := set_next memBlock bz]> m)).
Proof.
  intros Hc Hz Hbz Hb Hne Hf. unfold insertInList.
  destruct l as [|x l]; [done|]. pose proof Hc as (-> & Hn & _).
  rewrite decide_False by done.
  rewrite (lastBlock_chain _ _ _ _ _ Hc Hz Hf). simpl.
  rewrite (store_Some _ _ _ _ Hbz). simpl.
  erewrite store_Some by (rewrite lookup_insert_ne by done; apply Hb).
  done.
Qed.

(** ** [allocateSbrk] *)

Lemma allocateSbrk_spec (fuel : nat) (n : Z) (s : state) (l : list Z) :
  chain (mem s) (head s) l → brk s ∉ l → (length l ≤ fuel)%nat →
  allocateSbrk fuel n s
  = Some (brk s,
          State (appended (mem s) l (brk s)
                   (BlockMeta (wrap (n - META)) STATUS_ALLOC 0 0))
                (if decide (head s = 0) then brk s else head s)
                (preallocHeap s) (callocType s) (reallocType s)
                (brk s + to_signed n) (mmap_next s) (pagesize s)
                (trace s ++ [SBRK n])).
Proof.
  intros Hc Hfresh Hf. unfold allocateSbrk, sbrk. cbv zeta. simpl mem. simpl head.
  rewrite init_header. unfold appended.
  destruct (last l) as [z|] eqn:Hz.
  - assert (z ∈ l) as Hzin.
    { rewrite last_lookup in Hz. apply list_elem_of_lookup. eauto. }
    destruct (chain_lookup _ _ _ _ Hc Hzin) as [Hz0 [bz Hbz]].
    assert (brk s ≠ z) as Hne by (intros Heq; rewrite Heq in Hfresh; done).
    assert (head s ≠ 0) as Hh.
    { destruct l as [|x l']; [done|]. by destruct Hc as (-> & ? & _). }
    erewrite insertInList_tail; eauto.
    2:{ eapply chain_insert_ne; eauto. }
    2:{ rewrite lookup_insert_ne by done. done. }
    2:{ apply lookup_insert_eq. }
    simpl. rewrite decide_False by done. do 3 f_equal.
    unfold with_head, with_mem. simpl. f_equal.
    apply map_eq. intros i.
    destruct (decide (i = brk s)) as [->|Hi].
    + by rewrite !lookup_insert_eq.
    + rewrite !(lookup_insert_ne _ (brk s)) by done.
      destruct (decide (i = z)) as [->|Hiz].
      * rewrite lookup_insert_eq, lookup_alter_eq. by rewrite Hbz.
      * rewrite lookup_insert_ne, lookup_alter_ne, lookup_insert_ne by done. done.
  - apply last_None in Hz. subst l. simpl in Hc. rewrite Hc.
    erewrite insertInList_empty by apply lookup_insert_eq.
    simpl. rewrite insert_insert_eq. done.
Qed.

Lemma appended_lookup_new (m : memory) (l : list Z) (a n : Z) (st : block_status) :
  appended m l a (BlockMeta n st 0 0) !! a
  = Some (BlockMeta n st (default 0 (last l)) 0).
Proof.
  unfold appended. destruct (last l); by rewrite lookup_insert_eq.
Qed.

Lemma appended_lookup_old (m : memory) (l : list Z) (a x : Z) (b : block_meta) :
  x ≠ a →
  appended m l a b !! x
  = (if decide (last l = Some x) then set_next a <$> m !! x else m !! x).
Proof.
  intros Hne. unfold appended. destruct (last l) as [z|].
  - rewrite lookup_insert_ne by done. destruct (decide (z = x)) as [->|Hz].
    + by rewrite lookup_alter_eq, decide_True.
    + rewrite lookup_alter_ne by done. rewrite decide_False; [done|congruence].
  - rewrite lookup_insert_ne by done. by rewrite decide_False.
Qed.

Lemma chain_appended (m : memory) (l : list Z) (p a : Z) (b : block_meta) :
  chain m p l → a ∉ l → a ≠ 0 → next b = 0 →
  chain (appended m l a b) (if decide (p = 0) then a else p) (l ++ [a]).
Proof.
  intros Hc Ha Ha0 Hb. unfold appended.
  destruct (last l) as [z|] eqn:Hz.
  - assert (z ∈ l) as Hzin.
    { rewrite last_lookup in Hz. apply list_elem_of_lookup. eauto. }
    destruct (chain_lookup _ _ _ _ Hc Hzin) as [Hz0 [bz Hbz]].
    assert (p ≠ 0) as Hp.
    { destruct l as [|x l']; [done|]. by destruct Hc as (-> & ? & _). }
    rewrite decide_False by done.
    replace (alter (set_next a) z m) with (<[z := set_next a bz]> m).
    + by apply chain_snoc.
    + apply map_eq. intros i. destruct (decide (i = z)) as [->|Hi].
      * by rewrite lookup_insert_eq, lookup_alter_eq, Hbz.
      * by rewrite lookup_insert_ne, lookup_alter_ne.
  - apply last_None in Hz. subst l. simpl in Hc. subst p.
    rewrite decide_True by done. simpl. split; [done|]. split; [done|].
    exists b. by rewrite lookup_insert_eq.
Qed.

(** ** [os_malloc]: which allocator serves a request *)

Lemma os_malloc_arena (fuel : nat) (sz : Z) (s : state) :
  0 < sz → callocType s = 0 → wrap (ALIGN sz + META) < MMAP_THRESHOLD →
  os_malloc fuel sz s
  = '(memBlock, s1) ← arenaAlloc fuel (wrap (ALIGN sz + META)) s;
    Some (memBlock + sizeof_block_meta, s1).
Proof.
  intros Hsz Hc Ht. unfold os_malloc.
  rewrite decide_False by lia. rewrite Hc.
  rewrite (decide_False (P := 0 = 1)) by done.
  rewrite decide_False by lia. done.
Qed.

Lemma os_malloc_mmap (fuel : nat) (sz : Z) (s : state) :
  0 < sz → callocType s = 0 → MMAP_THRESHOLD ≤ wrap (ALIGN sz + META) →
  os_malloc fuel sz s
  = '(memBlock, s1) ← allocateMmap fuel (wrap (ALIGN sz + META)) s;
    Some (memBlock + sizeof_block_meta, s1).
Proof.
  intros Hsz Hc Ht. unfold os_malloc.
  rewrite decide_False by lia. rewrite Hc.
  rewrite (decide_False (P := 0 = 1)) by done.
  rewrite decide_True by lia. done.
Qed.

(** C2: the first request that the arena serves makes one [sbrk] call of
    [MMAP_THRESHOLD] (128 KiB) bytes, whatever size was asked for, and the
    caller gets the whole region as one [STATUS_ALLOC] block of size
    [MMAP_THRESHOLD - META], appended to the registry. *)
Theorem first_arena_malloc_takes_whole_slab
    (fuel : nat) (sz : Z) (s : state) (l : list Z) :
  preallocHeap s = 0 → callocType s = 0 →
  0 < sz → wrap (ALIGN sz + META) < MMAP_THRESHOLD →
  chain (mem s) (head s) l → brk s ∉ l → 0 < brk s → (length l ≤ fuel)%nat →
  ∃ s', os_malloc fuel sz s = Some (brk s + META, s')
      ∧ trace s' = trace s ++ [SBRK (128 * 1024)]
      ∧ mem s' !! brk s
        = Some (BlockMeta (128 * 1024 - META) STATUS_ALLOC (default 0 (last l)) 0)
      ∧ chain (mem s') (head s') (l ++ [brk s])
      ∧ preallocHeap s' = 1.
Proof.
  intros Hpre Hcal Hsz Htot Hc Hfresh Hbrk Hf.
  rewrite os_malloc_arena by done. unfold arenaAlloc.
  rewrite decide_True by done.
  erewrite allocateSbrk_spec by eauto. simpl.
  eexists. split; [reflexivity|]. simpl.
  split; [done|]. split; [apply appended_lookup_new|].
  split; [|done]. apply chain_appended; [done|done|lia|done].
Qed.

Lemma first_arena_malloc_takes_whole_slab_witness :
  ∃ s', os_malloc 1 100 (fresh 4096000 8192000 4096) = Some (4096000 + META, s')
      ∧ trace s' = [SBRK (128 * 1024)]
      ∧ mem s' !! 4096000 = Some (BlockMeta (128 * 1024 - META) STATUS_ALLOC 0 0)
      ∧ chain (mem s') (head s') [4096000]
      ∧ preallocHeap s' = 1.
Proof.
  apply (first_arena_malloc_takes_whole_slab 1 100 (fresh 4096000 8192000 4096) []);
    simpl; try reflexivity; try lia.
  apply not_elem_of_nil.
Defined.

(** ** [searchAndSplit] *)

Lemma searchAndSplit_loop_spec (m : memory) (req : Z) (l2 : list Z) :
  ∀ fuel p l1 best,
    chain m p l2 → (length l2 < fuel)%nat →
    (best = 0 ∧ ∀ x, x ∈ l1 → ¬ fits m req x)
    ∨ (best ≠ 0 ∧ is_best_fit m req l1 best) →
    ∃ r, searchAndSplit_loop fuel m req p best = Some r
       ∧ ((r = 0 ∧ ∀ x, x ∈ l1 ++ l2 → ¬ fits m req x)
          ∨ (r ≠ 0 ∧ is_best_fit m req (l1 ++ l2) r)).
Proof.
  induction l2 as [|x l2 IH]; intros fuel p l1 best Hc Hf Hinv;
    (destruct fuel as [|fuel]; [simpl in Hf; lia|]); simpl.
  - simpl in Hc. rewrite decide_True by done.
    exists best. split; [done|]. by rewrite app_nil_r.
  - destruct Hc as (-> & Hx0 & t & Ht & Hc).
    rewrite decide_False by done. rewrite Ht. simpl.
    replace (l1 ++ x :: l2) with ((l1 ++ [x]) ++ l2)
      by (by rewrite <- app_assoc).
    destruct (decide (req ≤ size t ∧ status t = STATUS_FREE)) as [[Hreq Hst]|Hnofit].
    + destruct Hinv as [[-> Hnone]|[Hb0 Hbest]].
      * rewrite decide_True by done. simpl.
        apply IH; [done|simpl in Hf; lia|]. right. split; [done|].
        exists l1, [], t. repeat split; try done.
        -- intros y by' Hy Hby Hsty Hreqy. exfalso.
           apply (Hnone y Hy). exists by'. done.
        -- intros y by' Hy. by apply elem_of_nil in Hy.
      * rewrite decide_False by done.
        destruct Hbest as (la & lb & bc & -> & Hbc & Hstc & Hreqc & Hbefore & Hafter).
        rewrite Hbc. simpl.
        destruct (decide (size t < size bc)) as [Hlt|Hge].
        -- apply IH; [done|simpl in Hf; lia|]. right. split; [done|].
           exists (la ++ best :: lb), [], t. repeat split; try done.
           ++ intros y by' Hy Hby Hsty Hreqy.
              apply elem_of_app in Hy as [Hy|Hy].
              ** pose proof (Hbefore y by' Hy Hby Hsty Hreqy). lia.
              ** apply elem_of_cons in Hy as [->|Hy].
                 --- rewrite Hbc in Hby. injection Hby as <-. done.
                 --- pose proof (Hafter y by' Hy Hby Hsty Hreqy). lia.
           ++ intros y by' Hy. by apply elem_of_nil in Hy.
        -- apply IH; [done|simpl in Hf; lia|]. right. split; [done|].
           exists la, (lb ++ [x]), bc. repeat split; try done.
           ++ by rewrite <- app_assoc.
           ++ intros y by' Hy Hby Hsty Hreqy.
              apply elem_of_app in Hy as [Hy|Hy]; [eauto|].
              apply list_elem_of_singleton in Hy as ->.
              rewrite Ht in Hby. injection Hby as <-. lia.
    + simpl. apply IH; [done|simpl in Hf; lia|].
      destruct Hinv as [[-> Hnone]|[Hb0 Hbest]].
      * left. split; [done|]. intros y Hy.
        apply elem_of_app in Hy as [Hy|Hy]; [by apply Hnone|].
        apply list_elem_of_singleton in Hy as ->.
        intros (b' & Hb' & Hst' & Hreq'). rewrite Ht in Hb'.
        injection Hb' as <-. tauto.
      * right. split; [done|].
        destruct Hbest as (la & lb & bc & -> & Hbc & Hstc & Hreqc & Hbefore & Hafter).
        exists la, (lb ++ [x]), bc. repeat split; try done.
        -- by rewrite <- app_assoc.
        -- intros y by' Hy Hby Hsty Hreqy.
           apply elem_of_app in Hy as [Hy|Hy]; [eauto|].
           apply list_elem_of_singleton in Hy as ->.
           rewrite Ht in Hby. injection Hby as <-. tauto.
Qed.

Lemma ALIGN_1 : ALIGN 1 = 8.
Proof. reflexivity. Qed.

(** The seven assignments of the split leave exactly [split_at]. *)
Lemma split_writes (m : memory) (c sz : Z) (bc : block_meta) :
  m !! c = Some bc → sz ≠ 0 →
  let m1 := <[c := set_status STATUS_ALLOC bc]> m in
  let newBlock := c + sz in
  let m3 := init (set_status STATUS_FREE) newBlock
              (init (set_size (size bc - sz)) newBlock m1) in
  let m4 := <[c := set_size (sz - META) (set_status STATUS_ALLOC bc)]> m3 in
  let m5 := init (set_next (next bc)) newBlock m4 in
  let m6 := <[c := set_next newBlock
                     (set_size (sz - META) (set_status STATUS_ALLOC bc))]> m5 in
  init (set_prev c) newBlock m6 = split_at m c sz bc.
Proof.
  intros Hbc Hsz. cbv zeta. unfold init, split_at.
  assert (c + sz ≠ c) as Hne by lia.
  assert (c ≠ c + sz) as Hne' by lia.
  apply map_eq. intros i.
  destruct (decide (i = c + sz)) as [->|Hi];
    [|destruct (decide (i = c)) as [->|Hic]]; map_lookup; done.
Qed.

Lemma chain_splice (m : memory) (c n : Z) (bc' bn : block_meta) (l1 : list Z) :
  ∀ p l2 bc, chain m p (l1 ++ c :: l2) → m !! c = Some bc →
    n ∉ l1 ++ c :: l2 → n ≠ 0 → next bc' = n → next bn = next bc →
    chain (<[n := bn]> (<[c := bc']> m)) p (l1 ++ c :: n :: l2).
Proof.
  induction l1 as [|x l1 IH]; intros p l2 bc Hc Hbc Hn Hn0 Hbc' Hbn;
    pose proof (chain_NoDup _ _ _ Hc) as Hnd.
  - simpl in *. destruct Hc as (-> & Hc0 & b & Hb & Hc).
    rewrite Hbc in Hb. injection Hb as <-.
    apply not_elem_of_cons in Hn as [Hnc Hnl].
    apply NoDup_cons in Hnd as [Hcl _].
    split; [done|]. split; [done|]. exists bc'. map_lookup.
    split; [done|]. rewrite Hbc'. split; [done|]. split; [done|].
    exists bn. map_lookup. split; [done|]. rewrite Hbn.
    apply chain_insert_ne; [done|]. apply chain_insert_ne; done.
  - simpl in *. destruct Hc as (-> & Hx0 & b & Hb & Hc).
    apply not_elem_of_cons in Hn as [Hnx Hnl].
    apply NoDup_cons in Hnd as [Hxl _].
    assert (x ≠ c) by (intros ->; apply Hxl; apply elem_of_app; right; left).
    split; [done|]. split; [done|]. exists b. map_lookup.
    split; [done|]. eapply IH; eauto.
Qed.

(** What [searchAndSplit] returns and writes, for a registry that is a
    chain and a total that includes the header. *)
Lemma searchAndSplit_spec
    (fuel : nat) (hd total : Z) (m : memory) (l : list Z) :
  chain m hd l → (length l < fuel)%nat →
  META ≤ total → ALIGN 1 + total < 2 ^ 64 →
  (∀ x bx, x ∈ l → m !! x = Some bx → 0 ≤ size bx < 2 ^ 64) →
  ∃ chosen m', searchAndSplit fuel hd total m = Some (chosen, m') ∧
    ((chosen = 0 ∧ m' = m ∧ ∀ x, x ∈ l → ¬ fits m (total - META) x)
     ∨ (∃ bc, is_best_fit m (total - META) l chosen ∧ m !! chosen = Some bc ∧
          if decide (ALIGN 1 + total ≤ size bc) then
            m' = split_at m chosen total bc ∧
            (chosen + total ∉ l → chosen + total ≠ 0 →
             ∀ l1 l2, l = l1 ++ chosen :: l2 →
               chain m' hd (l1 ++ chosen :: (chosen + total) :: l2))
          else
            m' = <[chosen := set_status STATUS_ALLOC bc]> m ∧ chain m' hd l)).
Proof.
  intros Hc Hf Htot Hmax Hsizes. unfold searchAndSplit.
  pose proof META_eq as HM. pose proof ALIGN_1 as HA.
  assert (wrap (total - META) = total - META) as Hreq.
  { apply wrap_small. lia. }
  rewrite Hreq.
  destruct (searchAndSplit_loop_spec m (total - META) l fuel hd [] 0 Hc Hf)
    as (r & Hr & Hres).
  { left. split; [done|]. intros x Hx. by apply elem_of_nil in Hx. }
  change ([] ++ l) with l in Hres.
  rewrite Hr. simpl. destruct Hres as [[-> Hnone]|[Hr0 Hbest]].
  - rewrite decide_False by (intros H; by apply H).
    exists 0, m. split; [done|]. left. done.
  - rewrite decide_True by done.
    pose proof Hbest as (l1 & l2 & bc & Hl & Hbc & Hst & Hge & _).
    assert (r ∈ l) as Hrin.
    { rewrite Hl. apply elem_of_app. right. left. }
    pose proof (Hsizes r bc Hrin Hbc) as Hrange.
    rewrite (store_Some _ _ _ _ Hbc). simpl. map_lookup. simpl.
    rewrite (wrap_small (ALIGN 1 + total)) by lia.
    destruct (decide (ALIGN 1 + total ≤ size bc)) as [Hsplit|Hno].
    + assert (wrap (size bc - total) = size bc - total) as Hrest.
      { apply wrap_small. lia. }
      assert (r + total ≠ r) as Hne by lia.
      rewrite Hrest.
      erewrite store_Some by (unfold init; map_lookup; reflexivity). simpl.
      map_lookup. simpl.
      erewrite store_Some by (unfold init; map_lookup; reflexivity). simpl.
      rewrite split_writes by (done || lia).
      eexists r, _. split; [reflexivity|]. right. exists bc.
      split; [done|]. split; [done|]. rewrite decide_True by done.
      split; [done|]. intros Hfresh Hn0 l1' l2' Hl'. subst l.
      rewrite Hl' in Hc, Hfresh. unfold split_at.
      eapply chain_splice; eauto.
    + eexists r, _. split; [reflexivity|]. right. exists bc.
      split; [done|]. split; [done|]. rewrite decide_False by done.
      split; [done|]. eapply chain_insert_next; eauto.
Qed.



Example searchAndSplit_three_free_blocks :
  searchAndSplit 4 1000 88 three_free_blocks
  = Some (2000, split_at three_free_blocks 2000 88 (BlockMeta 120 STATUS_FREE 1000 3000)).
Proof. vm_compute. reflexivity. Qed.

(** ** The reuse pipeline when nothing is free *)

Lemma mergeFreeBlocks_loop_noop (m : memory) (l : list Z) :
  ∀ fuel p, chain m p l → l ≠ [] → no_adjacent_free m l →
    (length l ≤ fuel)%nat → mergeFreeBlocks_loop fuel p m = Some m.
Proof.
  induction l as [|x l IH]; intros fuel p Hc Hne Hnaf Hf; [done|].
  destruct fuel as [|fuel]; [simpl in Hf; lia|].
  destruct Hc as (-> & Hx0 & t & Ht & Hc). simpl. rewrite Ht. simpl.
  destruct l as [|y l].
  - simpl in Hc. rewrite decide_False by (intros [? _]; done). done.
  - pose proof Hc as (Hy & Hy0 & n & Hn & _).
    rewrite decide_True by (split; [congruence|done]).
    destruct Hnaf as [Hpair Hnaf]. rewrite Hy, Hn. simpl.
    assert (mergeFreeBlocks_loop fuel y m = Some m) as Hrec.
    { rewrite Hy in Hc. apply IH; [done|done|done|simpl in Hf |- *; lia]. }
    destruct (decide (status t = STATUS_FREE)) as [Hst|Hst]; [|done].
    destruct (decide (status n = STATUS_FREE)) as [Hsn|Hsn]; [|done].
    exfalso. apply Hpair. split; eexists; eauto.
Qed.

Lemma no_free_no_adjacent_free (m : memory) (l : list Z) :
  (∀ x, x ∈ l → ¬ has_status m STATUS_FREE x) → no_adjacent_free m l.
Proof.
  induction l as [|x [|y l] IH]; intros Hno; try done.
  split.
  - intros [Hx _]. apply (Hno x); [left|done].
  - apply IH. intros z Hz. apply Hno. by right.
Qed.

Lemma searchAndSplit_none (fuel : nat) (hd sz : Z) (m : memory) (l : list Z) :
  chain m hd l → (length l < fuel)%nat →
  (∀ x, x ∈ l → ¬ fits m (wrap (sz - META)) x) →
  searchAndSplit fuel hd sz m = Some (0, m).
Proof.
  intros Hc Hf Hnone. unfold searchAndSplit.
  destruct (searchAndSplit_loop_spec m (wrap (sz - META)) l fuel hd [] 0 Hc Hf)
    as (r & Hr & Hres).
  { left. split; [done|]. intros x Hx. by apply elem_of_nil in Hx. }
  change ([] ++ l) with l in Hres. rewrite Hr. simpl.
  destruct Hres as [[-> _]|[_ Hbest]].
  - by rewrite decide_False by (intros H; by apply H).
  - destruct Hbest as (l1 & l2 & bc & -> & Hbc & Hst & Hge & _).
    exfalso. apply (Hnone r); [apply elem_of_app; right; left|].
    exists bc. done.
Qed.

Lemma extendHeap_last_not_free (fuel : nat) (hd sz z : Z) (s : state) (l : list Z) :
  chain (mem s) hd l → last l = Some z →
  ¬ has_status (mem s) STATUS_FREE z → (length l ≤ fuel)%nat →
  extendHeap fuel hd sz 0 s = Some (0, s).
Proof.
  intros Hc Hz Hnf Hf. unfold extendHeap.
  destruct l as [|x l]; [done|].
  pose proof Hc as (-> & Hx0 & t & Ht & _). rewrite Ht. simpl.
  rewrite (lastBlock_chain _ _ _ _ _ Hc Hz Hf). simpl.
  assert (z ∈ x :: l) as Hzin.
  { rewrite last_lookup in Hz. apply list_elem_of_lookup. eauto. }
  destruct (chain_lookup _ _ _ _ Hc Hzin) as [_ [bz Hbz]].
  rewrite Hbz. simpl. rewrite decide_False; [done|].
  intros Hst. apply Hnf. exists bz. done.
Qed.

Lemma tryAll_nothing_free (fuel : nat) (sz : Z) (s : state) (l : list Z) :
  chain (mem s) (head s) l → l ≠ [] →
  (∀ x, x ∈ l → ¬ has_status (mem s) STATUS_FREE x) →
  (length l < fuel)%nat →
  tryAll fuel (head s) sz s = Some (0, s).
Proof.
  intros Hc Hne Hno Hf. unfold tryAll, mergeFreeBlocks.
  assert (head s ≠ 0) as Hh.
  { destruct l as [|x l]; [done|]. by destruct Hc as (-> & ? & _). }
  rewrite decide_False by done.
  rewrite (decide_False (P := 0 = 1)) by done. simpl.
  rewrite (mergeFreeBlocks_loop_noop _ l); [|done|done| |lia].
  2:{ by apply no_free_no_adjacent_free. }
  simpl. rewrite (searchAndSplit_none _ _ _ _ l); [|done|done|].
  2:{ intros x Hx (b & Hb & Hst & _). apply (Hno x Hx). exists b. done. }
  simpl.
  destruct (last l) as [z|] eqn:Hz.
  2:{ apply last_None in Hz. done. }
  assert (with_mem (mem s) s = s) as -> by (by destruct s).
  eapply extendHeap_last_not_free; eauto; [|lia].
  apply Hno. rewrite last_lookup in Hz. apply list_elem_of_lookup. eauto.
Qed.

(** With the arena in use and no free block in the registry, a request
    below the threshold is served by a new [sbrk] of exactly its total. *)
Lemma os_malloc_nothing_free (fuel : nat) (sz : Z) (s : state) (l : list Z) :
  preallocHeap s ≠ 0 → callocType s = 0 →
  0 < sz → wrap (ALIGN sz + META) < MMAP_THRESHOLD →
  chain (mem s) (head s) l → l ≠ [] →
  (∀ x, x ∈ l → ¬ has_status (mem s) STATUS_FREE x) →
  brk s ∉ l → (length l < fuel)%nat →
  ∃ s', os_malloc fuel sz s = Some (brk s + META, s')
      ∧ trace s' = trace s ++ [SBRK (wrap (ALIGN sz + META))].
Proof.
  intros Hpre Hcal Hsz Htot Hc Hne Hno Hfresh Hf.
  rewrite os_malloc_arena by done. unfold arenaAlloc.
  rewrite decide_False by done.
  rewrite (tryAll_nothing_free _ _ _ l) by done. simpl.
  erewrite (allocateSbrk_spec _ _ _ l) by (done || lia). simpl.
  eexists. split; [reflexivity|]. done.
Qed.

(** C1, as stated, fails: the second [os_malloc(100)] of a fresh process
    calls [sbrk] again, and its block does not lie inside the first
    region. *)
Lemma second_malloc_calls_sbrk_again :
  ∃ p q s2, malloc_twice 4 100 boot = Some (p, q, s2)
    ∧ sbrk_calls (trace s2) = [131072; 136]
    ∧ length (sbrk_calls (trace s2)) ≠ 1%nat
    ∧ q ≠ brk boot + META + ALIGN 100 + META.
Proof.
  eexists _, _, _. split; [vm_compute; reflexivity|].
  split; [reflexivity|]. split; [simpl; lia|]. vm_compute. discriminate.
Qed.

(** C1, amended: on a fresh process two successive [os_malloc(100)] make
    two [sbrk] calls, the first of [MMAP_THRESHOLD] bytes and the second of
    [ALIGN 100 + META] bytes; the second block starts where the first
    region ends, so the second pointer is
    [base + MMAP_THRESHOLD + META]. *)
Theorem two_mallocs_two_sbrk (fuel : nat) (base mbase page : Z) :
  0 < base → (2 ≤ fuel)%nat →
  ∃ s2, malloc_twice fuel 100 (fresh base mbase page)
        = Some (base + META, base + MMAP_THRESHOLD + META, s2)
      ∧ sbrk_calls (trace s2) = [MMAP_THRESHOLD; ALIGN 100 + META].
Proof.
  intros Hbase Hf. unfold malloc_twice.
  rewrite os_malloc_arena by (simpl; done || lia). unfold arenaAlloc.
  rewrite decide_True by done.
  erewrite (allocateSbrk_spec _ _ _ []);
    [|done|apply not_elem_of_nil|simpl; lia].
  cbn -[appended MMAP_THRESHOLD META ALIGN wrap to_signed os_malloc].
  match goal with |- context [os_malloc fuel 100 ?s] => set (s1 := s) end.
  assert (to_signed MMAP_THRESHOLD = MMAP_THRESHOLD) as Hsig by reflexivity.
  assert (MMAP_THRESHOLD = 131072) as Hthr by reflexivity.
  assert (chain (mem s1) (head s1) [base]) as Hc1.
  { simpl. split; [done|]. split; [lia|]. eexists.
    split; [apply lookup_insert_eq|]. done. }
  assert (∀ x, x ∈ [base] → ¬ has_status (mem s1) STATUS_FREE x) as Hno.
  { intros x Hx (b & Hb & Hst). apply list_elem_of_singleton in Hx as ->.
    unfold s1, appended in Hb. simpl in Hb. rewrite lookup_insert_eq in Hb.
    injection Hb as <-. done. }
  assert (brk s1 ∉ [base]) as Hfresh.
  { simpl. intros Hin. apply list_elem_of_singleton in Hin. lia. }
  destruct (os_malloc_nothing_free fuel 100 s1 [base]) as (s2 & Hrun & Htr);
    try done; try (simpl; lia).
  rewrite Hrun. simpl. exists s2. split.
  - rewrite Hsig. done.
  - rewrite Htr. simpl. done.
Qed.

Lemma two_mallocs_two_sbrk_witness :
  ∃ s2, malloc_twice 2 100 boot
        = Some (4096000 + META, 4096000 + MMAP_THRESHOLD + META, s2)
      ∧ sbrk_calls (trace s2) = [MMAP_THRESHOLD; ALIGN 100 + META].
Proof.
  apply (two_mallocs_two_sbrk 2 4096000 8192000 4096); lia.
Defined.

(** ** Coalescing *)

Lemma absorbNext_spec (m : memory) (a y : Z) (t n : block_meta) :
  m !! a = Some t → next t = y → m !! y = Some n → a ≠ y →
  absorbNext a m
  = Some (<[a := BlockMeta (wrap (size t + wrap (size n + META)))
                           (status t) (prev t) (next n)]> m).
Proof.
  intros Ht Hy Hn Hne. unfold absorbNext. rewrite Ht. simpl.
  rewrite Hy, Hn. simpl. rewrite (store_Some _ _ _ _ Ht). simpl.
  map_lookup. simpl. rewrite Hy. map_lookup. rewrite Hn. simpl.
  erewrite store_Some by apply lookup_insert_eq.
  by rewrite insert_insert_eq.
Qed.

Lemma free_in_order_ext (X X' : Z → Prop) (m m' : memory) (l : list Z) :
  (∀ x, x ∈ l → m' !! x = m !! x) → (∀ x, X' x → X x) →
  free_in_order X m l → free_in_order X' m' l.
Proof.
  intros Hext HX. induction l as [|a [|a' l] IH]; [done|done|].
  intros [Hpair Hrest]. split.
  - intros ba ba' Ha Ha'. rewrite Hext in Ha by left.
    rewrite Hext in Ha' by (right; left).
    intros Hsa Hsa'. destruct (Hpair ba ba' Ha Ha' Hsa Hsa') as [Hord Hgap].
    split; [done|]. intros x Hx. apply Hgap. by apply HX.
  - apply IH; [|done]. intros x Hx. apply Hext. by right.
Qed.

Lemma free_in_order_tail (X : Z → Prop) (m : memory) (a : Z) (l : list Z) :
  free_in_order X m (a :: l) → free_in_order X m l.
Proof. destruct l; [done|]. by intros [_ ?]. Qed.

Lemma chain_head (m : memory) (p : Z) (l : list Z) :
  chain m p l → l ≠ [] → ∃ l', l = p :: l'.
Proof. destruct l as [|x l]; [done|]. intros (-> & _) _. eauto. Qed.

(** The sweep of [mergeFreeBlocks] on a registry whose headers are clear of
    one another: it ends with no two free neighbours, and the headers are
    still clear of the free blocks, merged ones included. *)
Lemma mergeFreeBlocks_loop_layout (fuel : nat) :
  ∀ l p m (X : Z → Prop),
    chain m p l → l ≠ [] → (length l ≤ fuel)%nat →
    free_in_order X m l → sizes_ok m l →
    (∀ f x, f ∈ l → X x → x ≠ f → ¬ covers m f x) →
    ∃ m' l', mergeFreeBlocks_loop fuel p m = Some m'
      ∧ chain m' p l' ∧ sublist l' l ∧ l' ≠ []
      ∧ no_adjacent_free m' l'
      ∧ sizes_ok m' l'
      ∧ (∀ x, x ∉ l → m' !! x = m !! x)
      ∧ (∀ x, x ∈ l' → status <$> m' !! x = status <$> m !! x)
      ∧ (∀ f x, f ∈ l' → X x → x ≠ f → (x ∈ l → x ∈ l') → ¬ covers m' f x).
Proof.
  induction fuel as [|fuel IH]; intros l p m X Hc Hne Hf Htile Hsp Hin.
  { destruct l; [done|simpl in Hf; lia]. }
  destruct l as [|a l0]; [done|]. clear Hne.
  pose proof (chain_NoDup _ _ _ Hc) as Hnd.
  destruct Hc as (-> & Ha0 & t & Ht & Hc).
  simpl. rewrite Ht. simpl.
  destruct l0 as [|y l1].
  { (* the last block *)
    simpl in Hc. rewrite decide_False by (intros [? _]; done).
    exists m, [a]. split; [done|]. split; [simpl; eauto|].
    split; [done|]. split; [done|]. split; [done|]. split; [done|].
    split; [done|]. split; [done|]. intros f x Hfin HX Hxf _. by apply Hin. }
  pose proof Hc as (Hy & Hy0 & n & Hn & Hc1).
  rewrite decide_True by (split; [congruence|done]).
  rewrite Hy in Hc |- *.
  apply NoDup_cons in Hnd as [Hal0 Hnd0].
  pose proof Hnd0 as Hnd0'. apply NoDup_cons in Hnd0' as [Hyl1 Hnd1].
  assert (a ≠ y) as Hay by (intros ->; apply Hal0; left).
  assert (a ∉ l1) as Hal1 by (intros ?; apply Hal0; by right).
  (* moving on to the next block *)
  assert (¬ (status t = STATUS_FREE ∧ status n = STATUS_FREE) →
          ∃ m' l', mergeFreeBlocks_loop fuel y m = Some m'
            ∧ chain m' a l' ∧ sublist l' (a :: y :: l1) ∧ l' ≠ []
            ∧ no_adjacent_free m' l'
            ∧ sizes_ok m' l'
            ∧ (∀ x, x ∉ a :: y :: l1 → m' !! x = m !! x)
            ∧ (∀ x, x ∈ l' → status <$> m' !! x = status <$> m !! x)
            ∧ (∀ f x, f ∈ l' → X x → x ≠ f → (x ∈ a :: y :: l1 → x ∈ l') →
                 ¬ covers m' f x)) as Hadvance.
  { intros Hnot.
    destruct (IH (y :: l1) y m X) as
      (m' & l' & Hrun & Hc' & Hsub & Hne' & Hnaf & Hsp' & Hsame & Hst & Hin');
      [done|done|simpl in Hf |- *; lia|by eapply free_in_order_tail| | |].
    { intros x bx Hx. apply Hsp. by right. }
    { intros f x Hfin. apply Hin. by right. }
    destruct (chain_head _ _ _ Hc' Hne') as [l2 ->].
    assert (m' !! a = Some t) as Ha'.
    { rewrite Hsame; [done|]. intros Hx. apply Hal0. done. }
    exists m', (a :: y :: l2). split; [done|].
    split; [simpl; split; [done|]; split; [done|]; exists t; by rewrite Hy|].
    split; [by apply sublist_skip|]. split; [done|].
    split; [|split; [|split; [|split]]].
    - split; [|done]. intros [(ba & Hba & Hsa) (by' & Hby & Hsy)].
      apply Hnot. rewrite Ha' in Hba. injection Hba as <-.
      pose proof (Hst y ltac:(left)) as Hsty. rewrite Hby, Hn in Hsty.
      simpl in Hsty. injection Hsty as Hsty. split; congruence.
    - intros x bx Hx Hbx. apply elem_of_cons in Hx as [->|Hx].
      + rewrite Ha' in Hbx. injection Hbx as <-. apply (Hsp a); [left|done].
      + by apply (Hsp' x).
    - intros x Hx. apply Hsame. intros Hx'. apply Hx. by right.
    - intros x Hx. apply elem_of_cons in Hx as [->|Hx].
      + by rewrite Ha', Ht.
      + by apply Hst.
    - intros f x Hfin HX Hxf Himp. apply elem_of_cons in Hfin as [->|Hfin].
      + intros (bf & Hbf & Hrest). rewrite Ha' in Hbf. injection Hbf as <-.
        apply (Hin a x); [left|done|done|]. exists t. done.
      + apply Hin'; [done|done|done|]. intros Hx.
        specialize (Himp ltac:(by right)).
        apply elem_of_cons in Himp as [->|Himp]; [|done].
        exfalso. by apply Hal0. }
  destruct (decide (status t = STATUS_FREE)) as [Hst_t|Hst_t].
  2:{ apply Hadvance. tauto. }
  rewrite Hn. simpl.
  destruct (decide (status n = STATUS_FREE)) as [Hst_n|Hst_n].
  2:{ apply Hadvance. tauto. }
  (* absorbing the successor *)
  rewrite (absorbNext_spec m a y t n) by done. simpl.
  destruct Htile as [Hpair Htile].
  destruct (Hpair t n Ht Hn Hst_t Hst_n) as [Hord Hgap].
  destruct (Hsp a t ltac:(left) Ht) as (Hapos & Hsza & Hspa).
  destruct (Hsp y n ltac:(right; left) Hn) as (Hypos & Hszn & Hspn).
  specialize (Hspa Hst_t). specialize (Hspn Hst_n).
  pose proof META_eq as HM.
  assert (wrap (size t + wrap (size n + META)) = size t + size n + META) as Hsize.
  { rewrite (wrap_small (size n + META)) by lia. rewrite wrap_small by lia. lia. }
  rewrite Hsize.
  set (t' := BlockMeta (size t + size n + META) (status t) (prev t) (next n)).
  set (m2 := <[a := t']> m).
  assert (∀ x, x ≠ a → m2 !! x = m !! x) as Hm2.
  { intros x Hx. unfold m2. by rewrite lookup_insert_ne. }
  assert (m2 !! a = Some t') as Ha2 by apply lookup_insert_eq.
  assert (∀ x, X x → x ≠ a → ¬ (a - META < x < a + META + size t)) as Hclear_a.
  { intros x HX Hxa Hr. apply (Hin a x); [left|done|done|]. exists t. done. }
  assert (∀ x, X x → x ≠ y → ¬ (y - META < x < y + META + size n)) as Hclear_y.
  { intros x HX Hxy Hr. apply (Hin y x); [right; left|done|done|]. exists n. done. }
  destruct (IH (a :: l1) a m2 (λ x, X x ∧ x ≠ y)) as
    (m' & l' & Hrun & Hc' & Hsub & Hne' & Hnaf & Hsp' & Hsame & Hst & Hin').
  - simpl. split; [done|]. split; [done|]. exists t'. split; [done|].
    simpl. by apply chain_insert_ne.
  - done.
  - simpl in Hf |- *. lia.
  - destruct l1 as [|z l2]; [done|]. split.
    + intros ba ba' Hba Hbz Hsa Hsz. rewrite Ha2 in Hba. injection Hba as <-.
      rewrite Hm2 in Hbz by (intros ->; apply Hal1; left).
      destruct Htile as [Hpair' _].
      destruct (Hpair' n ba' Hn Hbz Hst_n Hsz) as [Hord' Hgap'].
      simpl. split; [lia|]. intros x [HX Hxy] Hr.
      destruct (decide (x < y)) as [Hlt|Hge].
      * apply (Hgap x HX). lia.
      * apply (Hgap' x HX). lia.
    + apply (free_in_order_ext X _ m); [| |by eapply free_in_order_tail].
      * intros x Hx. apply Hm2. intros ->. apply Hal1. by right.
      * by intros x [? _].
  - intros x bx Hx Hbx. apply elem_of_cons in Hx as [->|Hx].
    + rewrite Ha2 in Hbx. injection Hbx as <-. simpl.
      split; [done|]. split; [lia|]. intros _. lia.
    + rewrite Hm2 in Hbx by (intros ->; done).
      apply (Hsp x); [by do 2 right|done].
  - intros f x Hfin [HX Hxy] Hxf (bf & Hbf & Hsf & Hrange).
    apply elem_of_cons in Hfin as [->|Hfin].
    + rewrite Ha2 in Hbf. injection Hbf as <-. simpl in Hrange.
      pose proof (Hclear_a x HX Hxf) as Hca.
      pose proof (Hclear_y x HX Hxy) as Hcy.
      pose proof (Hgap x HX) as Hg. lia.
    + rewrite Hm2 in Hbf by (intros ->; done).
      apply (Hin f x); [by do 2 right|done|done|]. exists bf. done.
  - exists m', l'. split; [done|]. split; [done|].
    split; [|split; [done|split; [done|split; [done|split; [|split]]]]].
    + etrans; [exact Hsub|]. apply sublist_skip, sublist_cons. done.
    + intros x Hx. rewrite Hsame.
      * apply Hm2. intros ->. apply Hx. left.
      * intros Hx'. apply Hx. apply elem_of_cons in Hx' as [->|Hx'];
          [left|by do 2 right].
    + intros x Hx. rewrite (Hst x Hx).
      destruct (decide (x = a)) as [->|Hxa].
      * by rewrite Ha2, Ht.
      * by rewrite Hm2.
    + intros f x Hfin HX Hxf Himp. apply Hin'; [done| |done|].
      * split; [done|]. intros ->.
        specialize (Himp ltac:(right; left)).
        pose proof (sublist_subseteq _ _ Hsub y Himp) as Hy'.
        apply elem_of_cons in Hy' as [Hy'|Hy']; [by apply Hay|done].
      * intros Hx. apply Himp. apply elem_of_cons in Hx as [->|Hx];
          [left|by do 2 right].
Qed.

(** ** Free neighbours, seen through the statuses *)

Lemma has_status_lookup (m : memory) (st : block_status) (a : Z) :
  has_status m st a ↔ status <$> m !! a = Some st.
Proof.
  unfold has_status. split.
  - intros (b & -> & <-). done.
  - destruct (m !! a) as [b|]; simpl; [|done]. intros [= <-]. eauto.
Qed.

Lemma no_adjacent_free_statuses (m : memory) (l : list Z) :
  no_adjacent_free m l ↔ no_two_free (statuses m l).
Proof.
  induction l as [|a [|a' l] IH]; [done|done|].
  change (statuses m (a :: a' :: l))
    with ((status <$> m !! a) :: statuses m (a' :: l)).
  change (statuses m (a' :: l))
    with ((status <$> m !! a') :: statuses m l) in *.
  simpl. rewrite !has_status_lookup. rewrite IH. done.
Qed.

Lemma no_two_free_weaken (news olds : list (option block_status)) :
  Forall2 (λ n o, n = Some STATUS_FREE → o = Some STATUS_FREE) news olds →
  no_two_free olds → no_two_free news.
Proof.
  induction 1 as [|n o news olds Hno Hrest IH]; [done|].
  destruct Hrest as [|n' o' news' olds' Hno' Hrest']; [done|].
  simpl. intros [Hpair Hold]. split; [|by apply IH].
  intros [Hn Hn']. apply Hpair. auto.
Qed.

Lemma no_two_free_snoc (sts : list (option block_status)) (st : option block_status) :
  st ≠ Some STATUS_FREE → no_two_free sts → no_two_free (sts ++ [st]).
Proof.
  intros Hst. induction sts as [|a [|a' sts] IH]; [done| |].
  - simpl. intros _. split; [|done]. intros [_ ?]. done.
  - intros [Hpair Hrest]. split; [done|]. by apply IH.
Qed.

Lemma no_two_free_split (sa sb : list (option block_status)) :
  no_two_free (sa ++ Some STATUS_FREE :: sb) →
  no_two_free (sa ++ Some STATUS_ALLOC :: Some STATUS_FREE :: sb).
Proof.
  induction sa as [|a [|a' sa] IH].
  - simpl. intros H. split; [|done]. intros [? _]. done.
  - simpl. intros [Hpair H]. split; [intros [_ ?]; done|].
    split; [intros [? _]; done|]. done.
  - intros [Hpair Hrest]. split; [done|]. by apply IH.
Qed.

Lemma statuses_ext (m m' : memory) (l : list Z) :
  (∀ x, x ∈ l → status <$> m' !! x = status <$> m !! x) →
  statuses m' l = statuses m l.
Proof.
  intros Hext. unfold statuses. apply list_fmap_ext.
  intros i x Hx. apply Hext. apply list_elem_of_lookup. eauto.
Qed.

(** Marking one block allocated cannot create free neighbours. *)
Lemma no_adjacent_free_alloc (m : memory) (l : list Z) (a : Z) (b : block_meta) :
  status b = STATUS_ALLOC →
  no_adjacent_free m l → no_adjacent_free (<[a := b]> m) l.
Proof.
  intros Hb. rewrite !no_adjacent_free_statuses.
  apply no_two_free_weaken. unfold statuses.
  apply Forall2_fmap, Forall_Forall2_diag, Forall_forall.
  intros x _. destruct (decide (a = x)) as [->|Hne].
  - rewrite lookup_insert_eq. simpl. rewrite Hb. done.
  - by rewrite lookup_insert_ne.
Qed.

Lemma chain_last_next (m : memory) (l : list Z) :
  ∀ p z bz, chain m p l → last l = Some z → m !! z = Some bz → next bz = 0.
Proof.
  induction l as [|x [|y l] IH]; intros p z bz Hc Hz Hbz; [done| |].
  - injection Hz as ->. destruct Hc as (-> & _ & b & Hb & Hn).
    rewrite Hbz in Hb. injection Hb as <-. done.
  - destruct Hc as (-> & _ & b & Hb & Hc). eapply IH; eauto.
Qed.

(** ** Extending the last block *)

Lemma extendHeap_last_free (fuel : nat) (hd sz z : Z) (s : state) (l : list Z)
    (bz : block_meta) :
  chain (mem s) hd l → last l = Some z → mem s !! z = Some bz →
  status bz = STATUS_FREE → (length l ≤ fuel)%nat →
  extendHeap fuel hd sz 0 s
  = Some (z, State (<[z := BlockMeta (wrap (sz - META)) STATUS_ALLOC (prev bz) 0]> (mem s))
                   (head s) (preallocHeap s) (callocType s) (reallocType s)
                   (brk s + to_signed (wrap (wrap (sz - META) - size bz)))
                   (mmap_next s) (pagesize s)
                   (trace s ++ [SBRK (wrap (wrap (sz - META) - size bz))])).
Proof.
  intros Hc Hz Hbz Hst Hf. unfold extendHeap.
  destruct l as [|x l]; [done|].
  pose proof Hc as (-> & Hx0 & t & Ht & _). rewrite Ht. simpl.
  rewrite (lastBlock_chain _ _ _ _ _ Hc Hz Hf). simpl.
  rewrite Hbz. simpl. rewrite decide_True by done.
  unfold sbrk. simpl. rewrite (store_Some _ _ _ _ Hbz). simpl.
  erewrite store_Some by apply lookup_insert_eq. simpl.
  erewrite store_Some by apply lookup_insert_eq. simpl.
  rewrite !insert_insert_eq. done.
Qed.

(** ** An allocation served by the reuse pipeline *)

Lemma last_elem_of (l : list Z) (z : Z) : last l = Some z → z ∈ l.
Proof.
  intros Hz. rewrite last_lookup in Hz. apply list_elem_of_lookup. eauto.
Qed.

Lemma os_malloc_arena_layout (fuel : nat) (sz : Z) (s : state) (l : list Z) :
  preallocHeap s ≠ 0 → callocType s = 0 →
  0 < sz → wrap (ALIGN sz + META) < MMAP_THRESHOLD →
  registry_ok s l → l ≠ [] → (length l < fuel)%nat →
  ∃ blk s' l', os_malloc fuel sz s = Some (blk + META, s')
    ∧ chain (mem s') (head s') l' ∧ blk ∈ l'
    ∧ no_adjacent_free (mem s') l'
    ∧ has_status (mem s') STATUS_ALLOC blk.
Proof.
  intros Hpre Hcal Hsz Hbelow (Hc & Hsp & Htile & Hin & Hfresh & Hbrk) Hne Hf.
  pose proof META_eq as HM. pose proof ALIGN_1 as HA.
  assert (MMAP_THRESHOLD = 131072) as Hthr by reflexivity.
  rewrite os_malloc_arena by done.
  set (total := wrap (ALIGN sz + META)) in *.
  assert (0 ≤ total) as Htot0 by (apply Z.mod_pos_bound; lia).
  unfold arenaAlloc. rewrite decide_False by done.
  assert (head s ≠ 0) as Hh.
  { destruct l as [|x l']; [done|]. by destruct Hc as (-> & ? & _). }
  unfold tryAll, mergeFreeBlocks. rewrite decide_False by done. simpl.
  destruct (mergeFreeBlocks_loop_layout fuel l (head s) (mem s) (λ x, x ∈ l))
    as (m1 & l1 & Hrun & Hc1 & Hsub & Hne1 & Hnaf1 & Hsp1 & Hsame1 & Hst1 & Hin1);
    [done|done|lia|done|done|by intros; apply Hin|].
  rewrite Hrun. simpl.
  pose proof (sublist_length _ _ Hsub) as Hlen.
  pose proof (sublist_subseteq _ _ Hsub) as Hsubset.
  assert (∃ chosen m2, searchAndSplit fuel (head s) total m1 = Some (chosen, m2)
            ∧ ((chosen = 0 ∧ m2 = m1)
               ∨ (META ≤ total
                  ∧ ∃ bc, is_best_fit m1 (total - META) l1 chosen
                      ∧ m1 !! chosen = Some bc
                      ∧ if decide (ALIGN 1 + total ≤ size bc) then
                          m2 = split_at m1 chosen total bc
                          ∧ (chosen + total ∉ l1 → chosen + total ≠ 0 →
                             ∀ la lb, l1 = la ++ chosen :: lb →
                               chain m2 (head s)
                                 (la ++ chosen :: (chosen + total) :: lb))
                        else
                          m2 = <[chosen := set_status STATUS_ALLOC bc]> m1
                          ∧ chain m2 (head s) l1)))
    as (chosen & m2 & Hss & Hres).
  { destruct (decide (META ≤ total)) as [Hge|Hlt].
    - destruct (searchAndSplit_spec fuel (head s) total m1 l1)
        as (chosen & m2 & Hss & Hres); [done|lia|lia|lia| |].
      { intros x bx Hx Hbx. by destruct (Hsp1 x bx Hx Hbx) as (? & ? & ?). }
      exists chosen, m2. split; [done|].
      destruct Hres as [(-> & -> & _)|Hres]; [by left|by right].
    - (* the total has wrapped: no block is large enough *)
      exists 0, m1. split; [|by left].
      apply (searchAndSplit_none _ _ _ _ l1); [done|lia|].
      intros x Hx (bx & Hbx & Hfx & Hfit).
      destruct (Hsp1 x bx Hx Hbx) as (Hxpos & Hxsz & Hxsp).
      specialize (Hxsp Hfx).
      assert (wrap (total - META) = total - META + 2 ^ 64) as Hw.
      { unfold wrap. symmetry. apply (Z.mod_unique _ _ (-1)); lia. }
      lia. }
  rewrite Hss. simpl.
  destruct Hres as [(-> & ->)|(Hge & bc & Hbest & Hbc & Hcase)].
  - (* no free block fits: extend the last block or take a new region *)
    simpl. destruct (last l1) as [z|] eqn:Hz.
    2:{ apply last_None in Hz. done. }
    pose proof (last_elem_of _ _ Hz) as Hzin.
    destruct (chain_lookup _ _ _ _ Hc1 Hzin) as [Hz0 [bz Hbz]].
    destruct (decide (status bz = STATUS_FREE)) as [Hfree|Hnfree].
    + erewrite (extendHeap_last_free fuel (head s) total z (with_mem m1 s) l1 bz);
        [|done|done|done|done|lia].
      simpl. rewrite decide_False by done.
      eexists z, _, l1. split; [reflexivity|]. simpl.
      split; [|split; [done|split]].
      * eapply chain_insert_next; [exact Hbz| |done]. simpl.
        symmetry. eapply chain_last_next; eauto.
      * by apply no_adjacent_free_alloc.
      * eexists. rewrite lookup_insert_eq. done.
    + erewrite (extendHeap_last_not_free fuel (head s) total z (with_mem m1 s) l1);
        [|done|done| |lia].
      2:{ intros (b' & Hb' & Hst'). simpl in Hb'. rewrite Hbz in Hb'.
          injection Hb' as <-. done. }
      simpl.
      assert (brk s ∉ l1) as Hfresh1.
      { intros Hx. destruct (Hfresh (brk s) (Hsubset _ Hx)); lia. }
      erewrite (allocateSbrk_spec fuel total (with_mem m1 s) l1);
        [|done|done|lia].
      simpl. rewrite decide_False by done.
      eexists (brk s), _, (l1 ++ [brk s]). split; [reflexivity|]. simpl.
      split; [|split; [|split]].
      * pose proof (chain_appended m1 l1 (head s) (brk s)
          (BlockMeta (wrap (total - META)) STATUS_ALLOC 0 0) Hc1 Hfresh1) as Happ.
        rewrite decide_False in Happ by done. apply Happ; [lia|done].
      * apply elem_of_app. right. left.
      * rewrite no_adjacent_free_statuses in Hnaf1 |- *.
        unfold statuses. rewrite fmap_app. simpl.
        rewrite appended_lookup_new. simpl.
        apply no_two_free_snoc; [done|].
        erewrite list_fmap_ext; [exact Hnaf1|].
        intros i x Hx. simpl.
        assert (x ∈ l1) as Hxin by (apply list_elem_of_lookup; eauto).
        rewrite appended_lookup_old by (intros ->; done).
        destruct (decide (last l1 = Some x)); [|done].
        by destruct (m1 !! x).
      * eexists. rewrite appended_lookup_new. done.
  - (* the best fit *)
    pose proof Hbest as (la & lb & bc' & Hl1 & Hbc' & Hstc & Hreq & _).
    rewrite Hbc in Hbc'. injection Hbc' as <-.
    assert (chosen ∈ l1) as Hcin by (rewrite Hl1; apply elem_of_app; right; left).
    destruct (chain_lookup _ _ _ _ Hc1 Hcin) as [Hc0 _].
    destruct (Hsp1 chosen bc Hcin Hbc) as (Hcpos & Hcsz & Hcsp).
    rewrite decide_True by done. simpl. rewrite decide_False by done.
    destruct (decide (ALIGN 1 + total ≤ size bc)) as [Hsplit|Hnosplit].
    + destruct Hcase as [-> Hchain].
      assert (chosen + total ∉ l1) as Hnew.
      { intros Hx. apply (Hin1 chosen (chosen + total)); [done|auto|lia|done|].
        exists bc. split; [done|]. split; [done|]. lia. }
      assert (chosen + total ≠ 0) as Hnew0 by lia.
      specialize (Hchain Hnew Hnew0 la lb Hl1).
      eexists chosen, _, _. split; [reflexivity|]. simpl.
      split; [exact Hchain|]. split; [apply elem_of_app; right; left|].
      split.
      * pose proof (chain_NoDup _ _ _ Hc1) as Hnd. rewrite Hl1 in Hnd, Hnew.
        apply NoDup_app in Hnd as (_ & Hla & Hnd).
        apply NoDup_cons in Hnd as [Hclb _].
        rewrite no_adjacent_free_statuses in Hnaf1 |- *.
        rewrite Hl1 in Hnaf1. unfold statuses in *.
        rewrite fmap_app in Hnaf1 |- *. simpl in Hnaf1 |- *.
        unfold split_at at 2 3. map_lookup. simpl.
        rewrite Hbc in Hnaf1. simpl in Hnaf1. rewrite Hstc in Hnaf1.
        apply no_two_free_split in Hnaf1.
        erewrite list_fmap_ext; [erewrite (list_fmap_ext _ _ lb); [exact Hnaf1|]|].
        -- intros i x Hx. simpl.
           assert (x ∈ lb) as Hxin by (apply list_elem_of_lookup; eauto).
           unfold split_at. rewrite !lookup_insert_ne; [done| |].
           ++ intros <-. done.
           ++ intros <-. apply Hnew. apply elem_of_app. right. by right.
        -- intros i x Hx. simpl.
           assert (x ∈ la) as Hxin by (apply list_elem_of_lookup; eauto).
           unfold split_at. rewrite !lookup_insert_ne; [done| |].
           ++ intros <-. by apply (Hla chosen Hxin); left.
           ++ intros <-. apply Hnew. apply elem_of_app. by left.
      * eexists. unfold split_at. map_lookup. done.
    + destruct Hcase as [-> Hchain].
      eexists chosen, _, l1. split; [reflexivity|]. simpl.
      split; [done|]. split; [done|]. split.
      * by apply no_adjacent_free_alloc.
      * eexists. rewrite lookup_insert_eq. done.
Qed.

(** C5, as stated, fails.  An [os_malloc] served by [mmap] coalesces
    nothing, so two free neighbours stay as they are; and free blocks that
    are neighbours in memory but have a mapped block between them in the
    registry are not merged by the sweep of an arena [os_malloc]. *)
Lemma free_neighbours_survive_malloc :
  (∃ s, mmap_after_frees 4 boot = Some s
      ∧ registry 4 (mem s) (head s) = Some [4096000; 4096136; 8192000]
      ∧ ¬ no_adjacent_free (mem s) [4096000; 4096136; 8192000]
      ∧ adjacent_in_memory (mem s) 4096000 4096136)
  ∧ (∃ r s, free_around_mapping 5 boot = Some (r, s)
      ∧ registry 5 (mem s) (head s) = Some [4096000; 4096232; 8192000; 4227072]
      ∧ has_status (mem s) STATUS_FREE 4096232
      ∧ has_status (mem s) STATUS_MAPPED 8192000
      ∧ has_status (mem s) STATUS_FREE 4227072
      ∧ adjacent_in_memory (mem s) 4096232 4227072).
Proof.
  split.
  - eexists. split; [vm_compute; reflexivity|].
    split; [vm_compute; reflexivity|]. split.
    + intros [H _]. apply H. split; eexists; (split; [vm_compute; reflexivity|done]).
    + eexists. split; [vm_compute; reflexivity|]. reflexivity.
  - eexists _, _. split; [vm_compute; reflexivity|].
    split; [vm_compute; reflexivity|].
    repeat split; eexists; (split; [vm_compute; reflexivity|reflexivity]).
Qed.

(** C5, amended: when the arena is in use and the total of the request, as
    the [size_t] the code computes, is below the threshold, so that
    [os_malloc] goes through [tryAll], no two blocks that are neighbours in
    the registry are both [STATUS_FREE] when it returns.  The registry is a
    chain whose headers are clear of one another where the call writes
    ([registry_ok]); free neighbours need not touch in memory.  (A request
    served by [mmap] coalesces nothing, and free blocks that touch in memory
    with a mapped block between them in the registry are left apart.) *)
Theorem arena_malloc_leaves_no_free_neighbours
    (fuel : nat) (sz : Z) (s : state) (l : list Z) :
  preallocHeap s ≠ 0 → callocType s = 0 →
  0 < sz → wrap (ALIGN sz + META) < MMAP_THRESHOLD →
  registry_ok s l → l ≠ [] → (length l < fuel)%nat →
  ∃ p s' l', os_malloc fuel sz s = Some (p, s')
    ∧ chain (mem s') (head s') l'
    ∧ no_adjacent_free (mem s') l'.
Proof.
  intros Hpre Hcal Hsz Hbelow Hok Hne Hf.
  destruct (os_malloc_arena_layout fuel sz s l)
    as (blk & s' & l' & Hrun & Hc & _ & Hnaf & _); try done.
  exists (blk + META), s', l'. done.
Qed.

Example two_free_blocks_reached :
  ('(p, s1) ← os_malloc 2 100 boot;
   '(_, s2) ← os_realloc 2 p 100 s1;
   os_free p s2) = Some two_free_blocks.
Proof. vm_compute. reflexivity. Qed.

Example free_apart_reached :
  ('(p, s1) ← os_malloc 6 100 boot;
   '(_, s2) ← os_realloc 6 p 100 s1;
   '(m, s3) ← os_malloc 6 (200 * 1024) s2;
   '(q, s4) ← os_malloc 6 1000 s3;
   '(b, s5) ← os_malloc 6 130000 s4;
   s6 ← os_free m s5;
   s7 ← os_free q s6;
   os_free b s7) = Some free_apart.
Proof. vm_compute. reflexivity. Qed.

Lemma arena_malloc_leaves_no_free_neighbours_witness :
  ∃ p s' l', os_malloc 4 50 free_apart = Some (p, s')
    ∧ chain (mem s') (head s') l'
    ∧ no_adjacent_free (mem s') l'.
Proof.
  apply (arena_malloc_leaves_no_free_neighbours 4 50 free_apart
           [4096000; 4096136; 4227072]).
  - simpl. lia.
  - reflexivity.
  - lia.
  - vm_compute. reflexivity.
  - unfold registry_ok, free_apart. simpl mem. simpl head. simpl brk.
    split; [apply (registry_chain 4); vm_compute; reflexivity|].
    split; [|split; [|split; [|split]]].
    + intros x bx Hx Hbx.
      repeat (apply elem_of_cons in Hx as [->|Hx]);
        [| | |by apply elem_of_nil in Hx];
        vm_compute in Hbx; injection Hbx as <-; simpl; rewrite META_eq; lia.
    + split; [|split; [|done]].
      * intros ba ba' Ha _ Hsa _. vm_compute in Ha. injection Ha as <-.
        discriminate.
      * intros ba ba' Ha Ha' _ _. vm_compute in Ha. injection Ha as <-.
        simpl. rewrite META_eq. split; [lia|]. intros x Hx Hr.
        repeat (apply elem_of_cons in Hx as [->|Hx]);
          [| | |by apply elem_of_nil in Hx]; lia.
    + intros f x Hf Hx Hxf (bf & Hbf & _ & Hlt). rewrite META_eq in Hlt.
      repeat (apply elem_of_cons in Hf as [->|Hf]);
        [| | |by apply elem_of_nil in Hf];
        vm_compute in Hbf; injection Hbf as <-; simpl in Hlt;
        (repeat (apply elem_of_cons in Hx as [->|Hx]);
         [| | |by apply elem_of_nil in Hx]); lia.
    + intros x Hx. rewrite META_eq.
      repeat (apply elem_of_cons in Hx as [->|Hx]);
        [| | |by apply elem_of_nil in Hx]; lia.
    + lia.
  - discriminate.
  - simpl. lia.
Defined.

(** ** Reallocating to the size asked for before *)

Lemma init_lookup_is_Some (f : block_meta → block_meta) (p q : Z) (m : memory) :
  is_Some (m !! q) → is_Some (init f p m !! q).
Proof.
  intros Hq. unfold init. apply lookup_insert_is_Some'. by right.
Qed.

(** C6 fails on the code for mapped blocks.  [os_realloc] returns the
    pointer when the aligned new size equals the size in the header, but the
    header of a mapped block holds the aligned size plus the header size:
    reallocating the block of [os_malloc(200 * 1024)] to [200 * 1024] bytes
    maps a second region, copies, unmaps the first and returns another
    pointer.  On an arena block the same two calls return the pointer and
    make no system call. *)
Theorem realloc_same_size_moves_mapping :
  (∃ p q s, realloc_mapped_same_size 2 boot = Some (p, q, s)
     ∧ q ≠ p
     ∧ trace s = [MMAP 204832; MMAP 204832; MEMCPY q p 204800;
                  MUNMAP (p - META) 204832])
  ∧ (∃ p s1 b, os_malloc 2 (200 * 1024) boot = Some (p, s1)
       ∧ mem s1 !! (p - sizeof_block_meta) = Some b
       ∧ status b = STATUS_MAPPED
       ∧ size b = ALIGN (200 * 1024) + META)
  ∧ (∃ p s1 s2, os_malloc 2 100 boot = Some (p, s1)
       ∧ os_realloc 2 p 100 s1 = Some (p, s2)
       ∧ trace s2 = trace s1).
Proof.
  split; [|split].
  - eexists _, _, _. split; [vm_compute; reflexivity|].
    split; [discriminate|]. reflexivity.
  - eexists _, _, _. split; [vm_compute; reflexivity|].
    split; [vm_compute; reflexivity|]. split; reflexivity.
  - eexists _, _, _. split; [vm_compute; reflexivity|].
    split; [vm_compute; reflexivity|]. reflexivity.
Qed.

(** ** Mapped blocks: what is mapped is what is unmapped *)

Lemma store_links (f : block_meta → block_meta) (p : Z) (m m' : memory) :
  (∀ b, size (f b) = size b ∧ status (f b) = status b) →
  store f p m = Some m' →
  ∀ a, size <$> m' !! a = size <$> m !! a
     ∧ status <$> m' !! a = status <$> m !! a.
Proof.
  intros Hf Hst a. apply store_inv in Hst as (b & Hb & ->).
  destruct (decide (p = a)) as [->|Hne].
  - rewrite lookup_insert_eq, Hb. simpl. destruct (Hf b) as [-> ->]. done.
  - by rewrite lookup_insert_ne.
Qed.

Lemma store_set_next (v p : Z) (m m' : memory) :
  store (set_next v) p m = Some m' →
  ∀ a, size <$> m' !! a = size <$> m !! a
     ∧ status <$> m' !! a = status <$> m !! a.
Proof. by apply store_links. Qed.

Lemma store_set_prev (v p : Z) (m m' : memory) :
  store (set_prev v) p m = Some m' →
  ∀ a, size <$> m' !! a = size <$> m !! a
     ∧ status <$> m' !! a = status <$> m !! a.
Proof. by apply store_links. Qed.

Lemma deleteBlock_size (hd delBlock hd' : Z) (m m' : memory) :
  deleteBlock hd delBlock m = Some (hd', m') →
  ∀ a, size <$> m' !! a = size <$> m !! a.
Proof.
  unfold deleteBlock. destruct (decide _); [by intros [= _ <-]|].
  destruct (m !! delBlock) as [d|]; simpl; [|done].
  destruct (decide (next d ≠ 0)).
  - destruct (store _ (next d) m) as [m1|] eqn:H1; simpl; [|done].
    destruct (m1 !! delBlock) as [d1|]; simpl; [|done].
    destruct (decide (prev d1 ≠ 0)).
    + destruct (store _ (prev d1) m1) as [m2|] eqn:H2; simpl; [|done].
      intros [= _ <-] a.
      rewrite (proj1 (store_set_next _ _ _ _ H2 a)).
      apply (store_set_prev _ _ _ _ H1 a).
    + simpl. intros [= _ <-] a. apply (store_set_prev _ _ _ _ H1 a).
  - simpl. destruct (m !! delBlock) as [d1|]; simpl; [|done].
    destruct (decide (prev d1 ≠ 0)).
    + destruct (store _ (prev d1) m) as [m2|] eqn:H2; simpl; [|done].
      intros [= _ <-] a. apply (store_set_next _ _ _ _ H2 a).
    + simpl. by intros [= _ <-].
Qed.

(** Whatever the registry looks like, [os_free] of a mapped block unmaps
    exactly the number of bytes stored in its header. *)
Lemma os_free_mapped_munmap (ptr : Z) (s s' : state) (b : block_meta) :
  ptr ≠ 0 → mem s !! (ptr - sizeof_block_meta) = Some b →
  status b = STATUS_MAPPED → os_free ptr s = Some s' →
  trace s' = trace s ++ [MUNMAP (ptr - sizeof_block_meta) (size b)]
  ∧ mem s' !! (ptr - sizeof_block_meta) = None.
Proof.
  intros Hptr Hb Hst. unfold os_free. rewrite decide_False by done.
  rewrite Hb. simpl. rewrite decide_False by congruence. simpl.
  rewrite Hb. simpl. rewrite decide_True by done.
  rewrite (store_Some _ _ _ _ Hb). simpl.
  destruct (deleteBlock _ _ _) as [[hd m3]|] eqn:Hdel; simpl; [|done].
  destruct (m3 !! _) as [b3|] eqn:Hb3; simpl; [|done].
  intros [= <-]. simpl. split; [|apply lookup_delete_eq].
  pose proof (deleteBlock_size _ _ _ _ _ Hdel (ptr - sizeof_block_meta)) as Hsz.
  rewrite Hb3, lookup_insert_eq in Hsz. simpl in Hsz.
  injection Hsz as ->. done.
Qed.

Lemma insertInList_content (fuel : nat) (hd memBlock hd' : Z) (m m' : memory) :
  insertInList fuel hd memBlock m = Some (hd', m') →
  ∀ a, size <$> m' !! a = size <$> m !! a
     ∧ status <$> m' !! a = status <$> m !! a.
Proof.
  unfold insertInList. destruct (decide (hd = 0)).
  - destruct (store _ memBlock m) as [m1|] eqn:H1; simpl; [|done].
    destruct (store _ memBlock m1) as [m2|] eqn:H2; simpl; [|done].
    intros [= _ <-] a.
    destruct (store_set_next _ _ _ _ H2 a) as [-> ->].
    apply (store_set_prev _ _ _ _ H1 a).
  - destruct (lastBlock fuel m hd) as [temp|]; simpl; [|done].
    destruct (store _ temp m) as [m1|] eqn:H1; simpl; [|done].
    destruct (store _ memBlock m1) as [m2|] eqn:H2; simpl; [|done].
    intros [= _ <-] a.
    destruct (store_set_prev _ _ _ _ H2 a) as [-> ->].
    apply (store_set_next _ _ _ _ H1 a).
Qed.

(** [allocateMmap] stores in the header the length it passed to [mmap]. *)
Lemma allocateMmap_block (fuel : nat) (n blk : Z) (s s' : state) :
  allocateMmap fuel n s = Some (blk, s') →
  trace s' = trace s ++ [MMAP n]
  ∧ size <$> mem s' !! blk = Some n
  ∧ status <$> mem s' !! blk = Some STATUS_MAPPED.
Proof.
  unfold allocateMmap, mmap. cbv zeta. simpl mem. simpl head.
  rewrite init_header.
  destruct (insertInList _ _ _ _) as [[hd m5]|] eqn:Hins; simpl; [|done].
  intros [= <- <-]. simpl. split; [done|].
  destruct (insertInList_content _ _ _ _ _ _ Hins (mmap_next s)) as [-> ->].
  by rewrite lookup_insert_eq.
Qed.

(** A request at or above the threshold is mapped, and the header of its
    block holds the length passed to [mmap]: the payload and the header. *)
Lemma os_malloc_mapped_block (fuel : nat) (sz p : Z) (s s' : state) :
  0 < sz → callocType s = 0 → MMAP_THRESHOLD ≤ wrap (ALIGN sz + META) →
  os_malloc fuel sz s = Some (p, s') →
  trace s' = trace s ++ [MMAP (wrap (ALIGN sz + META))]
  ∧ size <$> mem s' !! (p - sizeof_block_meta) = Some (wrap (ALIGN sz + META))
  ∧ status <$> mem s' !! (p - sizeof_block_meta) = Some STATUS_MAPPED.
Proof.
  intros Hsz Hcal Habove. rewrite os_malloc_mmap by done.
  destruct (allocateMmap _ _ _) as [[blk s1]|] eqn:Hrun; simpl; [|done].
  intros [= <- <-].
  replace (blk + sizeof_block_meta - sizeof_block_meta) with blk by lia.
  by apply (allocateMmap_block fuel).
Qed.

(** ** Unlinking, when the back link is right *)

Lemma chain_bypass (m : memory) (z d : Z) (bz bd : block_meta) (l2 : list Z) :
  ∀ l1 p, chain m p ((l1 ++ [z]) ++ d :: l2) →
    m !! z = Some bz → m !! d = Some bd →
    chain (<[z := set_next (next bd) bz]> m) p ((l1 ++ [z]) ++ l2).
Proof.
  induction l1 as [|x l1 IH]; intros p Hc Hbz Hbd;
    pose proof (chain_NoDup _ _ _ Hc) as Hnd.
  - simpl in *. destruct Hc as (-> & Hz0 & b & Hb & <- & Hd0 & b' & Hb' & Hc).
    rewrite Hbz in Hb. injection Hb as <-.
    rewrite Hbd in Hb'. injection Hb' as <-.
    apply NoDup_cons in Hnd as [Hz _].
    split; [done|]. split; [done|]. eexists. rewrite lookup_insert_eq.
    split; [done|]. simpl. apply chain_insert_ne; [|done].
    intros Hin. apply Hz. by right.
  - change (((x :: l1) ++ [z]) ++ d :: l2)
      with (x :: ((l1 ++ [z]) ++ d :: l2)) in Hc, Hnd.
    change (((x :: l1) ++ [z]) ++ l2) with (x :: ((l1 ++ [z]) ++ l2)).
    destruct Hc as (-> & Hx0 & b & Hb & Hc).
    apply NoDup_cons in Hnd as [Hx _].
    assert (x ≠ z).
    { intros ->. apply Hx. apply elem_of_app. left. apply elem_of_app.
      right. left. }
    split; [done|]. split; [done|]. exists b.
    rewrite lookup_insert_ne by done. split; [done|]. by apply IH.
Qed.

(** When the mapped block's [prev] names the block in front of it in the
    registry (or is [NULL] for the head), [os_free] takes it out of the
    registry and unmaps it. *)
Lemma os_free_mapped_unlinks (ptr : Z) (s : state) (l1 l2 : list Z) (b : block_meta) :
  ptr ≠ 0 →
  chain (mem s) (head s) (l1 ++ (ptr - sizeof_block_meta) :: l2) →
  mem s !! (ptr - sizeof_block_meta) = Some b → status b = STATUS_MAPPED →
  prev b = default 0 (last l1) →
  ∃ s', os_free ptr s = Some s'
      ∧ chain (mem s') (head s') (l1 ++ l2)
      ∧ trace s' = trace s ++ [MUNMAP (ptr - sizeof_block_meta) (size b)].
Proof.
  intros Hptr Hc Hb Hst Hprev. set (d := ptr - sizeof_block_meta) in *.
  pose proof (chain_NoDup _ _ _ Hc) as Hnd.
  assert (d ∈ l1 ++ d :: l2) as Hdin by (apply elem_of_app; right; left).
  destruct (chain_lookup _ _ _ _ Hc Hdin) as [Hd0 _].
  assert (head s ≠ 0) as Hh.
  { destruct l1; simpl in Hc; by destruct Hc as (-> & ? & _). }
  apply NoDup_app in Hnd as (Hnd1 & Hdisj & Hnd2).
  apply NoDup_cons in Hnd2 as [Hdl2 Hnd2].
  assert (d ∉ l1) as Hdl1 by (intros Hin; apply (Hdisj d Hin); left).
  assert (d ∉ l1 ++ l2) as Hdout.
  { intros Hin. apply elem_of_app in Hin as [?|?]; done. }
  (* the status is cleared first; the links are as before *)
  set (b0 := set_status STATUS_FREE b).
  set (m0 := <[d := b0]> (mem s)).
  assert (chain m0 (head s) (l1 ++ d :: l2)) as Hc0
    by (by eapply chain_insert_next).
  assert (m0 !! d = Some b0) as Hb0 by apply lookup_insert_eq.
  (* the block after [d], if any, gets a new [prev] *)
  assert (chain m0 (next b) l2) as Hc2.
  { apply chain_suffix in Hc0. destruct Hc0 as (_ & _ & b' & Hb' & Hc2).
    rewrite Hb0 in Hb'. injection Hb' as <-. done. }
  assert (∃ m1, (if decide (next b ≠ 0)
                 then store (set_prev (prev b)) (next b) m0 else Some m0)
                = Some m1
              ∧ m1 !! d = Some b0
              ∧ (∀ a, next <$> m1 !! a = next <$> m0 !! a))
    as (m1 & Hm1 & Hb1 & Hnext1).
  { destruct (decide (next b ≠ 0)) as [Hn|Hn]; [|eauto].
    destruct l2 as [|y l2]; [done|].
    destruct Hc2 as (Hy & _ & by' & Hby & _). rewrite <- Hy in Hby.
    rewrite (store_Some _ _ _ _ Hby). eexists. split; [done|].
    assert (next b ≠ d) as Hne by (intros Heq; apply Hdl2; rewrite <- Heq, Hy; left).
    split; [by rewrite lookup_insert_ne|].
    intros a. destruct (decide (next b = a)) as [<-|Ha].
    - by rewrite lookup_insert_eq, Hby.
    - by rewrite lookup_insert_ne. }
  assert (chain m1 (head s) (l1 ++ d :: l2)) as Hc1
    by (eapply chain_ext; [|exact Hc0]; auto).
  unfold os_free. rewrite decide_False by done. fold d.
  rewrite Hb. simpl. rewrite decide_False by congruence. simpl.
  rewrite Hb. simpl. rewrite decide_True by done.
  rewrite (store_Some _ _ _ _ Hb). simpl. fold b0 m0.
  unfold deleteBlock. rewrite decide_False by (intros [?|?]; done).
  rewrite Hb0. simpl. rewrite Hm1. simpl.
  rewrite Hb1. simpl.
  destruct (last l1) as [z|] eqn:Hz.
  - (* [d] has a predecessor [z] *)
    simpl in Hprev. apply last_Some in Hz as [l1' ->].
    assert (z ∈ (l1' ++ [z]) ++ d :: l2) as Hzin.
    { apply elem_of_app. left. apply elem_of_app. right. left. }
    destruct (chain_lookup _ _ _ _ Hc1 Hzin) as [Hz0 [bz Hbz]].
    assert (z ≠ d) as Hzd.
    { intros ->. apply Hdl1. apply elem_of_app. right. left. }
    assert (head s ≠ d) as Hhd.
    { intros Heq. apply Hdl1. destruct l1'; simpl in Hc;
        destruct Hc as (<- & _); rewrite Heq; left. }
    rewrite Hprev. rewrite (decide_True (P := z ≠ 0)) by done.
    rewrite (store_Some _ _ _ _ Hbz). simpl.
    rewrite lookup_insert_ne by done. rewrite Hb1. simpl.
    eexists. split; [reflexivity|]. simpl.
    rewrite decide_False by done. split; [|done].
    apply (chain_ext (<[z := set_next (next b) bz]> m1)).
    + intros a Ha. rewrite lookup_delete_ne; [done|]. intros <-. done.
    + exact (chain_bypass m1 z d bz b0 l2 l1' (head s) Hc1 Hbz Hb1).
  - (* [d] is the head *)
    simpl in Hprev. apply last_None in Hz. subst l1. simpl in *.
    destruct Hc as (Hhd & _). rewrite Hprev.
    rewrite (decide_False (P := 0 ≠ 0)) by (intros H; by apply H). simpl.
    rewrite Hb1. simpl.
    eexists. split; [reflexivity|]. simpl.
    rewrite decide_True by done. split; [|done].
    apply (chain_ext m0).
    + intros a Ha. rewrite lookup_delete_ne by (intros <-; done). apply Hnext1.
    + done.
Qed.

(** ** The back links of the registry *)

(** C3 fails on the code: after [p = os_malloc(100); q = os_malloc(100);
    os_realloc(p, 100);] the free remainder cut from [p]'s block precedes
    [q]'s block in the registry, but [q]'s block still names [p]'s block as
    its predecessor. *)
Theorem split_leaves_stale_prev :
  ∃ s, shrink_before_neighbour 4 boot = Some s
    ∧ registry 4 (mem s) (head s) = Some [4096000; 4096136; 4227072]
    ∧ next <$> mem s !! 4096136 = Some 4227072
    ∧ prev <$> mem s !! 4227072 = Some 4096000
    ∧ ¬ well_formed_registry s.
Proof.
  eexists. split; [vm_compute; reflexivity|].
  split; [vm_compute; reflexivity|].
  split; [vm_compute; reflexivity|].
  split; [vm_compute; reflexivity|].
  intros (l & Hc & _ & Hback).
  assert (l = [4096000; 4096136; 4227072]) as ->.
  { eapply chain_det; [exact Hc|]. apply (registry_chain 4). vm_compute. reflexivity. }
  edestruct (Hback 4096136) as (bn & Hbn & Hprev).
  - right. left.
  - vm_compute. reflexivity.
  - simpl. lia.
  - simpl in Hbn. vm_compute in Hbn. injection Hbn as <-. simpl in Hprev. lia.
Qed.

(** C7 fails on the code: after a merge and a split in front of a mapped
    block, [os_free] of that block unmaps it with its stored size but
    leaves it the successor of the last arena block, whose [next] now points
    into unmapped memory. *)
Theorem free_leaves_mapping_in_registry :
  ∃ m s, free_mapped_after_merge 4 boot = Some (m, s)
    ∧ last (trace s) = Some (MUNMAP (m - META) 204832)
    ∧ mem s !! (m - META) = None
    ∧ reaches 4 (mem s) (head s) (m - META) = true
    ∧ (∀ fuel, registry fuel (mem s) (head s) = None).
Proof.
  eexists _, _. split; [vm_compute; reflexivity|].
  split; [reflexivity|]. split; [vm_compute; reflexivity|].
  split; [vm_compute; reflexivity|].
  intros fuel. destruct (registry fuel _ _) as [l|] eqn:Hr; [|done].
  apply registry_chain in Hr.
  destruct l as [|a [|b [|c l]]]; simpl in Hr.
  - discriminate.
  - destruct Hr as (<- & _ & x & Hx & Hn). vm_compute in Hx.
    injection Hx as <-. discriminate.
  - destruct Hr as (<- & _ & x & Hx & <- & _ & y & Hy & Hn).
    vm_compute in Hx. injection Hx as <-. vm_compute in Hy.
    injection Hy as <-. discriminate.
  - destruct Hr as (<- & _ & x & Hx & <- & _ & y & Hy & <- & _ & z & Hz & _).
    vm_compute in Hx. injection Hx as <-. vm_compute in Hy.
    injection Hy as <-. vm_compute in Hz. discriminate.
Qed.

(** ** The mode flags *)

(** [os_calloc] clears [callocType] on each of its returns. *)
Lemma os_calloc_clears_callocType (fuel : nat) (nmemb sz p : Z) (s s' : state) :
  callocType s = 0 → os_calloc fuel nmemb sz s = Some (p, s') →
  callocType s' = 0.
Proof.
  intros Hs. unfold os_calloc. destruct (decide _); [by intros [= _ <-]|].
  destruct (os_malloc _ _ _) as [[q s1]|]; simpl; [|done].
  destruct (decide (q ≠ 0)); by intros [= _ <-].
Qed.

(** C8 fails on the code: growing the last block of the arena in place
    returns with [reallocType] still set. *)
Theorem realloc_tail_leaves_reallocType_set :
  ∃ p s, grow_last_block 2 boot = Some (p, p, s)
    ∧ sbrk_calls (trace s) = [131072; 32]
    ∧ reallocType s = 1.
Proof.
  eexists _, _. split; [vm_compute; reflexivity|]. split; reflexivity.
Qed.

(** ** [os_realloc]: the degenerate cases *)

(** C9: [os_realloc] tests its degenerate cases in this order.  A size of
    zero comes first: the call is an [os_free] of the pointer and the result
    is [NULL], so with a null pointer nothing changes, a block in use is
    marked free, a free block stays as it is, and a mapped block is unmapped
    and leaves the registry.  Otherwise a null pointer makes the call an
    [os_malloc] of the size, before any header is read.  Otherwise a block
    that is [STATUS_FREE] yields [NULL] and the state is left as it was. *)
Theorem os_realloc_degenerate_cases (fuel : nat) (ptr sz : Z) (s : state) :
  os_realloc fuel ptr 0 s = (s1 ← os_free ptr s; Some (0, s1))
  ∧ os_realloc fuel 0 0 s = Some (0, s)
  ∧ (∀ b, ptr ≠ 0 → mem s !! (ptr - sizeof_block_meta) = Some b →
          status b = STATUS_ALLOC →
          os_realloc fuel ptr 0 s
          = Some (0, with_mem (<[ptr - sizeof_block_meta :=
                                   set_status STATUS_FREE b]> (mem s)) s))
  ∧ (ptr ≠ 0 → has_status (mem s) STATUS_FREE (ptr - sizeof_block_meta) →
     os_realloc fuel ptr 0 s = Some (0, s))
  ∧ (∀ b l1 l2, ptr ≠ 0 →
          chain (mem s) (head s) (l1 ++ (ptr - sizeof_block_meta) :: l2) →
          mem s !! (ptr - sizeof_block_meta) = Some b →
          status b = STATUS_MAPPED → prev b = default 0 (last l1) →
          ∃ s', os_realloc fuel ptr 0 s = Some (0, s')
              ∧ mem s' !! (ptr - sizeof_block_meta) = None
              ∧ chain (mem s') (head s') (l1 ++ l2)
              ∧ trace s' = trace s
                           ++ [MUNMAP (ptr - sizeof_block_meta) (size b)])
  ∧ (sz ≠ 0 → os_realloc fuel 0 sz s = os_malloc fuel sz s)
  ∧ (sz ≠ 0 → ptr ≠ 0 →
     has_status (mem s) STATUS_FREE (ptr - sizeof_block_meta) →
     os_realloc fuel ptr sz s = Some (0, s)).
Proof.
  assert (os_realloc fuel ptr 0 s = (s1 ← os_free ptr s; Some (0, s1))) as Hzero.
  { unfold os_realloc. by rewrite decide_True. }
  split; [done|]. split; [|split; [|split; [|split; [|split]]]].
  - unfold os_realloc. rewrite decide_True by done.
    unfold os_free. by rewrite decide_True.
  - intros b Hptr Hb Hst. rewrite Hzero. unfold os_free.
    rewrite decide_False by done. rewrite Hb. simpl.
    rewrite decide_True by done. rewrite (store_Some _ _ _ _ Hb). simpl.
    rewrite lookup_insert_eq. simpl. done.
  - intros Hptr (b & Hb & Hst). rewrite Hzero. unfold os_free.
    rewrite decide_False by done. rewrite Hb. simpl.
    rewrite decide_False by congruence. simpl. rewrite Hb. simpl.
    rewrite decide_False by congruence. simpl. by destruct s.
  - intros b l1 l2 Hptr Hc Hb Hst Hprev. rewrite Hzero.
    destruct (os_free_mapped_unlinks ptr s l1 l2 b Hptr Hc Hb Hst Hprev)
      as (s' & Hfree & Hc' & Htr).
    destruct (os_free_mapped_munmap ptr s s' b Hptr Hb Hst Hfree) as [_ Hgone].
    rewrite Hfree. simpl. exists s'. done.
  - intros Hsz. unfold os_realloc. rewrite decide_False by done.
    by rewrite decide_True.
  - intros Hsz Hptr (b & Hb & Hst). unfold os_realloc.
    rewrite !decide_False by done. rewrite Hb. simpl.
    by rewrite decide_True.
Qed.

Lemma os_realloc_degenerate_cases_witness :
  os_realloc 4 4096032 0 mapped_between
  = Some (0, with_mem (<[4096032 - sizeof_block_meta :=
                           set_status STATUS_FREE
                             (BlockMeta 131040 STATUS_ALLOC 0 8192000)]>
                         (mem mapped_between)) mapped_between)
  ∧ os_realloc 4 4096032 0 two_free_blocks = Some (0, two_free_blocks)
  ∧ (∃ s', os_realloc 4 8192032 0 mapped_between = Some (0, s')
         ∧ mem s' !! (8192032 - sizeof_block_meta) = None
         ∧ chain (mem s') (head s') ([4096000] ++ [4227072])
         ∧ trace s' = trace mapped_between
                      ++ [MUNMAP (8192032 - sizeof_block_meta)
                            (size (BlockMeta 204832 STATUS_MAPPED 4096000 4227072))])
  ∧ os_realloc 4 0 24 mapped_between = os_malloc 4 24 mapped_between
  ∧ (∃ p s', os_realloc 4 0 24 mapped_between = Some (p, s') ∧ p ≠ 0
           ∧ has_status (mem s') STATUS_ALLOC (p - sizeof_block_meta))
  ∧ os_realloc 4 4096032 24 two_free_blocks = Some (0, two_free_blocks).
Proof.
  split; [|split; [|split; [|split; [|split]]]].
  - apply (proj1 (proj2 (proj2
      (os_realloc_degenerate_cases 4 4096032 24 mapped_between)))).
    + lia.
    + vm_compute. reflexivity.
    + reflexivity.
  - apply (proj1 (proj2 (proj2 (proj2
      (os_realloc_degenerate_cases 4 4096032 24 two_free_blocks))))).
    + lia.
    + eexists. split; [vm_compute; reflexivity|reflexivity].
  - apply (proj1 (proj2 (proj2 (proj2 (proj2
      (os_realloc_degenerate_cases 4 8192032 24 mapped_between)))))
      (BlockMeta 204832 STATUS_MAPPED 4096000 4227072) [4096000] [4227072]).
    + lia.
    + apply (registry_chain 4). vm_compute. reflexivity.
    + vm_compute. reflexivity.
    + reflexivity.
    + reflexivity.
  - apply (proj1 (proj2 (proj2 (proj2 (proj2 (proj2
      (os_realloc_degenerate_cases 4 0 24 mapped_between))))))). lia.
  - rewrite (proj1 (proj2 (proj2 (proj2 (proj2 (proj2
      (os_realloc_degenerate_cases 4 0 24 mapped_between)))))))
      by lia.
    eexists _, _. split; [vm_compute; reflexivity|].
    split; [discriminate|].
    eexists. split; [vm_compute; reflexivity|reflexivity].
  - apply (proj2 (proj2 (proj2 (proj2 (proj2 (proj2
      (os_realloc_degenerate_cases 4 4096032 24 two_free_blocks))))))).
    + lia.
    + lia.
    + eexists. split; [vm_compute; reflexivity|reflexivity].
Defined.

(** ** The pointer [os_malloc] returns names a header *)

Lemma store_keeps (f : block_meta → block_meta) (p : Z) (m m' : memory) :
  store f p m = Some m' →
  is_Some (m' !! p) ∧ ∀ q, is_Some (m !! q) → is_Some (m' !! q).
Proof.
  intros H. apply store_inv in H as (b & Hb & ->). split.
  - rewrite lookup_insert_eq. eauto.
  - intros q Hq. apply lookup_insert_is_Some'. by right.
Qed.

Lemma init_is_Some (f : block_meta → block_meta) (p : Z) (m : memory) :
  is_Some (init f p m !! p).
Proof. unfold init. rewrite lookup_insert_eq. eauto. Qed.

Lemma searchAndSplit_header (fuel : nat) (hd sz r : Z) (m m' : memory) :
  searchAndSplit fuel hd sz m = Some (r, m') → r ≠ 0 → is_Some (m' !! r).
Proof.
  unfold searchAndSplit.
  destruct (searchAndSplit_loop _ _ _ _ _) as [bf|]; simpl; [|done].
  destruct (decide (bf ≠ 0)) as [Hbf|Hbf].
  2:{ intros [= <- <-] Hr. done. }
  destruct (store _ bf m) as [m1|] eqn:H1; simpl; [|done].
  destruct (m1 !! bf) as [b1|] eqn:Hb1; simpl; [|done].
  destruct (decide _).
  2:{ intros [= <- <-] _. rewrite Hb1. eauto. }
  match goal with |- context [store ?f bf ?mm] =>
    destruct (store f bf mm) as [m4|] eqn:H4; simpl; [|done] end.
  destruct (m4 !! bf) as [b4|]; simpl; [|done].
  match goal with |- context [store ?f bf ?mm] =>
    destruct (store f bf mm) as [m6|] eqn:H6; simpl; [|done] end.
  apply store_keeps in H6 as [Hbf6 _].
  intros [= <- <-] _. by apply init_lookup_is_Some.
Qed.

Lemma extendHeap_header (fuel : nat) (hd sz r : Z) (s s' : state) :
  extendHeap fuel hd sz 0 s = Some (r, s') → r ≠ 0 → is_Some (mem s' !! r).
Proof.
  unfold extendHeap.
  destruct (mem s !! hd) as [t|]; simpl; [|done].
  destruct (lastBlock _ _ _) as [tmp|]; simpl; [|done].
  destruct (mem s !! tmp) as [lb|]; simpl; [|done].
  destruct (decide _).
  2:{ intros [= <- <-] Hr. done. }
  unfold sbrk. simpl.
  destruct (store _ tmp (mem s)) as [m1|]; simpl; [|done].
  destruct (store _ tmp m1) as [m2|]; simpl; [|done].
  destruct (store _ tmp m2) as [m3|] eqn:H3; simpl; [|done].
  apply store_keeps in H3 as [Htmp _].
  intros [= <- <-] _. done.
Qed.

Lemma allocateSbrk_header (fuel : nat) (n blk : Z) (s s' : state) :
  allocateSbrk fuel n s = Some (blk, s') → is_Some (mem s' !! blk).
Proof.
  unfold allocateSbrk, sbrk. cbv zeta. simpl mem. simpl head.
  rewrite init_header.
  destruct (insertInList _ _ _ _) as [[hd m5]|] eqn:Hins; simpl; [|done].
  intros [= <- <-]. simpl.
  destruct (insertInList_content _ _ _ _ _ _ Hins (brk s)) as [Hsize _].
  rewrite lookup_insert_eq in Hsize.
  destruct (m5 !! brk s); [eauto|done].
Qed.

Lemma arenaAlloc_header (fuel : nat) (total blk : Z) (s s' : state) :
  arenaAlloc fuel total s = Some (blk, s') → is_Some (mem s' !! blk).
Proof.
  unfold arenaAlloc. destruct (decide (preallocHeap s = 0)).
  { apply allocateSbrk_header. }
  unfold tryAll.
  destruct (mergeFreeBlocks _ _ _ _) as [m1|]; simpl; [|done].
  destruct (searchAndSplit _ _ _ _) as [[r m2]|] eqn:Hss; simpl; [|done].
  destruct (decide (r ≠ 0)) as [Hr|Hr].
  - simpl. rewrite decide_False by done. intros [= <- <-]. simpl.
    by eapply searchAndSplit_header.
  - destruct (extendHeap _ _ _ _ _) as [[r' s1]|] eqn:Hext; simpl; [|done].
    destruct (decide (r' = 0)).
    + apply allocateSbrk_header.
    + intros [= <- <-]. by eapply extendHeap_header.
Qed.

(** Whenever [os_malloc] returns for a non-zero size, the pointer stands
    right behind a header that is in memory. *)
Lemma os_malloc_header (fuel : nat) (sz p : Z) (s s' : state) :
  0 < sz → os_malloc fuel sz s = Some (p, s') →
  is_Some (mem s' !! (p - sizeof_block_meta)).
Proof.
  intros Hsz. unfold os_malloc. rewrite decide_False by lia.
  destruct (decide _).
  - destruct (allocateMmap _ _ _) as [[blk s1]|] eqn:Hrun; simpl; [|done].
    intros [= <- <-].
    replace (blk + sizeof_block_meta - sizeof_block_meta) with blk by lia.
    destruct (allocateMmap_block _ _ _ _ _ Hrun) as (_ & Hsize & _).
    destruct (mem s1 !! blk); [eauto|done].
  - destruct (arenaAlloc _ _ _) as [[blk s1]|] eqn:Hrun; simpl; [|done].
    intros [= <- <-].
    replace (blk + sizeof_block_meta - sizeof_block_meta) with blk by lia.
    by eapply arenaAlloc_header.
Qed.

(** C10: [os_calloc] multiplies [nmemb] by [size] in [size_t] and checks
    nothing: whenever it returns a pointer that is not [NULL], the pointer
    stands right behind a header that is in memory and the bytes it zeroes
    are [ALIGN ((nmemb * size) mod 2 ^ 64)]; and there are non-zero
    arguments whose product exceeds [size_t] for which it returns the
    payload of a block in use, the one block of the registry, and zeroes
    fewer bytes than the product. *)
Theorem os_calloc_product_wraps :
  (∀ fuel nmemb sz s p s',
     os_calloc fuel nmemb sz s = Some (p, s') → p ≠ 0 →
     is_Some (mem s' !! (p - sizeof_block_meta))
     ∧ last (trace s') = Some (MEMSET p (ALIGN ((nmemb * sz) mod 2 ^ 64))))
  ∧ (∃ nmemb sz p s' b,
       0 < nmemb < 2 ^ 64 ∧ 0 < sz < 2 ^ 64 ∧ 2 ^ 64 ≤ nmemb * sz
       ∧ os_calloc 1 nmemb sz boot = Some (p, s') ∧ p ≠ 0
       ∧ mem s' !! (p - sizeof_block_meta) = Some b
       ∧ status b = STATUS_ALLOC
       ∧ ALIGN ((nmemb * sz) mod 2 ^ 64) ≤ size b
       ∧ chain (mem s') (head s') [p - sizeof_block_meta]
       ∧ last (trace s') = Some (MEMSET p (ALIGN ((nmemb * sz) mod 2 ^ 64)))
       ∧ ALIGN ((nmemb * sz) mod 2 ^ 64) < nmemb * sz).
Proof.
  split.
  - intros fuel nmemb sz s p s' Hrun Hp. unfold os_calloc in Hrun.
    destruct (decide (nmemb = 0 ∨ sz = 0)).
    { injection Hrun as <- <-. done. }
    destruct (os_malloc _ _ _) as [[q s1]|] eqn:Hmalloc; simpl in Hrun; [|done].
    destruct (decide (q ≠ 0)) as [Hq|Hq].
    2:{ injection Hrun as <- <-. done. }
    injection Hrun as <- <-. simpl. split; [|by rewrite last_snoc].
    destruct (decide (0 < ALIGN (wrap (nmemb * sz)))) as [Hpos|Hnpos].
    + by eapply os_malloc_header.
    + unfold os_malloc in Hmalloc. rewrite decide_True in Hmalloc by lia.
      injection Hmalloc as <- <-. done.
  - exists (2 ^ 63 + 8), 2. eexists _, _, _.
    split; [lia|]. split; [lia|]. split; [lia|].
    split; [vm_compute; reflexivity|].
    split; [discriminate|].
    split; [vm_compute; reflexivity|].
    split; [reflexivity|].
    split; [vm_compute; discriminate|].
    split; [apply (registry_chain 2); vm_compute; reflexivity|].
    split; [reflexivity|]. reflexivity.
Qed.

Lemma os_calloc_product_wraps_witness :
  ∃ p s', os_calloc 1 (2 ^ 63 + 8) 2 boot = Some (p, s') ∧ p ≠ 0
        ∧ is_Some (mem s' !! (p - sizeof_block_meta))
        ∧ last (trace s') = Some (MEMSET p 16).
Proof.
  eexists _, _. split; [vm_compute; reflexivity|].
  split; [discriminate|].
  apply (proj1 os_calloc_product_wraps 1%nat (2 ^ 63 + 8) 2 boot).
  - vm_compute. reflexivity.
  - discriminate.
Defined.

(** * Further properties of the code *)

(** ** The [ALIGN] macro *)

Lemma land_align_mask (y : Z) :
  0 ≤ y < 2 ^ 64 → Z.land y (wrap (Z.lnot (ALIGNMENT - 1))) = y / 8 * 8.
Proof.
  intros Hy.
  assert (wrap (Z.lnot (ALIGNMENT - 1)) = Z.land (Z.ones 64) (Z.lnot (Z.ones 3)))
    as -> by reflexivity.
  rewrite Z.land_assoc, Z.land_ones by lia.
  rewrite Z.mod_small by lia.
  rewrite <- Z.ldiff_land, Z.ldiff_ones_r by lia.
  rewrite Z.shiftl_mul_pow2, Z.shiftr_div_pow2 by lia. done.
Qed.

Lemma ALIGN_div (n : Z) : 0 ≤ n ≤ 2 ^ 64 - 8 → ALIGN n = (n + 7) / 8 * 8.
Proof.
  intros Hn. unfold ALIGN.
  assert (ALIGNMENT - 1 = 7) as -> by reflexivity.
  rewrite (wrap_small (n + 7)) by lia.
  apply land_align_mask. lia.
Qed.

Lemma ALIGN_bounds (n : Z) :
  0 ≤ n ≤ 2 ^ 64 - 8 → n ≤ ALIGN n < n + 8 ∧ ALIGN n mod 8 = 0.
Proof.
  intros Hn. rewrite ALIGN_div by done.
  pose proof (Z.div_mod (n + 7) 8 ltac:(lia)) as Hdm.
  pose proof (Z.mod_pos_bound (n + 7) 8 ltac:(lia)) as Hm.
  split; [lia|]. apply Z.mod_mul. lia.
Qed.

Lemma ALIGN_idem (n : Z) : 0 ≤ n ≤ 2 ^ 64 - 8 → ALIGN (ALIGN n) = ALIGN n.
Proof.
  intros Hn. destruct (ALIGN_bounds n Hn) as [Hb Hm].
  apply Z.mod_divide in Hm as [k Hk]; [|lia].
  rewrite (ALIGN_div (ALIGN n)) by lia. rewrite Hk.
  replace (k * 8 + 7) with (7 + k * 8) by lia.
  rewrite Z.div_add by lia. rewrite (Z.div_small 7 8) by lia. lia.
Qed.

Lemma ALIGN_overflow (n : Z) : 2 ^ 64 - 8 < n < 2 ^ 64 → ALIGN n = 0.
Proof.
  intros Hn. unfold ALIGN.
  assert (ALIGNMENT - 1 = 7) as -> by reflexivity.
  assert (wrap (n + 7) = n + 7 - 2 ^ 64) as ->.
  { unfold wrap. symmetry. apply (Z.mod_unique _ _ 1); lia. }
  rewrite land_align_mask by lia.
  rewrite Z.div_small by lia. done.
Qed.

(** X1: for a size that leaves room, [ALIGN] gives the least multiple of 8
    that is not below it; for the seven largest values of [size_t] the
    addition wraps and [ALIGN] gives 0. *)
Theorem ALIGN_rounds_up (n : Z) :
  (0 ≤ n ≤ 2 ^ 64 - 8 → n ≤ ALIGN n < n + 8 ∧ ALIGN n mod 8 = 0)
  ∧ (2 ^ 64 - 8 < n < 2 ^ 64 → ALIGN n = 0).
Proof.
  split; [apply ALIGN_bounds|apply ALIGN_overflow].
Qed.

Lemma ALIGN_rounds_up_witness :
  (100 ≤ ALIGN 100 < 100 + 8 ∧ ALIGN 100 mod 8 = 0)
  ∧ ALIGN (2 ^ 64 - 1) = 0.
Proof.
  split.
  - apply (proj1 (ALIGN_rounds_up 100)). lia.
  - apply (proj2 (ALIGN_rounds_up (2 ^ 64 - 1))). lia.
Defined.

(** ** Mapped blocks *)

Lemma allocateMmap_spec (fuel : nat) (n : Z) (s : state) (l : list Z) :
  chain (mem s) (head s) l → mmap_next s ∉ l → (length l ≤ fuel)%nat →
  allocateMmap fuel n s
  = Some (mmap_next s,
          State (appended (mem s) l (mmap_next s)
                   (BlockMeta n STATUS_MAPPED 0 0))
                (if decide (head s = 0) then mmap_next s else head s)
                (preallocHeap s) (callocType s) (reallocType s)
                (brk s) (mmap_next s + page_round (pagesize s) n) (pagesize s)
                (trace s ++ [MMAP n])).
Proof.
  intros Hc Hfresh Hf. unfold allocateMmap, mmap. cbv zeta. simpl mem. simpl head.
  rewrite init_header. unfold appended.
  destruct (last l) as [z|] eqn:Hz.
  - pose proof (last_elem_of _ _ Hz) as Hzin.
    destruct (chain_lookup _ _ _ _ Hc Hzin) as [Hz0 [bz Hbz]].
    assert (mmap_next s ≠ z) as Hne by (intros Heq; rewrite Heq in Hfresh; done).
    assert (head s ≠ 0) as Hh.
    { destruct l as [|x l']; [done|]. by destruct Hc as (-> & ? & _). }
    erewrite insertInList_tail; eauto.
    2:{ eapply chain_insert_ne; eauto. }
    2:{ rewrite lookup_insert_ne by done. done. }
    2:{ apply lookup_insert_eq. }
    simpl. rewrite decide_False by done. do 3 f_equal.
    unfold with_head, with_mem. simpl. f_equal.
    apply map_eq. intros i.
    destruct (decide (i = mmap_next s)) as [->|Hi].
    + by rewrite !lookup_insert_eq.
    + rewrite !(lookup_insert_ne _ (mmap_next s)) by done.
      destruct (decide (i = z)) as [->|Hiz].
      * rewrite lookup_insert_eq, lookup_alter_eq. by rewrite Hbz.
      * rewrite lookup_insert_ne, lookup_alter_ne, lookup_insert_ne by done. done.
  - apply last_None in Hz. subst l. simpl in Hc. rewrite Hc.
    erewrite insertInList_empty by apply lookup_insert_eq.
    simpl. rewrite insert_insert_eq. done.
Qed.

(** X2: a request whose total reaches [MMAP_THRESHOLD] is served by one
    [mmap] of exactly the aligned size plus the header, without touching the
    break; the new block is [STATUS_MAPPED], stores that total as its size,
    and becomes the last block of the registry. *)
Theorem os_malloc_large_is_mapped (fuel : nat) (sz : Z) (s : state) (l : list Z) :
  0 < sz → callocType s = 0 → MMAP_THRESHOLD ≤ wrap (ALIGN sz + META) →
  chain (mem s) (head s) l → mmap_next s ∉ l → 0 < mmap_next s →
  (length l ≤ fuel)%nat →
  ∃ s', os_malloc fuel sz s = Some (mmap_next s + META, s')
      ∧ trace s' = trace s ++ [MMAP (wrap (ALIGN sz + META))]
      ∧ mem s' !! mmap_next s
        = Some (BlockMeta (wrap (ALIGN sz + META)) STATUS_MAPPED
                          (default 0 (last l)) 0)
      ∧ chain (mem s') (head s') (l ++ [mmap_next s])
      ∧ brk s' = brk s ∧ preallocHeap s' = preallocHeap s.
Proof.
  intros Hsz Hcal Habove Hc Hfresh Hpos Hf.
  rewrite os_malloc_mmap by done.
  erewrite allocateMmap_spec by eauto. simpl.
  eexists. split; [reflexivity|]. simpl.
  split; [done|]. split; [apply appended_lookup_new|].
  split; [|done]. apply chain_appended; [done|done|lia|done].
Qed.

Lemma os_malloc_large_is_mapped_witness :
  ∃ s', os_malloc 1 (200 * 1024) boot = Some (8192000 + META, s')
      ∧ trace s' = [MMAP (wrap (ALIGN (200 * 1024) + META))]
      ∧ mem s' !! 8192000
        = Some (BlockMeta (wrap (ALIGN (200 * 1024) + META)) STATUS_MAPPED 0 0)
      ∧ chain (mem s') (head s') [8192000]
      ∧ brk s' = 4096000 ∧ preallocHeap s' = 0.
Proof.
  apply (os_malloc_large_is_mapped 1 (200 * 1024) boot []);
    simpl; try reflexivity; try lia.
  - vm_compute. discriminate.
  - apply not_elem_of_nil.
Defined.

(** [os_free] leaves the kernel side and the flags alone; the only system
    call it can make is one [munmap]. *)
Lemma os_free_frame (ptr : Z) (s s' : state) :
  os_free ptr s = Some s' →
  brk s' = brk s ∧ mmap_next s' = mmap_next s ∧ pagesize s' = pagesize s
  ∧ preallocHeap s' = preallocHeap s ∧ callocType s' = callocType s
  ∧ reallocType s' = reallocType s
  ∧ (trace s' = trace s
     ∨ ∃ n, trace s' = trace s ++ [MUNMAP (ptr - sizeof_block_meta) n]).
Proof.
  unfold os_free. destruct (decide (ptr = 0)).
  { intros [= <-]. repeat split; auto. }
  destruct (mem s !! _) as [b|]; simpl; [|done].
  destruct (if decide (status b = STATUS_ALLOC) then _ else _) as [m1|];
    simpl; [|done].
  destruct (m1 !! _) as [b1|]; simpl; [|done].
  destruct (decide (status b1 = STATUS_MAPPED)).
  - destruct (store _ _ m1) as [m2|]; simpl; [|done].
    destruct (deleteBlock _ _ m2) as [[hd m3]|]; simpl; [|done].
    destruct (m3 !! _) as [b3|]; simpl; [|done].
    intros [= <-]. simpl. repeat split; eauto.
  - intros [= <-]. simpl. repeat split; auto.
Qed.

(** X3: allocating a mapped block and freeing it again gives the registry
    back as it was, and the length unmapped is the length mapped. *)
Theorem malloc_free_mapped_round_trip
    (fuel : nat) (sz : Z) (s : state) (l : list Z) :
  0 < sz → callocType s = 0 → MMAP_THRESHOLD ≤ wrap (ALIGN sz + META) →
  chain (mem s) (head s) l → mmap_next s ∉ l → 0 < mmap_next s →
  (length l ≤ fuel)%nat →
  ∃ p s1 s2, os_malloc fuel sz s = Some (p, s1)
      ∧ os_free p s1 = Some s2
      ∧ chain (mem s2) (head s2) l
      ∧ trace s2 = trace s ++ [MMAP (wrap (ALIGN sz + META));
                               MUNMAP (p - META) (wrap (ALIGN sz + META))]
      ∧ brk s2 = brk s.
Proof.
  intros Hsz Hcal Habove Hc Hfresh Hpos Hf.
  pose proof META_eq as HM.
  rewrite os_malloc_mmap by done.
  erewrite allocateMmap_spec by eauto. simpl.
  match goal with |- ∃ p s1 s2, Some (_, ?st) = _ ∧ _ =>
    destruct (os_free_mapped_unlinks (mmap_next s + sizeof_block_meta) st l []
                (BlockMeta (wrap (ALIGN sz + META)) STATUS_MAPPED
                           (default 0 (last l)) 0)) as (s2 & Hfree & Hc2 & Htr)
  end.
  - unfold sizeof_block_meta. lia.
  - unfold sizeof_block_meta.
    replace (mmap_next s + 32 - 32) with (mmap_next s) by lia. simpl.
    pose proof (chain_appended (mem s) l (head s) (mmap_next s)
      (BlockMeta (wrap (ALIGN sz + META)) STATUS_MAPPED 0 0) Hc Hfresh) as Happ.
    apply Happ; [lia|done].
  - unfold sizeof_block_meta.
    replace (mmap_next s + 32 - 32) with (mmap_next s) by lia. simpl.
    apply appended_lookup_new.
  - done.
  - done.
  - eexists _, _, s2. split; [reflexivity|]. split; [exact Hfree|].
    rewrite app_nil_r in Hc2. split; [done|]. split.
    + rewrite Htr. simpl. rewrite <- app_assoc. simpl.
      unfold sizeof_block_meta. rewrite HM. done.
    + apply os_free_frame in Hfree as (-> & _). done.
Qed.

Lemma malloc_free_mapped_round_trip_witness :
  ∃ p s1 s2, os_malloc 1 (200 * 1024) boot = Some (p, s1)
      ∧ os_free p s1 = Some s2
      ∧ chain (mem s2) (head s2) []
      ∧ trace s2 = [MMAP (wrap (ALIGN (200 * 1024) + META));
                    MUNMAP (p - META) (wrap (ALIGN (200 * 1024) + META))]
      ∧ brk s2 = 4096000.
Proof.
  apply (malloc_free_mapped_round_trip 1 (200 * 1024) boot []);
    simpl; try reflexivity; try lia.
  - vm_compute. discriminate.
  - apply not_elem_of_nil.
Defined.

(** X4: wherever a mapped block stands in the registry, if its [prev] names
    the block in front of it (or is [NULL] for the head), [os_free] takes it
    out of the registry, leaves the order of the others, and unmaps the
    number of bytes stored in its header. *)
Theorem os_free_mapped_block_leaves_registry
    (ptr : Z) (s : state) (l1 l2 : list Z) (b : block_meta) :
  ptr ≠ 0 →
  chain (mem s) (head s) (l1 ++ (ptr - sizeof_block_meta) :: l2) →
  mem s !! (ptr - sizeof_block_meta) = Some b → status b = STATUS_MAPPED →
  prev b = default 0 (last l1) →
  ∃ s', os_free ptr s = Some s'
      ∧ chain (mem s') (head s') (l1 ++ l2)
      ∧ trace s' = trace s ++ [MUNMAP (ptr - sizeof_block_meta) (size b)].
Proof. exact (os_free_mapped_unlinks ptr s l1 l2 b). Qed.

(** X5: the only system call [os_free] can make is one [munmap] at the
    header of its block; it never moves the break, never maps, and leaves
    the three flags as they are. *)
Theorem os_free_only_unmaps (ptr : Z) (s s' : state) :
  os_free ptr s = Some s' →
  brk s' = brk s ∧ mmap_next s' = mmap_next s ∧ pagesize s' = pagesize s
  ∧ preallocHeap s' = preallocHeap s ∧ callocType s' = callocType s
  ∧ reallocType s' = reallocType s
  ∧ (trace s' = trace s
     ∨ ∃ n, trace s' = trace s ++ [MUNMAP (ptr - sizeof_block_meta) n]).
Proof. exact (os_free_frame ptr s s'). Qed.

Lemma os_free_only_unmaps_witness :
  brk two_free_blocks = brk shrunk_slab
  ∧ mmap_next two_free_blocks = mmap_next shrunk_slab
  ∧ pagesize two_free_blocks = pagesize shrunk_slab
  ∧ preallocHeap two_free_blocks = preallocHeap shrunk_slab
  ∧ callocType two_free_blocks = callocType shrunk_slab
  ∧ reallocType two_free_blocks = reallocType shrunk_slab
  ∧ (trace two_free_blocks = trace shrunk_slab
     ∨ ∃ n, trace two_free_blocks
            = trace shrunk_slab ++ [MUNMAP (4096032 - sizeof_block_meta) n]).
Proof.
  apply (os_free_only_unmaps 4096032 shrunk_slab two_free_blocks).
  vm_compute. reflexivity.
Defined.

(** ** Arena blocks: free, shrink, grow *)

(** X6: freeing an arena block in use only writes [STATUS_FREE] into its
    header: size and links stay, nothing is coalesced, no system call is
    made; and freeing it a second time changes nothing. *)
Theorem os_free_arena_block_only_marks (ptr : Z) (s : state) (b : block_meta) :
  ptr ≠ 0 → mem s !! (ptr - sizeof_block_meta) = Some b →
  status b = STATUS_ALLOC →
  ∃ s', os_free ptr s = Some s'
      ∧ mem s' = <[ptr - sizeof_block_meta := set_status STATUS_FREE b]> (mem s)
      ∧ head s' = head s ∧ trace s' = trace s ∧ brk s' = brk s
      ∧ os_free ptr s' = Some s'.
Proof.
  intros Hptr Hb Hst. unfold os_free at 1. rewrite decide_False by done.
  rewrite Hb. simpl. rewrite decide_True by done.
  rewrite (store_Some _ _ _ _ Hb). simpl. rewrite lookup_insert_eq. simpl.
  eexists. split; [reflexivity|]. simpl.
  split; [done|]. split; [done|]. split; [done|]. split; [done|].
  unfold os_free. rewrite decide_False by done. simpl.
  rewrite lookup_insert_eq. simpl. rewrite lookup_insert_eq. simpl. done.
Qed.

Lemma os_free_arena_block_only_marks_witness :
  ∃ s', os_free 4096032 slab_in_use = Some s'
      ∧ mem s' = <[4096032 - sizeof_block_meta := set_status STATUS_FREE slab_header]>
                   (mem slab_in_use)
      ∧ head s' = head slab_in_use ∧ trace s' = trace slab_in_use
      ∧ brk s' = brk slab_in_use
      ∧ os_free 4096032 s' = Some s'.
Proof.
  apply (os_free_arena_block_only_marks 4096032 slab_in_use slab_header).
  - lia.
  - vm_compute. reflexivity.
  - reflexivity.
Defined.

Lemma splitRealloc_split (memBlock sz : Z) (m : memory) (b : block_meta) :
  m !! memBlock = Some b → 0 ≤ sz →
  sz + META + ALIGN 1 ≤ size b → size b < 2 ^ 64 →
  splitRealloc memBlock sz m
  = Some (memBlock,
          <[memBlock + sz + META :=
              BlockMeta (size b - sz - META) STATUS_FREE memBlock (next b)]>
            (<[memBlock := BlockMeta sz (status b) (prev b) (memBlock + sz + META)]> m)).
Proof.
  intros Hb Hsz Hfit Hmax. pose proof META_eq as HM. pose proof ALIGN_1 as HA.
  unfold splitRealloc. rewrite Hb. simpl.
  rewrite (wrap_small (sz + META)) by lia.
  rewrite (wrap_small (ALIGN 1 + (sz + META))) by lia.
  rewrite decide_True by lia. cbv zeta.
  rewrite (wrap_small (size b - (sz + META))) by lia.
  assert (memBlock + sz + META ≠ memBlock) as Hne by lia.
  unfold init. map_lookup. rewrite Hb. simpl.
  erewrite store_Some by (map_lookup; exact Hb). simpl.
  erewrite store_Some by (map_lookup; reflexivity). simpl.
  f_equal. f_equal. apply map_eq. intros i.
  destruct (decide (i = memBlock + sz + META)) as [->|Hi];
    [|destruct (decide (i = memBlock)) as [->|Him]]; map_lookup; simpl.
  - f_equal. unfold set_prev, set_next, set_status, set_size. simpl. f_equal. lia.
  - done.
  - done.
Qed.

Lemma splitRealloc_keep (memBlock sz : Z) (m : memory) (b : block_meta) :
  m !! memBlock = Some b → 0 ≤ sz → size b < sz + META + ALIGN 1 →
  sz + META + ALIGN 1 < 2 ^ 64 →
  splitRealloc memBlock sz m = Some (memBlock, m).
Proof.
  intros Hb Hsz Hfit Hmax. pose proof META_eq as HM. pose proof ALIGN_1 as HA.
  unfold splitRealloc. rewrite Hb. simpl.
  rewrite (wrap_small (sz + META)) by lia.
  rewrite (wrap_small (ALIGN 1 + (sz + META))) by lia.
  rewrite decide_False by lia. done.
Qed.

Lemma ALIGN_range (n : Z) : 0 ≤ ALIGN n < 2 ^ 64.
Proof.
  unfold ALIGN.
  assert (0 ≤ wrap (n + (ALIGNMENT - 1)) < 2 ^ 64) as Hy
    by (unfold wrap; apply Z.mod_pos_bound; lia).
  rewrite land_align_mask by done.
  pose proof (Z.div_mod (wrap (n + (ALIGNMENT - 1))) 8 ltac:(lia)) as Hdm.
  pose proof (Z.mod_pos_bound (wrap (n + (ALIGNMENT - 1))) 8 ltac:(lia)) as Hm.
  pose proof (Z.div_pos (wrap (n + (ALIGNMENT - 1))) 8 ltac:(lia) ltac:(lia)).
  lia.
Qed.



(** X8: reallocating the last block of the registry to a larger size grows
    it in place: one [sbrk] of exactly the missing bytes, the same pointer,
    the new size in the header.  The call returns with [reallocType] set. *)
Theorem os_realloc_grows_last_block
    (fuel : nat) (ptr n : Z) (s : state) (b : block_meta) :
  ptr ≠ 0 → ptr - sizeof_block_meta ≠ 0 → 0 < n →
  mem s !! (ptr - sizeof_block_meta) = Some b → status b = STATUS_ALLOC →
  next b = 0 → 0 ≤ size b < ALIGN n →
  ∃ s', os_realloc fuel ptr n s = Some (ptr, s')
      ∧ trace s' = trace s ++ [SBRK (ALIGN n - size b)]
      ∧ brk s' = brk s + to_signed (ALIGN n - size b)
      ∧ mem s' = <[ptr - sizeof_block_meta :=
                     BlockMeta (ALIGN n) STATUS_ALLOC (prev b) 0]> (mem s)
      ∧ head s' = head s ∧ reallocType s' = 1.
Proof.
  intros Hptr Hblk Hn Hb Hst Hnext Hsize.
  pose proof (ALIGN_range n) as Hr.
  unfold os_realloc. rewrite !decide_False by (done || lia).
  rewrite Hb. simpl. rewrite decide_False by congruence.
  rewrite decide_False by lia. rewrite decide_False by congruence.
  rewrite decide_False by lia.
  rewrite (decide_False (P := next b ≠ 0)) by (intros H; by apply H).
  unfold extendHeap. simpl. rewrite Hb. simpl.
  rewrite decide_True by done. unfold sbrk. simpl.
  rewrite (store_Some _ _ _ _ Hb). simpl.
  erewrite store_Some by apply lookup_insert_eq. simpl.
  erewrite store_Some by apply lookup_insert_eq. simpl.
  rewrite !insert_insert_eq. rewrite wrap_small by lia.
  replace (ptr - sizeof_block_meta + sizeof_block_meta) with ptr by lia.
  rewrite decide_True by done.
  eexists. split; [reflexivity|]. simpl. done.
Qed.

Lemma os_realloc_grows_last_block_witness :
  ∃ s', os_realloc 1 4096032 (128 * 1024) slab_in_use = Some (4096032, s')
      ∧ trace s' = trace slab_in_use ++ [SBRK (ALIGN (128 * 1024) - size slab_header)]
      ∧ brk s' = brk slab_in_use + to_signed (ALIGN (128 * 1024) - size slab_header)
      ∧ mem s' = <[4096032 - sizeof_block_meta :=
                     BlockMeta (ALIGN (128 * 1024)) STATUS_ALLOC (prev slab_header) 0]>
                   (mem slab_in_use)
      ∧ head s' = head slab_in_use ∧ reallocType s' = 1.
Proof.
  apply (os_realloc_grows_last_block 1 4096032 (128 * 1024) slab_in_use slab_header).
  - lia.
  - unfold sizeof_block_meta. lia.
  - lia.
  - vm_compute. reflexivity.
  - reflexivity.
  - reflexivity.
  - vm_compute. split; [discriminate|reflexivity].
Defined.

Lemma extendRealloc_loop_finds (m : memory) (a : Z) (l : list Z) :
  ∀ fuel p, chain m p l → a ∈ l → (length l ≤ fuel)%nat →
    extendRealloc_loop fuel m p a = Some a.
Proof.
  induction l as [|x l IH]; intros fuel p Hc Ha Hf.
  - by apply elem_of_nil in Ha.
  - destruct fuel as [|fuel]; [simpl in Hf; lia|].
    destruct Hc as (-> & Hx0 & b & Hb & Hc). simpl.
    destruct (decide (x = a)) as [->|Hne].
    + rewrite decide_False by (intros [_ ?]; done). done.
    + rewrite decide_True by done. rewrite Hb. simpl.
      apply elem_of_cons in Ha as [->|Ha]; [done|].
      apply IH; [done|done|simpl in Hf; lia].
Qed.

(** X9: reallocating an arena block to a larger size when the block after
    it in the registry is free and the two together are large enough
    absorbs that block: the pointer stays, no system call is made, and the
    block keeps either the aligned size asked for (the rest being cut off
    again) or, when the rest is too small to stand alone, all the bytes of
    both blocks. *)
Theorem os_realloc_grows_into_free_successor
    (fuel : nat) (ptr n : Z) (s : state) (l : list Z) (b after : block_meta) :
  ptr ≠ 0 → 0 < n →
  chain (mem s) (head s) l → ptr - sizeof_block_meta ∈ l →
  (length l ≤ fuel)%nat →
  mem s !! (ptr - sizeof_block_meta) = Some b → status b = STATUS_ALLOC →
  next b ≠ 0 → mem s !! next b = Some after → status after = STATUS_FREE →
  0 ≤ size b → 0 ≤ size after → size b + META + size after < 2 ^ 63 →
  size b < ALIGN n ≤ size b + META + size after →
  ∃ s' b', os_realloc fuel ptr n s = Some (ptr, s')
      ∧ trace s' = trace s ∧ brk s' = brk s ∧ reallocType s' = 0
      ∧ mem s' !! (ptr - sizeof_block_meta) = Some b'
      ∧ status b' = STATUS_ALLOC ∧ prev b' = prev b
      ∧ size b' = (if decide (ALIGN n + META + ALIGN 1 ≤ size b + META + size after)
                   then ALIGN n else size b + META + size after)
      ∧ next b' = (if decide (ALIGN n + META + ALIGN 1 ≤ size b + META + size after)
                   then ptr + ALIGN n else next after).
Proof.
  intros Hptr Hn Hc Hin Hf Hb Hst Hnext Hafter Hsta Hsb Hsa Hmax Hsize.
  pose proof META_eq as HM. pose proof ALIGN_1 as HA.
  pose proof (ALIGN_range n) as Hr.
  set (blk := ptr - sizeof_block_meta) in *.
  destruct (chain_lookup _ _ _ _ Hc Hin) as [Hblk0 _].
  assert (blk ≠ next b) as Hne.
  { intros Heq. rewrite <- Heq in Hafter. rewrite Hb in Hafter.
    injection Hafter as <-. congruence. }
  unfold os_realloc. rewrite !decide_False by (done || lia). fold blk.
  rewrite Hb. simpl. rewrite decide_False by congruence.
  rewrite decide_False by lia. rewrite decide_False by congruence.
  rewrite decide_False by lia. rewrite decide_True by done.
  unfold extendRealloc.
  rewrite (extendRealloc_loop_finds _ _ l) by done. simpl.
  rewrite decide_True by done. simpl.
  unfold mergeFreeBlocks. rewrite decide_False by done. simpl.
  rewrite Hb. simpl. rewrite decide_True by done. rewrite Hafter. simpl.
  rewrite decide_True by done.
  rewrite (absorbNext_spec _ _ _ _ _ Hb eq_refl Hafter Hne). simpl.
  rewrite lookup_insert_eq. simpl.
  rewrite (wrap_small (size after + META)) by lia.
  rewrite (wrap_small (size b + (size after + META))) by lia.
  rewrite decide_True by lia.
  set (merged := BlockMeta (size b + (size after + META)) (status b) (prev b) (next after)).
  destruct (decide (ALIGN n + META + ALIGN 1 ≤ size b + META + size after))
    as [Hsplit|Hkeep].
  - rewrite (splitRealloc_split _ _ _ merged);
      [|apply lookup_insert_eq|lia|simpl; lia|simpl; lia].
    simpl. rewrite decide_True by done.
    replace (blk + sizeof_block_meta) with ptr by (unfold blk; lia).
    eexists _, _. split; [reflexivity|]. simpl.
    split; [done|]. split; [done|]. split; [done|].
    rewrite lookup_insert_ne by lia. rewrite lookup_insert_eq.
    split; [reflexivity|]. simpl. split; [done|]. split; [done|].
    split; [done|]. unfold blk, sizeof_block_meta. lia.
  - rewrite (splitRealloc_keep _ _ _ merged);
      [|apply lookup_insert_eq|lia|simpl; lia|lia].
    simpl. rewrite decide_True by done.
    replace (blk + sizeof_block_meta) with ptr by (unfold blk; lia).
    eexists _, _. split; [reflexivity|]. simpl.
    split; [done|]. split; [done|]. split; [done|].
    rewrite lookup_insert_eq.
    split; [reflexivity|]. simpl. split; [done|]. split; [done|].
    split; [lia|done].
Qed.

Lemma os_realloc_grows_into_free_successor_witness :
  ∃ s' b', os_realloc 2 4096032 200 shrunk_slab = Some (4096032, s')
      ∧ trace s' = trace shrunk_slab ∧ brk s' = brk shrunk_slab
      ∧ reallocType s' = 0
      ∧ mem s' !! (4096032 - sizeof_block_meta) = Some b'
      ∧ status b' = STATUS_ALLOC
      ∧ prev b' = prev (BlockMeta 104 STATUS_ALLOC 0 4096136)
      ∧ size b' = (if decide (ALIGN 200 + META + ALIGN 1
                              ≤ size (BlockMeta 104 STATUS_ALLOC 0 4096136) + META
                                + size (BlockMeta 130904 STATUS_FREE 4096000 0))
                   then ALIGN 200
                   else size (BlockMeta 104 STATUS_ALLOC 0 4096136) + META
                        + size (BlockMeta 130904 STATUS_FREE 4096000 0))
      ∧ next b' = (if decide (ALIGN 200 + META + ALIGN 1
                              ≤ size (BlockMeta 104 STATUS_ALLOC 0 4096136) + META
                                + size (BlockMeta 130904 STATUS_FREE 4096000 0))
                   then 4096032 + ALIGN 200
                   else next (BlockMeta 130904 STATUS_FREE 4096000 0)).
Proof.
  apply (os_realloc_grows_into_free_successor 2 4096032 200 shrunk_slab
           [4096000; 4096136]).
  - lia.
  - lia.
  - apply (registry_chain 3). vm_compute. reflexivity.
  - vm_compute. left.
  - simpl. lia.
  - vm_compute. reflexivity.
  - reflexivity.
  - simpl. lia.
  - vm_compute. reflexivity.
  - reflexivity.
  - simpl. lia.
  - simpl. lia.
  - vm_compute. reflexivity.
  - vm_compute. split; [reflexivity|discriminate].
Defined.

Example slab_in_use_reached :
  os_malloc 1 100 boot = Some (4096032, slab_in_use).
Proof. vm_compute. reflexivity. Qed.

Example mapped_between_reached :
  ('(_, s1) ← os_malloc 3 100 boot;
   '(_, s2) ← os_malloc 3 (200 * 1024) s1;
   '(_, s3) ← os_malloc 3 100 s2;
   Some s3) = Some mapped_between.
Proof. vm_compute. reflexivity. Qed.

Example shrunk_slab_reached :
  ('(p, s1) ← os_malloc 2 100 boot;
   '(_, s2) ← os_realloc 2 p 100 s1;
   Some s2) = Some shrunk_slab.
Proof. vm_compute. reflexivity. Qed.

Lemma os_free_mapped_block_leaves_registry_witness :
  ∃ s', os_free 8192032 mapped_between = Some s'
      ∧ chain (mem s') (head s') ([4096000] ++ [4227072])
      ∧ trace s' = trace mapped_between
                   ++ [MUNMAP (8192032 - sizeof_block_meta)
                              (size (BlockMeta 204832 STATUS_MAPPED 4096000 4227072))].
Proof.
  apply (os_free_mapped_block_leaves_registry 8192032 mapped_between
           [4096000] [4227072]).
  - lia.
  - apply (registry_chain 4). vm_compute. reflexivity.
  - vm_compute. reflexivity.
  - reflexivity.
  - reflexivity.
Defined.

(** ** Requests served by the break *)

(** What [os_malloc] does once the arena is in use and no block of the
    registry is free. *)
Lemma os_malloc_new_region (fuel : nat) (sz : Z) (s : state) (l : list Z) :
  preallocHeap s ≠ 0 → callocType s = 0 →
  0 < sz → wrap (ALIGN sz + META) < MMAP_THRESHOLD →
  chain (mem s) (head s) l → l ≠ [] →
  (∀ x, x ∈ l → ¬ has_status (mem s) STATUS_FREE x) →
  brk s ∉ l → (length l < fuel)%nat →
  os_malloc fuel sz s
  = Some (brk s + sizeof_block_meta,
          State (appended (mem s) l (brk s)
                   (BlockMeta (wrap (wrap (ALIGN sz + META) - META)) STATUS_ALLOC 0 0))
                (head s) (preallocHeap s) (callocType s) (reallocType s)
                (brk s + to_signed (wrap (ALIGN sz + META)))
                (mmap_next s) (pagesize s)
                (trace s ++ [SBRK (wrap (ALIGN sz + META))])).
Proof.
  intros Hpre Hcal Hsz Htot Hc Hne Hno Hfresh Hf.
  rewrite os_malloc_arena by done. unfold arenaAlloc.
  rewrite decide_False by done.
  rewrite (tryAll_nothing_free _ _ _ l) by done. simpl.
  erewrite (allocateSbrk_spec _ _ _ l) by (done || lia). simpl.
  assert (head s ≠ 0) as Hh.
  { destruct l as [|x l']; [done|]. by destruct Hc as (-> & ? & _). }
  rewrite decide_False by done. done.
Qed.

(** X10: once the arena is in use and no block is free, a request below
    the threshold is served by one [sbrk] of exactly the aligned size plus
    the header; the new block starts at the old break, is in use, holds the
    aligned size, and becomes the last block of the registry.  No header of
    the registry meets the 32 bytes at the break, where the new header is
    laid. *)
Theorem os_malloc_nothing_free_takes_new_region
    (fuel : nat) (sz : Z) (s : state) (l : list Z) :
  preallocHeap s ≠ 0 → callocType s = 0 →
  0 < sz → ALIGN sz + META < MMAP_THRESHOLD →
  chain (mem s) (head s) l → l ≠ [] →
  (∀ x, x ∈ l → ¬ has_status (mem s) STATUS_FREE x) →
  (∀ x, x ∈ l → x + META ≤ brk s ∨ brk s + META ≤ x) → 0 < brk s → (length l < fuel)%nat →
  ∃ s', os_malloc fuel sz s = Some (brk s + META, s')
      ∧ trace s' = trace s ++ [SBRK (ALIGN sz + META)]
      ∧ brk s' = brk s + (ALIGN sz + META)
      ∧ mem s' !! brk s
        = Some (BlockMeta (ALIGN sz) STATUS_ALLOC (default 0 (last l)) 0)
      ∧ chain (mem s') (head s') (l ++ [brk s]).
Proof.
  intros Hpre Hcal Hsz Hbelow Hc Hne Hno Hclear Hbrk Hf.
  pose proof META_eq as HM. pose proof (ALIGN_range sz) as Hr.
  assert (MMAP_THRESHOLD = 131072) as Hthr by reflexivity.
  assert (wrap (ALIGN sz + META) = ALIGN sz + META) as Htot
    by (apply wrap_small; lia).
  assert (brk s ∉ l) as Hfresh.
  { intros Hin. destruct (Hclear _ Hin); lia. }
  rewrite (os_malloc_new_region _ _ _ l) by (rewrite ?Htot; done).
  rewrite Htot.
  replace (ALIGN sz + META - META) with (ALIGN sz) by lia.
  rewrite (wrap_small (ALIGN sz)) by lia.
  eexists. split; [reflexivity|]. simpl.
  split; [done|]. split.
  { unfold to_signed. rewrite decide_True by lia. done. }
  split; [apply appended_lookup_new|].
  pose proof (chain_appended (mem s) l (head s) (brk s)
    (BlockMeta (ALIGN sz) STATUS_ALLOC 0 0) Hc Hfresh) as Happ.
  assert (head s ≠ 0) as Hh.
  { destruct l as [|x l']; [done|]. by destruct Hc as (-> & ? & _). }
  rewrite decide_False in Happ by done. apply Happ; [lia|done].
Qed.

Lemma os_malloc_nothing_free_takes_new_region_witness :
  ∃ s', os_malloc 2 100 slab_in_use = Some (brk slab_in_use + META, s')
      ∧ trace s' = trace slab_in_use ++ [SBRK (ALIGN 100 + META)]
      ∧ brk s' = brk slab_in_use + (ALIGN 100 + META)
      ∧ mem s' !! brk slab_in_use
        = Some (BlockMeta (ALIGN 100) STATUS_ALLOC (default 0 (last [4096000])) 0)
      ∧ chain (mem s') (head s') ([4096000] ++ [brk slab_in_use]).
Proof.
  apply (os_malloc_nothing_free_takes_new_region 2 100 slab_in_use [4096000]).
  - simpl. lia.
  - reflexivity.
  - lia.
  - vm_compute. reflexivity.
  - apply (registry_chain 2). vm_compute. reflexivity.
  - discriminate.
  - intros x Hx (b & Hb & Hst). apply list_elem_of_singleton in Hx as ->.
    vm_compute in Hb. injection Hb as <-. discriminate.
  - simpl. intros x Hx. apply list_elem_of_singleton in Hx as ->.
    rewrite META_eq. lia.
  - simpl. lia.
  - simpl. lia.
Defined.

(** X11: a size among the seven largest values of [size_t] is not refused:
    [ALIGN] wraps to 0, the total is the bare header, and the caller gets a
    block of zero bytes of payload from a [sbrk] of [META] bytes.  No header
    of the registry meets the 32 bytes at the break, where the new header is
    laid. *)
Theorem os_malloc_huge_size_gets_empty_block
    (fuel : nat) (sz : Z) (s : state) (l : list Z) :
  2 ^ 64 - 8 < sz < 2 ^ 64 →
  preallocHeap s ≠ 0 → callocType s = 0 →
  chain (mem s) (head s) l → l ≠ [] →
  (∀ x, x ∈ l → ¬ has_status (mem s) STATUS_FREE x) →
  (∀ x, x ∈ l → x + META ≤ brk s ∨ brk s + META ≤ x) → (length l < fuel)%nat →
  ∃ s', os_malloc fuel sz s = Some (brk s + META, s')
      ∧ trace s' = trace s ++ [SBRK META]
      ∧ mem s' !! brk s
        = Some (BlockMeta 0 STATUS_ALLOC (default 0 (last l)) 0).
Proof.
  intros Hsz Hpre Hcal Hc Hne Hno Hclear Hf.
  assert (ALIGN sz = 0) as Hal by (by apply ALIGN_overflow).
  assert (brk s ∉ l) as Hfresh.
  { intros Hin. pose proof META_eq. destruct (Hclear _ Hin); lia. }
  rewrite (os_malloc_new_region _ _ _ l); try done; try lia.
  2:{ rewrite Hal. vm_compute. reflexivity. }
  rewrite Hal.
  eexists. split; [reflexivity|]. simpl.
  split; [done|]. apply appended_lookup_new.
Qed.

Lemma os_malloc_huge_size_gets_empty_block_witness :
  ∃ s', os_malloc 2 (2 ^ 64 - 1) slab_in_use = Some (brk slab_in_use + META, s')
      ∧ trace s' = trace slab_in_use ++ [SBRK META]
      ∧ mem s' !! brk slab_in_use
        = Some (BlockMeta 0 STATUS_ALLOC (default 0 (last [4096000])) 0).
Proof.
  apply (os_malloc_huge_size_gets_empty_block 2 (2 ^ 64 - 1) slab_in_use [4096000]).
  - lia.
  - simpl. lia.
  - reflexivity.
  - apply (registry_chain 2). vm_compute. reflexivity.
  - discriminate.
  - intros x Hx (b & Hb & Hst). apply list_elem_of_singleton in Hx as ->.
    vm_compute in Hb. injection Hb as <-. discriminate.
  - simpl. intros x Hx. apply list_elem_of_singleton in Hx as ->.
    rewrite META_eq. lia.
  - simpl. lia.
Defined.

(** ** Growing the last block, reusing a freed one *)

(** X12: when no free block fits and the last block of the registry is
    free, [os_malloc] grows that block in place: one [sbrk] of exactly the
    bytes that are missing, and the block, now in use with the aligned size,
    is what the caller gets. *)
Theorem os_malloc_extends_last_free_block
    (fuel : nat) (sz z : Z) (s : state) (l : list Z) (bz : block_meta) :
  preallocHeap s ≠ 0 → callocType s = 0 →
  0 < sz → ALIGN sz + META < MMAP_THRESHOLD →
  chain (mem s) (head s) l → no_adjacent_free (mem s) l →
  (length l < fuel)%nat →
  (∀ x, x ∈ l → ¬ fits (mem s) (ALIGN sz) x) →
  last l = Some z → mem s !! z = Some bz → status bz = STATUS_FREE →
  0 ≤ size bz →
  ∃ s', os_malloc fuel sz s = Some (z + META, s')
      ∧ trace s' = trace s ++ [SBRK (ALIGN sz - size bz)]
      ∧ brk s' = brk s + (ALIGN sz - size bz)
      ∧ head s' = head s
      ∧ mem s' = <[z := BlockMeta (ALIGN sz) STATUS_ALLOC (prev bz) 0]> (mem s).
Proof.
  intros Hpre Hcal Hsz Hbelow Hc Hnaf Hf Hnofit Hz Hbz Hst Hsize.
  pose proof META_eq as HM. pose proof (ALIGN_range sz) as Hr.
  assert (MMAP_THRESHOLD = 131072) as Hthr by reflexivity.
  assert (wrap (ALIGN sz + META) = ALIGN sz + META) as Htot
    by (apply wrap_small; lia).
  pose proof (last_elem_of _ _ Hz) as Hzin.
  destruct (chain_lookup _ _ _ _ Hc Hzin) as [Hz0 _].
  assert (l ≠ []) as Hne by (intros ->; by apply elem_of_nil in Hzin).
  assert (size bz < ALIGN sz) as Hsmall.
  { destruct (decide (size bz < ALIGN sz)) as [|Hge]; [done|].
    exfalso. apply (Hnofit z Hzin). exists bz. repeat split; [done|done|lia]. }
  assert (head s ≠ 0) as Hh.
  { destruct l as [|x l']; [done|]. by destruct Hc as (-> & ? & _). }
  rewrite os_malloc_arena by (done || lia). rewrite Htot.
  unfold arenaAlloc. rewrite decide_False by done.
  unfold tryAll, mergeFreeBlocks. rewrite decide_False by done. simpl.
  rewrite (mergeFreeBlocks_loop_noop _ l) by (done || lia). simpl.
  assert (wrap (ALIGN sz + META - META) = ALIGN sz) as Hreq.
  { replace (ALIGN sz + META - META) with (ALIGN sz) by lia.
    apply wrap_small. lia. }
  rewrite (searchAndSplit_none _ _ _ _ l); [|done|done|by rewrite Hreq].
  simpl.
  rewrite (extendHeap_last_free _ _ _ z _ l bz); [|done|done|done|done|simpl; lia].
  simpl. rewrite decide_False by done. rewrite Hreq.
  rewrite (wrap_small (ALIGN sz - size bz)) by lia.
  replace (z + sizeof_block_meta) with (z + META) by (unfold sizeof_block_meta; lia).
  eexists. split; [reflexivity|]. simpl.
  split; [done|]. split; [|done].
  unfold to_signed. rewrite decide_True by lia. done.
Qed.

Lemma os_malloc_extends_last_free_block_witness :
  ∃ s', os_malloc 3 131000 shrunk_slab = Some (4096136 + META, s')
      ∧ trace s' = trace shrunk_slab
                   ++ [SBRK (ALIGN 131000
                             - size (BlockMeta 130904 STATUS_FREE 4096000 0))]
      ∧ brk s' = brk shrunk_slab
                 + (ALIGN 131000 - size (BlockMeta 130904 STATUS_FREE 4096000 0))
      ∧ head s' = head shrunk_slab
      ∧ mem s' = <[4096136 := BlockMeta (ALIGN 131000) STATUS_ALLOC
                                (prev (BlockMeta 130904 STATUS_FREE 4096000 0)) 0]>
                   (mem shrunk_slab).
Proof.
  apply (os_malloc_extends_last_free_block 3 131000 4096136 shrunk_slab
           [4096000; 4096136]).
  - simpl. lia.
  - reflexivity.
  - lia.
  - vm_compute. reflexivity.
  - apply (registry_chain 3). vm_compute. reflexivity.
  - simpl. split; [|done]. intros [(b & Hb & Hst) _].
    vm_compute in Hb. injection Hb as <-. discriminate.
  - simpl. lia.
  - intros x Hx (b & Hb & Hst & Hge).
    apply elem_of_cons in Hx as [->|Hx].
    + vm_compute in Hb. injection Hb as <-. discriminate.
    + apply list_elem_of_singleton in Hx as ->.
      vm_compute in Hb. injection Hb as <-. vm_compute in Hge. by apply Hge.
  - reflexivity.
  - vm_compute. reflexivity.
  - reflexivity.
  - simpl. lia.
Defined.

Lemma one_free_no_adjacent_free (m : memory) (d : Z) (l : list Z) :
  NoDup l → (∀ x, x ∈ l → has_status m STATUS_FREE x → x = d) →
  no_adjacent_free m l.
Proof.
  induction l as [|x [|y l] IH]; intros Hnd Hone; try done.
  apply NoDup_cons in Hnd as [Hx Hnd].
  split.
  - intros [Hfx Hfy]. apply Hx.
    rewrite (Hone x ltac:(left) Hfx).
    rewrite <- (Hone y ltac:(right; left) Hfy). left.
  - apply IH; [done|]. intros z Hz. apply Hone. by right.
Qed.

(** X13: freeing an arena block and asking again for a size that the block
    holds without room for a split gives the very same block back and
    restores the state exactly: no system call, no header changed. *)
Theorem free_then_malloc_restores_state
    (fuel : nat) (ptr sz : Z) (s : state) (l : list Z) (b : block_meta) :
  ptr ≠ 0 → preallocHeap s ≠ 0 → callocType s = 0 →
  0 < sz → ALIGN sz + META < MMAP_THRESHOLD →
  chain (mem s) (head s) l → (length l < fuel)%nat →
  ptr - sizeof_block_meta ∈ l →
  mem s !! (ptr - sizeof_block_meta) = Some b → status b = STATUS_ALLOC →
  (∀ x, x ∈ l → ¬ has_status (mem s) STATUS_FREE x) →
  (∀ x bx, x ∈ l → mem s !! x = Some bx → 0 ≤ size bx < 2 ^ 64) →
  ALIGN sz ≤ size b < ALIGN sz + META + ALIGN 1 →
  ∃ s1, os_free ptr s = Some s1
      ∧ has_status (mem s1) STATUS_FREE (ptr - sizeof_block_meta)
      ∧ os_malloc fuel sz s1 = Some (ptr, s).
Proof.
  intros Hptr Hpre Hcal Hsz Hbelow Hc Hf Hdin Hb Hst Hno Hsizes Hfit.
  set (d := ptr - sizeof_block_meta) in *.
  pose proof META_eq as HM. pose proof ALIGN_1 as HA.
  pose proof (ALIGN_range sz) as Hr.
  assert (MMAP_THRESHOLD = 131072) as Hthr by reflexivity.
  assert (wrap (ALIGN sz + META) = ALIGN sz + META) as Htot
    by (apply wrap_small; lia).
  destruct (chain_lookup _ _ _ _ Hc Hdin) as [Hd0 _].
  set (m1 := <[d := set_status STATUS_FREE b]> (mem s)).
  assert (os_free ptr s = Some (with_mem m1 s)) as Hfree.
  { unfold os_free. rewrite decide_False by done. fold d. rewrite Hb. simpl.
    rewrite decide_True by done. rewrite (store_Some _ _ _ _ Hb). simpl.
    rewrite lookup_insert_eq. simpl. done. }
  exists (with_mem m1 s). split; [done|]. split.
  { exists (set_status STATUS_FREE b). split; [apply lookup_insert_eq|done]. }
  assert (chain m1 (head s) l) as Hc1 by (by eapply chain_insert_next).
  assert (head s ≠ 0) as Hh.
  { destruct l as [|x l']; [by apply elem_of_nil in Hdin|].
    by destruct Hc as (-> & ? & _). }
  assert (l ≠ []) as Hne by (intros ->; by apply elem_of_nil in Hdin).
  assert (∀ x, x ∈ l → has_status m1 STATUS_FREE x → x = d) as Hone.
  { intros x Hx (bx & Hbx & Hfx). destruct (decide (x = d)) as [|Hxd]; [done|].
    exfalso. apply (Hno x Hx). exists bx. split; [|done].
    unfold m1 in Hbx. by rewrite lookup_insert_ne in Hbx. }
  rewrite os_malloc_arena by (done || lia). rewrite Htot.
  unfold arenaAlloc. rewrite decide_False by done.
  unfold tryAll, mergeFreeBlocks. simpl. rewrite decide_False by done. simpl.
  rewrite (mergeFreeBlocks_loop_noop _ l); [|done|done| |lia].
  2:{ eapply one_free_no_adjacent_free; [|done]. by eapply chain_NoDup. }
  simpl.
  destruct (searchAndSplit_spec fuel (head s) (ALIGN sz + META) m1 l)
    as (chosen & m2 & Hss & Hres); [done|done|lia|lia| |].
  { intros x bx Hx Hbx. destruct (decide (x = d)) as [->|Hxd].
    - unfold m1 in Hbx. rewrite lookup_insert_eq in Hbx. injection Hbx as <-.
      simpl. by apply (Hsizes d).
    - unfold m1 in Hbx. rewrite lookup_insert_ne in Hbx by done.
      by apply (Hsizes x). }
  rewrite Hss. simpl.
  destruct Hres as [(-> & -> & Hnone)|(bc & Hbest & Hbc & Hcase)].
  { exfalso. apply (Hnone d Hdin). exists (set_status STATUS_FREE b).
    split; [apply lookup_insert_eq|]. split; [done|]. simpl. lia. }
  assert (chosen = d) as ->.
  { destruct Hbest as (l1 & l2 & bc' & Hl & Hbc' & Hstc & _).
    apply Hone; [rewrite Hl; apply elem_of_app; right; left|].
    exists bc'. done. }
  unfold m1 in Hbc. rewrite lookup_insert_eq in Hbc. injection Hbc as <-.
  simpl in Hcase. rewrite decide_False in Hcase by lia.
  destruct Hcase as [-> _].
  rewrite decide_True by done. simpl. rewrite decide_False by done.
  simpl. replace (d + sizeof_block_meta) with ptr by (unfold d; lia).
  do 2 f_equal.
  unfold m1. rewrite insert_insert_eq.
  replace (set_status STATUS_ALLOC (set_status STATUS_FREE b)) with b
    by (destruct b; simpl in Hst; rewrite Hst; done).
  rewrite insert_id by done. by destruct s.
Qed.

Lemma free_then_malloc_restores_state_witness :
  ∃ s1, os_free 4227104 mapped_between = Some s1
      ∧ has_status (mem s1) STATUS_FREE (4227104 - sizeof_block_meta)
      ∧ os_malloc 4 100 s1 = Some (4227104, mapped_between).
Proof.
  apply (free_then_malloc_restores_state 4 4227104 100 mapped_between
           [4096000; 8192000; 4227072] (BlockMeta 104 STATUS_ALLOC 8192000 0)).
  - lia.
  - simpl. lia.
  - reflexivity.
  - lia.
  - vm_compute. reflexivity.
  - apply (registry_chain 4). vm_compute. reflexivity.
  - simpl. lia.
  - vm_compute. right. right. left.
  - vm_compute. reflexivity.
  - reflexivity.
  - intros x Hx (bx & Hbx & Hfx).
    apply elem_of_cons in Hx as [->|Hx];
      [vm_compute in Hbx; injection Hbx as <-; discriminate|].
    apply elem_of_cons in Hx as [->|Hx];
      [vm_compute in Hbx; injection Hbx as <-; discriminate|].
    apply list_elem_of_singleton in Hx as ->.
    vm_compute in Hbx. injection Hbx as <-. discriminate.
  - intros x bx Hx Hbx.
    apply elem_of_cons in Hx as [->|Hx];
      [vm_compute in Hbx; injection Hbx as <-; simpl; lia|].
    apply elem_of_cons in Hx as [->|Hx];
      [vm_compute in Hbx; injection Hbx as <-; simpl; lia|].
    apply list_elem_of_singleton in Hx as ->.
    vm_compute in Hbx. injection Hbx as <-. simpl. lia.
  - vm_compute. split; [discriminate|reflexivity].
Defined.

(** ** [os_calloc] *)

(** X14: [os_calloc] compares the total with the page size, not with
    [MMAP_THRESHOLD]: once the aligned product plus the header reaches the
    page size the block is mapped, the payload of the aligned product is
    cleared, and [callocType] is back to 0 on return. *)
Theorem os_calloc_page_size_threshold
    (fuel : nat) (nmemb sz : Z) (s : state) (l : list Z) :
  0 < nmemb * sz < 2 ^ 63 →
  0 < pagesize s < 2 ^ 64 → pagesize s ≤ ALIGN (nmemb * sz) + META →
  chain (mem s) (head s) l → mmap_next s ∉ l → 0 < mmap_next s →
  (length l ≤ fuel)%nat →
  ∃ s', os_calloc fuel nmemb sz s = Some (mmap_next s + META, s')
      ∧ trace s' = trace s ++ [MMAP (ALIGN (nmemb * sz) + META);
                               MEMSET (mmap_next s + META) (ALIGN (nmemb * sz))]
      ∧ mem s' !! mmap_next s
        = Some (BlockMeta (ALIGN (nmemb * sz) + META) STATUS_MAPPED
                          (default 0 (last l)) 0)
      ∧ callocType s' = 0 ∧ brk s' = brk s.
Proof.
  intros Hprod Hpage Habove Hc Hfresh Hpos Hf.
  pose proof META_eq as HM.
  destruct (ALIGN_bounds (nmemb * sz) ltac:(lia)) as [Hal _].
  unfold os_calloc. rewrite decide_False by nia.
  rewrite (wrap_small (nmemb * sz)) by lia.
  set (cs := ALIGN (nmemb * sz)) in *.
  assert (ALIGN cs = cs) as Hidem by (apply ALIGN_idem; lia).
  unfold os_malloc. rewrite decide_False by lia.
  rewrite Hidem. rewrite (wrap_small (cs + META)) by lia.
  simpl callocType. rewrite (decide_True (P := 1 = 1)) by done.
  simpl pagesize. rewrite (wrap_small (pagesize s)) by lia.
  rewrite decide_True by done.
  rewrite (allocateMmap_spec _ _ _ l) by done. simpl.
  rewrite decide_True by (unfold sizeof_block_meta; lia).
  replace (mmap_next s + sizeof_block_meta) with (mmap_next s + META)
    by (unfold sizeof_block_meta; lia).
  eexists. split; [reflexivity|]. simpl.
  split; [by rewrite <- app_assoc|].
  split; [apply appended_lookup_new|]. done.
Qed.

Lemma os_calloc_page_size_threshold_witness :
  ∃ s', os_calloc 2 100 50 slab_in_use = Some (mmap_next slab_in_use + META, s')
      ∧ trace s' = trace slab_in_use
                   ++ [MMAP (ALIGN (100 * 50) + META);
                       MEMSET (mmap_next slab_in_use + META) (ALIGN (100 * 50))]
      ∧ mem s' !! mmap_next slab_in_use
        = Some (BlockMeta (ALIGN (100 * 50) + META) STATUS_MAPPED
                          (default 0 (last [4096000])) 0)
      ∧ callocType s' = 0 ∧ brk s' = brk slab_in_use.
Proof.
  apply (os_calloc_page_size_threshold 2 100 50 slab_in_use [4096000]).
  - lia.
  - simpl. lia.
  - vm_compute. discriminate.
  - apply (registry_chain 2). vm_compute. reflexivity.
  - simpl. intros Hx. apply list_elem_of_singleton in Hx. lia.
  - simpl. lia.
  - simpl. lia.
Defined.

(** ** [os_realloc] when the block has to move *)

Lemma chain_next_in (m : memory) (l : list Z) :
  ∀ p a b, chain m p l → a ∈ l → m !! a = Some b → next b ≠ 0 → next b ∈ l.
Proof.
  induction l as [|x l IH]; intros p a b Hc Ha Hb Hn.
  - by apply elem_of_nil in Ha.
  - destruct Hc as (-> & Hx0 & bx & Hbx & Hc).
    apply elem_of_cons in Ha as [->|Ha].
    + rewrite Hb in Hbx. injection Hbx as <-. right.
      destruct l as [|y l]; [done|]. destruct Hc as (-> & _). left.
    + right. eapply IH; eauto.
Qed.

(** X15: reallocating a mapped block to another size in the mapped range
    maps a new region, copies the smaller of the aligned new size and the
    size in the old header, and unmaps the old region with the length in its
    header; the old block leaves the registry and the new one ends it. *)
Theorem os_realloc_mapped_block_moves
    (fuel : nat) (ptr n : Z) (s : state) (l1 l2 : list Z) (b : block_meta) :
  ptr ≠ 0 → 0 < n → callocType s = 0 →
  MMAP_THRESHOLD ≤ wrap (ALIGN n + META) →
  chain (mem s) (head s) (l1 ++ (ptr - sizeof_block_meta) :: l2) →
  mmap_next s ∉ l1 ++ (ptr - sizeof_block_meta) :: l2 → 0 < mmap_next s →
  (length l1 + length l2 < fuel)%nat →
  mem s !! (ptr - sizeof_block_meta) = Some b → status b = STATUS_MAPPED →
  prev b = default 0 (last l1) → ALIGN n ≠ size b →
  ∃ s', os_realloc fuel ptr n s = Some (mmap_next s + META, s')
      ∧ chain (mem s') (head s') (l1 ++ l2 ++ [mmap_next s])
      ∧ trace s' = trace s
                   ++ [MMAP (wrap (ALIGN n + META));
                       MEMCPY (mmap_next s + META) ptr (Z.min (ALIGN n) (size b));
                       MUNMAP (ptr - sizeof_block_meta) (size b)].
Proof.
  intros Hptr Hn Hcal Habove Hc Hfresh Hpos Hf Hb Hst Hprev Hdiff.
  set (d := ptr - sizeof_block_meta) in *.
  set (a := mmap_next s) in *.
  pose proof META_eq as HM.
  assert (d ∈ l1 ++ d :: l2) as Hdin by (apply elem_of_app; right; left).
  assert (d ≠ a) as Hda by (intros Heq; apply Hfresh; by rewrite <- Heq).
  assert (length (l1 ++ d :: l2) ≤ fuel)%nat as Hlen
    by (rewrite length_app; simpl; lia).
  unfold os_realloc. rewrite decide_False by lia. rewrite decide_False by done.
  fold d. rewrite Hb. simpl.
  rewrite decide_False by congruence. rewrite decide_False by done.
  rewrite decide_True by done.
  unfold moveBlock. rewrite os_malloc_mmap by done.
  rewrite (allocateMmap_spec _ _ _ (l1 ++ d :: l2)) by done. simpl.
  fold d a.
  set (m1 := appended (mem s) (l1 ++ d :: l2) a _).
  assert (∃ b1, m1 !! d = Some b1 ∧ size b1 = size b
                ∧ status b1 = STATUS_MAPPED ∧ prev b1 = prev b) as
    (b1 & Hb1 & Hsz1 & Hst1 & Hprev1).
  { unfold m1. rewrite appended_lookup_old by done. rewrite Hb.
    destruct (decide _); simpl; eexists; split; try reflexivity; done. }
  rewrite Hb1. simpl.
  assert (chain m1 (if decide (head s = 0) then a else head s)
            (l1 ++ d :: (l2 ++ [a]))) as Hc1.
  { replace (l1 ++ d :: (l2 ++ [a])) with ((l1 ++ d :: l2) ++ [a])
      by (by rewrite <- app_assoc).
    apply chain_appended; [done|done|lia|done]. }
  match goal with
  | |- context [os_free ptr ?st] =>
      destruct (os_free_mapped_unlinks ptr st l1 (l2 ++ [a]) b1)
        as (s' & Hfree & Hc' & Htr'); try done
  end.
  { rewrite Hprev1. done. }
  rewrite Hfree. simpl.
  replace (a + sizeof_block_meta) with (a + META) in *
    by (unfold sizeof_block_meta; lia).
  exists s'. split; [done|]. split; [done|].
  rewrite Htr'. simpl. rewrite <- !app_assoc. simpl. rewrite Hsz1.
  do 4 f_equal. f_equal.
  destruct (decide (ALIGN n < size b)); lia.
Qed.

(** X16: when an arena block cannot grow in place, because the block after
    it is in use and nothing in the registry is free, [os_realloc] takes a
    new region from the break, copies as many bytes as the old header holds,
    and marks the old block free.  No header of the registry meets the 32
    bytes at the break, where the new header is laid. *)
Theorem os_realloc_arena_block_moves
    (fuel : nat) (ptr n : Z) (s : state) (l : list Z) (b : block_meta) :
  ptr ≠ 0 → 0 < n → preallocHeap s ≠ 0 → callocType s = 0 →
  ALIGN n + META < MMAP_THRESHOLD →
  chain (mem s) (head s) l → ptr - sizeof_block_meta ∈ l →
  (length l < fuel)%nat →
  mem s !! (ptr - sizeof_block_meta) = Some b → status b = STATUS_ALLOC →
  next b ≠ 0 → size b < ALIGN n →
  (∀ x, x ∈ l → ¬ has_status (mem s) STATUS_FREE x) →
  (∀ x, x ∈ l → x + META ≤ brk s ∨ brk s + META ≤ x) → 0 < brk s →
  ∃ s', os_realloc fuel ptr n s = Some (brk s + META, s')
      ∧ trace s' = trace s ++ [SBRK (ALIGN n + META);
                               MEMCPY (brk s + META) ptr (size b)]
      ∧ mem s' !! (ptr - sizeof_block_meta) = Some (set_status STATUS_FREE b)
      ∧ mem s' !! brk s
        = Some (BlockMeta (ALIGN n) STATUS_ALLOC (default 0 (last l)) 0)
      ∧ reallocType s' = 0.
Proof.
  intros Hptr Hn Hpre Hcal Hbelow Hc Hdin Hf Hb Hst Hnext Hsmall Hno Hclear Hbrk.
  set (d := ptr - sizeof_block_meta) in *.
  pose proof META_eq as HM. pose proof (ALIGN_range n) as Hr.
  assert (brk s ∉ l) as Hfresh.
  { intros Hin. destruct (Hclear _ Hin); lia. }
  assert (MMAP_THRESHOLD = 131072) as Hthr by reflexivity.
  assert (wrap (ALIGN n + META) = ALIGN n + META) as Htot
    by (apply wrap_small; lia).
  destruct (chain_lookup _ _ _ _ Hc Hdin) as [Hd0 _].
  assert (d ≠ brk s) as Hdb by (intros Heq; apply Hfresh; by rewrite <- Heq).
  assert (l ≠ []) as Hne by (intros ->; by apply elem_of_nil in Hdin).
  pose proof (chain_next_in _ _ _ _ _ Hc Hdin Hb Hnext) as Hnin.
  destruct (chain_lookup _ _ _ _ Hc Hnin) as [_ [after Hafter]].
  assert (status after ≠ STATUS_FREE) as Hafst.
  { intros Hfr. apply (Hno _ Hnin). exists after. done. }
  assert (last l ≠ Some d) as Hlast.
  { intros Hl. apply Hnext. eapply chain_last_next; eauto. }
  unfold os_realloc. rewrite decide_False by lia. rewrite decide_False by done.
  fold d. rewrite Hb. simpl.
  rewrite decide_False by congruence. rewrite decide_False by lia.
  rewrite decide_False by congruence. rewrite decide_False by lia.
  rewrite decide_True by done.
  unfold extendRealloc.
  rewrite (extendRealloc_loop_finds _ _ l) by (done || lia). simpl.
  rewrite decide_True by done.
  unfold mergeFreeBlocks. simpl. rewrite decide_False by done.
  rewrite Hb. simpl. rewrite decide_True by done. rewrite Hafter. simpl.
  rewrite decide_False by done. simpl. rewrite Hb. simpl.
  rewrite decide_False by lia. simpl.
  unfold moveBlock.
  match goal with
  | |- context [os_malloc fuel n ?st] =>
      rewrite (os_malloc_new_region fuel n st l); try done
  end.
  2:{ simpl. by rewrite Htot. }
  simpl. rewrite Htot.
  replace (ALIGN n + META - META) with (ALIGN n) by lia.
  rewrite (wrap_small (ALIGN n)) by lia.
  set (m1 := appended (mem s) l (brk s) _).
  assert (m1 !! d = Some b) as Hb1.
  { unfold m1. rewrite appended_lookup_old by done.
    by rewrite decide_False. }
  fold d. rewrite Hb1. simpl.
  unfold os_free. rewrite decide_False by done. simpl. fold d.
  rewrite Hb1. simpl. rewrite decide_True by done.
  rewrite (store_Some _ _ _ _ Hb1). simpl. rewrite lookup_insert_eq. simpl.
  replace (brk s + sizeof_block_meta) with (brk s + META)
    by (unfold sizeof_block_meta; lia).
  eexists. split; [reflexivity|]. simpl.
  split; [by rewrite <- app_assoc|].
  split; [apply lookup_insert_eq|]. split; [|done].
  rewrite lookup_insert_ne by done. apply appended_lookup_new.
Qed.

Lemma os_realloc_mapped_block_moves_witness :
  ∃ s', os_realloc 4 8192032 307200 mapped_between
        = Some (mmap_next mapped_between + META, s')
      ∧ chain (mem s') (head s')
              ([4096000] ++ [4227072] ++ [mmap_next mapped_between])
      ∧ trace s' = trace mapped_between
                   ++ [MMAP (wrap (ALIGN 307200 + META));
                       MEMCPY (mmap_next mapped_between + META) 8192032
                              (Z.min (ALIGN 307200)
                                 (size (BlockMeta 204832 STATUS_MAPPED 4096000 4227072)));
                       MUNMAP (8192032 - sizeof_block_meta)
                              (size (BlockMeta 204832 STATUS_MAPPED 4096000 4227072))].
Proof.
  apply (os_realloc_mapped_block_moves 4 8192032 307200 mapped_between
           [4096000] [4227072]).
  - lia.
  - lia.
  - reflexivity.
  - vm_compute. discriminate.
  - apply (registry_chain 4). vm_compute. reflexivity.
  - vm_compute. intros Hx.
    apply elem_of_cons in Hx as [Hx|Hx]; [lia|].
    apply elem_of_cons in Hx as [Hx|Hx]; [lia|].
    apply list_elem_of_singleton in Hx. lia.
  - simpl. lia.
  - simpl. lia.
  - vm_compute. reflexivity.
  - reflexivity.
  - reflexivity.
  - vm_compute. discriminate.
Defined.

Example packed_slab_reached :
  ('(p, s1) ← os_malloc 3 100 boot;
   '(_, s2) ← os_realloc 3 p 100 s1;
   '(_, s3) ← os_malloc 3 130904 s2;
   Some s3) = Some packed_slab.
Proof. vm_compute. reflexivity. Qed.

Lemma os_realloc_arena_block_moves_witness :
  ∃ s', os_realloc 3 4096032 200 packed_slab = Some (brk packed_slab + META, s')
      ∧ trace s' = trace packed_slab
                   ++ [SBRK (ALIGN 200 + META);
                       MEMCPY (brk packed_slab + META) 4096032
                              (size (BlockMeta 104 STATUS_ALLOC 0 4096136))]
      ∧ mem s' !! (4096032 - sizeof_block_meta)
        = Some (set_status STATUS_FREE (BlockMeta 104 STATUS_ALLOC 0 4096136))
      ∧ mem s' !! brk packed_slab
        = Some (BlockMeta (ALIGN 200) STATUS_ALLOC
                          (default 0 (last [4096000; 4096136])) 0)
      ∧ reallocType s' = 0.
Proof.
  apply (os_realloc_arena_block_moves 3 4096032 200 packed_slab
           [4096000; 4096136]).
  - lia.
  - lia.
  - simpl. lia.
  - reflexivity.
  - vm_compute. reflexivity.
  - apply (registry_chain 3). vm_compute. reflexivity.
  - vm_compute. left.
  - simpl. lia.
  - vm_compute. reflexivity.
  - reflexivity.
  - simpl. lia.
  - vm_compute. reflexivity.
  - intros x Hx (bx & Hbx & Hfx).
    apply elem_of_cons in Hx as [->|Hx];
      [vm_compute in Hbx; injection Hbx as <-; discriminate|].
    apply list_elem_of_singleton in Hx as ->.
    vm_compute in Hbx. injection Hbx as <-. discriminate.
  - simpl. intros x Hx. rewrite META_eq.
    apply elem_of_cons in Hx as [->|Hx]; [lia|].
    apply list_elem_of_singleton in Hx as ->. lia.
  - simpl. lia.
Defined.

(** ** Reuse without a system call *)

(** X17: when the registry holds a free block that is large enough and no
    two free neighbours, [os_malloc] hands out the best fit among the free
    blocks and makes no system call: the trace and the break are as
    before, and the block is in use with at least the aligned size. *)
Theorem os_malloc_reuses_best_fit
    (fuel : nat) (sz : Z) (s : state) (l : list Z) (c : Z) :
  preallocHeap s ≠ 0 → callocType s = 0 →
  0 < sz → ALIGN sz + META < MMAP_THRESHOLD →
  chain (mem s) (head s) l → no_adjacent_free (mem s) l →
  (length l < fuel)%nat →
  (∀ x bx, x ∈ l → mem s !! x = Some bx → 0 ≤ size bx < 2 ^ 64) →
  c ∈ l → fits (mem s) (ALIGN sz) c →
  ∃ chosen s' b', os_malloc fuel sz s = Some (chosen + META, s')
      ∧ is_best_fit (mem s) (ALIGN sz) l chosen
      ∧ trace s' = trace s ∧ brk s' = brk s ∧ head s' = head s
      ∧ mem s' !! chosen = Some b'
      ∧ status b' = STATUS_ALLOC ∧ ALIGN sz ≤ size b'.
Proof.
  intros Hpre Hcal Hsz Hbelow Hc Hnaf Hf Hsizes Hcin Hcfit.
  pose proof META_eq as HM. pose proof ALIGN_1 as HA.
  pose proof (ALIGN_range sz) as Hr.
  assert (MMAP_THRESHOLD = 131072) as Hthr by reflexivity.
  assert (wrap (ALIGN sz + META) = ALIGN sz + META) as Htot
    by (apply wrap_small; lia).
  assert (l ≠ []) as Hne by (intros ->; by apply elem_of_nil in Hcin).
  assert (head s ≠ 0) as Hh.
  { destruct l as [|x l']; [done|]. by destruct Hc as (-> & ? & _). }
  rewrite os_malloc_arena by (done || lia). rewrite Htot.
  unfold arenaAlloc. rewrite decide_False by done.
  unfold tryAll, mergeFreeBlocks. rewrite decide_False by done. simpl.
  rewrite (mergeFreeBlocks_loop_noop _ l) by (done || lia). simpl.
  destruct (searchAndSplit_spec fuel (head s) (ALIGN sz + META) (mem s) l)
    as (chosen & m2 & Hss & Hres); [done|done|lia|lia|done|].
  rewrite Hss. simpl.
  replace (ALIGN sz + META - META) with (ALIGN sz) in Hres by lia.
  destruct Hres as [(-> & -> & Hnone)|(bc & Hbest & Hbc & Hcase)].
  { exfalso. by apply (Hnone c). }
  pose proof Hbest as (l1 & l2 & bc' & Hl & Hbc' & Hstc & Hge & _).
  rewrite Hbc in Hbc'. injection Hbc' as <-.
  assert (chosen ∈ l) as Hchin by (rewrite Hl; apply elem_of_app; right; left).
  destruct (chain_lookup _ _ _ _ Hc Hchin) as [Hch0 _].
  rewrite decide_True by done. simpl. rewrite decide_False by done.
  replace (chosen + sizeof_block_meta) with (chosen + META)
    by (unfold sizeof_block_meta; lia).
  destruct (decide (ALIGN 1 + (ALIGN sz + META) ≤ size bc)) as [Hsplit|Hno].
  - destruct Hcase as [-> _].
    eexists chosen, _, _. split; [reflexivity|]. split; [done|]. simpl.
    split; [done|]. split; [done|]. split; [done|]. unfold split_at.
    rewrite lookup_insert_ne by lia. rewrite lookup_insert_eq.
    split; [reflexivity|]. simpl. split; [done|]. lia.
  - destruct Hcase as [-> _].
    eexists chosen, _, _. split; [reflexivity|]. split; [done|]. simpl.
    split; [done|]. split; [done|]. split; [done|].
    rewrite lookup_insert_eq. split; [reflexivity|]. simpl. done.
Qed.

Lemma os_malloc_reuses_best_fit_witness :
  ∃ chosen s' b', os_malloc 3 1000 shrunk_slab = Some (chosen + META, s')
      ∧ is_best_fit (mem shrunk_slab) (ALIGN 1000) [4096000; 4096136] chosen
      ∧ trace s' = trace shrunk_slab ∧ brk s' = brk shrunk_slab
      ∧ head s' = head shrunk_slab
      ∧ mem s' !! chosen = Some b'
      ∧ status b' = STATUS_ALLOC ∧ ALIGN 1000 ≤ size b'.
Proof.
  apply (os_malloc_reuses_best_fit 3 1000 shrunk_slab [4096000; 4096136] 4096136).
  - simpl. lia.
  - reflexivity.
  - lia.
  - vm_compute. reflexivity.
  - apply (registry_chain 3). vm_compute. reflexivity.
  - simpl. split; [|done]. intros [(b & Hb & Hst) _].
    vm_compute in Hb. injection Hb as <-. discriminate.
  - simpl. lia.
  - intros x bx Hx Hbx.
    apply elem_of_cons in Hx as [->|Hx];
      [vm_compute in Hbx; injection Hbx as <-; simpl; lia|].
    apply list_elem_of_singleton in Hx as ->.
    vm_compute in Hbx. injection Hbx as <-. simpl. lia.
  - vm_compute. right. left.
  - eexists. split; [vm_compute; reflexivity|]. split; [reflexivity|].
    vm_compute. discriminate.
Defined.

(** ** Allocation without a free in between *)





(** ** Coalescing conserves the bytes of the registry *)

Lemma registry_bytes_ext (m m' : memory) (l : list Z) :
  (∀ x, x ∈ l → m' !! x = m !! x) → registry_bytes m' l = registry_bytes m l.
Proof.
  induction l as [|a l IH]; intros Hext; [done|]. simpl.
  rewrite (Hext a) by left. rewrite IH; [done|].
  intros x Hx. apply Hext. by right.
Qed.

Lemma registry_bytes_nonneg (m : memory) (l : list Z) :
  (∀ x bx, x ∈ l → m !! x = Some bx → 0 ≤ size bx) → 0 ≤ registry_bytes m l.
Proof.
  pose proof META_eq as HM.
  induction l as [|a l IH]; intros Hsz; [done|]. simpl.
  assert (0 ≤ registry_bytes m l) by (apply IH; intros; eapply Hsz; [by right|done]).
  destruct (m !! a) as [b|] eqn:Hb; [|lia].
  pose proof (Hsz a b ltac:(left) Hb). lia.
Qed.

Lemma mergeFreeBlocks_loop_bytes (fuel : nat) :
  ∀ l p m,
    chain m p l → l ≠ [] → (length l ≤ fuel)%nat →
    (∀ x bx, x ∈ l → m !! x = Some bx → 0 ≤ size bx) →
    registry_bytes m l < 2 ^ 64 →
    ∃ m' l', mergeFreeBlocks_loop fuel p m = Some m'
      ∧ chain m' p l' ∧ sublist l' l
      ∧ registry_bytes m' l' = registry_bytes m l
      ∧ (∀ x bx, x ∈ l' → m' !! x = Some bx → 0 ≤ size bx)
      ∧ (∀ x b, m !! x = Some b → status b ≠ STATUS_FREE → m' !! x = Some b)
      ∧ (∀ x, x ∉ l → m' !! x = m !! x).
Proof.
  pose proof META_eq as HM.
  induction fuel as [|fuel IH]; intros l p m Hc Hne Hf Hsz Htot.
  { destruct l; [done|simpl in Hf; lia]. }
  destruct l as [|a l0]; [done|]. clear Hne.
  pose proof (chain_NoDup _ _ _ Hc) as Hnd.
  destruct Hc as (-> & Ha0 & t & Ht & Hc).
  remember (registry_bytes m (a :: l0)) as total eqn:Htotal.
  simpl. rewrite Ht. simpl.
  destruct l0 as [|y l1].
  { simpl in Hc. rewrite decide_False by (intros [? _]; done).
    exists m, [a]. split; [done|]. split; [simpl; eauto|].
    split; [done|]. split; [done|].
    split; [exact Hsz|]. split; [|done].
    intros x b Hb _. exact Hb. }
  pose proof Hc as (Hy & Hy0 & n & Hn & Hc1).
  rewrite decide_True by (split; [congruence|done]).
  rewrite Hy in Hc |- *.
  apply NoDup_cons in Hnd as [Hal0 Hnd0].
  assert (a ≠ y) as Hay by (intros ->; apply Hal0; left).
  assert (a ∉ l1) as Hal1 by (intros ?; apply Hal0; by right).
  pose proof (Hsz a t ltac:(left) Ht) as Hst0.
  pose proof (Hsz y n ltac:(right; left) Hn) as Hsn0.
  assert (0 ≤ registry_bytes m l1) as Hrest.
  { apply registry_bytes_nonneg. intros x bx Hx. apply Hsz. by do 2 right. }
  simpl in Htotal. rewrite Ht, Hn in Htotal.
  (* moving on to the next block *)
  assert (∃ m' l', mergeFreeBlocks_loop fuel y m = Some m'
      ∧ chain m' a l' ∧ sublist l' (a :: y :: l1)
      ∧ registry_bytes m' l' = total
      ∧ (∀ x bx, x ∈ l' → m' !! x = Some bx → 0 ≤ size bx)
      ∧ (∀ x b, m !! x = Some b → status b ≠ STATUS_FREE → m' !! x = Some b)
      ∧ (∀ x, x ∉ a :: y :: l1 → m' !! x = m !! x)) as Hskip.
  { destruct (IH (y :: l1) y m) as (m' & l' & Hrun & Hc' & Hsub & Hby & Hsz' & Hnf & Hout);
      [done|done|simpl in Hf |- *; lia| | |].
    { intros x bx Hx. apply Hsz. by right. }
    { simpl. rewrite Hn. lia. }
    assert (m' !! a = Some t) as Hta by (rewrite Hout; done).
    exists m', (a :: l'). split; [done|]. split.
    { split; [done|]. split; [done|]. exists t. split; [done|]. by rewrite Hy. }
    split; [by apply sublist_skip|]. split.
    { simpl. rewrite Hta. simpl in Hby. rewrite Hby, Hn. lia. }
    split.
    { intros x bx Hx Hbx. apply elem_of_cons in Hx as [->|Hx].
      - rewrite Hta in Hbx. injection Hbx as <-. done.
      - by apply (Hsz' x). }
    split; [done|]. intros x Hx. apply Hout. intros Hin. apply Hx. by right. }
  destruct (decide (status t = STATUS_FREE)) as [Hft|Hft]; [|done].
  rewrite Hn. simpl.
  destruct (decide (status n = STATUS_FREE)) as [Hfn|Hfn]; [|done].
  clear Hskip.
  (* the two blocks become one *)
  rewrite (absorbNext_spec m a y t n Ht Hy Hn Hay). simpl.
  rewrite (wrap_small (size n + META)) by lia.
  rewrite (wrap_small (size t + (size n + META))) by lia.
  set (t' := BlockMeta (size t + (size n + META)) (status t) (prev t) (next n)).
  set (m1 := <[a := t']> m).
  assert (∀ x, x ∈ l1 → m1 !! x = m !! x) as Hsame.
  { intros x Hx. unfold m1. rewrite lookup_insert_ne; [done|]. by intros ->. }
  destruct (IH (a :: l1) a m1) as (m' & l' & Hrun & Hc' & Hsub & Hby & Hsz' & Hnf & Hout).
  { split; [done|]. split; [done|]. exists t'. split; [apply lookup_insert_eq|].
    simpl. by apply chain_insert_ne. }
  { done. }
  { simpl in Hf |- *. lia. }
  { intros x bx Hx Hbx. apply elem_of_cons in Hx as [->|Hx].
    - unfold m1 in Hbx. rewrite lookup_insert_eq in Hbx. injection Hbx as <-.
      simpl. lia.
    - rewrite Hsame in Hbx by done. apply (Hsz x); [by do 2 right|done]. }
  { simpl. unfold m1 at 1. rewrite lookup_insert_eq. simpl.
    rewrite (registry_bytes_ext m m1 l1 Hsame). lia. }
  exists m', l'. split; [done|]. split; [done|].
  split.
  { etrans; [exact Hsub|]. apply sublist_skip. by apply sublist_cons. }
  split.
  { rewrite Hby. simpl. unfold m1 at 1. rewrite lookup_insert_eq. simpl.
    rewrite (registry_bytes_ext m m1 l1 Hsame). lia. }
  split; [done|]. split.
  - intros x b Hb Hnfree. apply Hnf; [|done].
    unfold m1. rewrite lookup_insert_ne; [done|].
    intros ->. rewrite Ht in Hb. injection Hb as <-. done.
  - intros x Hx. rewrite Hout.
    + unfold m1. rewrite lookup_insert_ne; [done|].
      intros ->. apply Hx. left.
    + intros Hin. apply Hx. apply elem_of_cons in Hin as [->|Hin]; [left|].
      by do 2 right.
Qed.

(** X19: the sweep of [mergeFreeBlocks] over the whole registry neither
    loses nor invents bytes: the blocks left in the registry are blocks that
    were in it, in the same order, they stand for the same number of bytes,
    headers included, and no block that is in use or mapped has its header
    changed. *)
Theorem mergeFreeBlocks_conserves_bytes
    (fuel : nat) (hd : Z) (m : memory) (l : list Z) :
  chain m hd l → (length l ≤ fuel)%nat →
  (∀ x bx, x ∈ l → m !! x = Some bx → 0 ≤ size bx) →
  registry_bytes m l < 2 ^ 64 →
  ∃ m' l', mergeFreeBlocks fuel hd 0 m = Some m'
    ∧ chain m' hd l' ∧ sublist l' l
    ∧ registry_bytes m' l' = registry_bytes m l
    ∧ (∀ x b, m !! x = Some b → status b ≠ STATUS_FREE → m' !! x = Some b).
Proof.
  intros Hc Hf Hsz Htot. unfold mergeFreeBlocks.
  destruct l as [|a l0].
  { simpl in Hc. rewrite decide_True by done. exists m, []. done. }
  pose proof Hc as (-> & Ha0 & _).
  rewrite decide_False by done. simpl.
  destruct (mergeFreeBlocks_loop_bytes fuel (a :: l0) a m)
    as (m' & l' & Hrun & Hc' & Hsub & Hby & _ & Hnf & _); try done.
  exists m', l'. done.
Qed.

Lemma mergeFreeBlocks_conserves_bytes_witness :
  ∃ m' l', mergeFreeBlocks 3 (head two_free_blocks) 0 (mem two_free_blocks) = Some m'
    ∧ chain m' (head two_free_blocks) l' ∧ sublist l' [4096000; 4096136]
    ∧ registry_bytes m' l' = registry_bytes (mem two_free_blocks) [4096000; 4096136]
    ∧ (∀ x b, mem two_free_blocks !! x = Some b → status b ≠ STATUS_FREE →
              m' !! x = Some b).
Proof.
  apply (mergeFreeBlocks_conserves_bytes 3 (head two_free_blocks)
           (mem two_free_blocks) [4096000; 4096136]).
  - apply (registry_chain 3). vm_compute. reflexivity.
  - simpl. lia.
  - intros x bx Hx Hbx.
    apply elem_of_cons in Hx as [->|Hx];
      [vm_compute in Hbx; injection Hbx as <-; simpl; lia|].
    apply list_elem_of_singleton in Hx as ->.
    vm_compute in Hbx. injection Hbx as <-. simpl. lia.
  - vm_compute. reflexivity.
Defined.

(** ** [os_calloc] below the page size *)

(** X20: the first request that the arena serves may come from
    [os_calloc]: below the page size, and with the arena not yet in use, it
    takes the whole first region of [MMAP_THRESHOLD] bytes as one block in
    use, clears only the aligned product at the start of its payload, and
    leaves [callocType] at 0. *)
Theorem os_calloc_small_first_use
    (fuel : nat) (nmemb sz : Z) (s : state) (l : list Z) :
  0 < nmemb * sz < 2 ^ 63 →
  0 < pagesize s < 2 ^ 64 → ALIGN (nmemb * sz) + META < pagesize s →
  preallocHeap s = 0 →
  chain (mem s) (head s) l → brk s ∉ l → 0 < brk s →
  (length l ≤ fuel)%nat →
  ∃ s', os_calloc fuel nmemb sz s = Some (brk s + META, s')
      ∧ trace s' = trace s ++ [SBRK MMAP_THRESHOLD;
                               MEMSET (brk s + META) (ALIGN (nmemb * sz))]
      ∧ mem s' !! brk s
        = Some (BlockMeta (MMAP_THRESHOLD - META) STATUS_ALLOC
                          (default 0 (last l)) 0)
      ∧ brk s' = brk s + MMAP_THRESHOLD
      ∧ preallocHeap s' = 1 ∧ callocType s' = 0.
Proof.
  intros Hprod Hpage Hbelow Hpre Hc Hfresh Hpos Hf.
  pose proof META_eq as HM.
  destruct (ALIGN_bounds (nmemb * sz) ltac:(lia)) as [Hal _].
  unfold os_calloc. rewrite decide_False by nia.
  rewrite (wrap_small (nmemb * sz)) by lia.
  set (cs := ALIGN (nmemb * sz)) in *.
  assert (ALIGN cs = cs) as Hidem by (apply ALIGN_idem; lia).
  unfold os_malloc. rewrite decide_False by lia.
  rewrite Hidem. rewrite (wrap_small (cs + META)) by lia.
  simpl callocType. rewrite (decide_True (P := 1 = 1)) by done.
  simpl pagesize. rewrite (wrap_small (pagesize s)) by lia.
  rewrite decide_False by lia.
  unfold arenaAlloc. simpl preallocHeap. rewrite decide_True by done.
  rewrite (allocateSbrk_spec _ _ _ l) by done. simpl.
  rewrite decide_True by (unfold sizeof_block_meta; lia).
  replace (brk s + sizeof_block_meta) with (brk s + META)
    by (unfold sizeof_block_meta; lia).
  assert (wrap (MMAP_THRESHOLD - META) = MMAP_THRESHOLD - META) as ->
    by reflexivity.
  eexists. split; [reflexivity|]. simpl.
  split; [by rewrite <- app_assoc|].
  split; [apply appended_lookup_new|]. done.
Qed.

Lemma os_calloc_small_first_use_witness :
  ∃ s', os_calloc 1 10 10 boot = Some (brk boot + META, s')
      ∧ trace s' = trace boot ++ [SBRK MMAP_THRESHOLD;
                                  MEMSET (brk boot + META) (ALIGN (10 * 10))]
      ∧ mem s' !! brk boot
        = Some (BlockMeta (MMAP_THRESHOLD - META) STATUS_ALLOC
                          (default 0 (last [])) 0)
      ∧ brk s' = brk boot + MMAP_THRESHOLD
      ∧ preallocHeap s' = 1 ∧ callocType s' = 0.
Proof.
  apply (os_calloc_small_first_use 1 10 10 boot []).
  - lia.
  - simpl. lia.
  - vm_compute. reflexivity.
  - reflexivity.
  - simpl. reflexivity.
  - apply not_elem_of_nil.
  - simpl. lia.
  - simpl. lia.
Defined.
